(** * xtrader: a shallow embedding of [trading.py]

    The development follows the layout of the source file:
    the risk optimizer ([ParameterOptimizer]), the position sizer and the
    signal generator, the order manager ([OrderManager]) and the recovery
    store ([save_recovery_state] / [load_recovery_state]).

    Numbers.  Python floats are modelled as exact rationals ([Q]); the
    comparisons that select branches are the ones of the source.  Scalar
    division by zero raises [ZeroDivisionError] as in Python, so every
    division of the source is guarded in the model by a test of the divisor.
    Exceptions are values of an error monad. *)

From Stdlib Require Import ZArith QArith Qabs Qround Qminmax Lqa Lia List.
From Stdlib Require SpecFloat.
From stdpp Require Import gmap strings list pretty.
Import ListNotations.

(** ** Python scalars and exceptions *)

Module Py.

Inductive exn : Type :=
| ZeroDivisionError
| KeyError
| TypeError
| BinanceAPIException (code : Z)
| ConnectionError.

Inductive result (A : Type) : Type :=
| Ok (a : A)
| Raise (e : exn).
Arguments Ok {A} a.
Arguments Raise {A} e.

Definition bind {A B} (m : result A) (k : A -> result B) : result B :=
  match m with
  | Ok a => k a
  | Raise e => Raise e
  end.

(** [try: m except Exception: h] *)
Definition try_except {A} (m : result A) (h : exn -> A) : A :=
  match m with
  | Ok a => a
  | Raise e => h e
  end.

Definition Qltb (a b : Q) : bool := negb (Qle_bool b a).
Definition Qgtb (a b : Q) : bool := Qltb b a.

(** [a / b] on floats. *)
Definition div (a b : Q) : result Q :=
  if Qeq_bool b 0 then Raise ZeroDivisionError else Ok (a / b)%Q.

(** [min(a, b)] and [max(a, b)] on two arguments: the first argument is
    kept unless the second is strictly smaller (resp. larger). *)
Definition min (a b : Q) : Q := if Qltb b a then b else a.
Definition max (a b : Q) : Q := if Qgtb b a then b else a.

(** [l[start:]] for a possibly negative [start]. *)
Definition slice_from {A} (start : Z) (l : list A) : list A :=
  let len := Z.of_nat (length l) in
  let s := if (start <? 0)%Z then Z.max (start + len) 0 else Z.min start len in
  drop (Z.to_nat s) l.

(** Rounding to the nearest integer, ties to even. *)
Definition round_half_even (x : Q) : Z :=
  let f := Qfloor x in
  let d := (x - inject_Z f)%Q in
  if Qltb d 0.5 then f
  else if Qltb 0.5 d then (f + 1)%Z
  else if Z.even f then f else (f + 1)%Z.

(** [round(x, n)] with [k] = 10^n. *)
Definition round_at (k : Q) (x : Q) : Q :=
  (inject_Z (round_half_even (x * k)) / k)%Q.

(** [sum(l)] and [np.mean(l)]. *)
Definition sum (l : list Q) : Q := fold_right Qplus 0%Q l.
Definition mean (l : list Q) : result Q :=
  div (sum l) (inject_Z (Z.of_nat (length l))).

End Py.

#[global] Instance result_bind : MBind Py.result :=
  fun A B k m => Py.bind m k.
#[global] Instance result_ret : MRet Py.result := @Py.Ok.

#[global] Instance Qlt_decision : RelDecision Qlt :=
  fun a b => match Qlt_le_dec a b with
             | left H => left H
             | right H => right (Qle_not_lt _ _ H)
             end.
#[global] Instance Qle_decision : RelDecision Qle :=
  fun a b => match Qlt_le_dec b a with
             | left H => right (Qlt_not_le _ _ H)
             | right H => left H
             end.

(** ** Configuration ([load_config]) *)

Inductive TradingType : Type := Spot | Futures.

Record Config : Type := {
  API_KEY : string;
  API_SECRET : string;
  TRADING_TYPE : TradingType;
  INITIAL_BALANCE : Q;
  LEVERAGE : Q;
  RISK_PERCENT : Q;
  MAX_SLIPPAGE : Q;
  MAX_OPEN_ORDERS : Z;
  MEMORY_LIMIT : Q;
  VOLATILITY_FACTOR : Q;
  PERFORMANCE_WINDOW : Z
}.

Inductive Strategy : Type := MOMENTUM | SWING.

(** One entry of [TRADE_SYMBOLS]. *)
Record SymbolConfig : Type := {
  risk_weight : Q;
  stop_multiplier : Strategy -> Q;
  profit_multiplier : Strategy -> Q;
  min_qty : Q;
  max_position_usd : Q
}.

(** [validate_config]: the list of complaints, empty for an accepted
    configuration (the source prints them and exits when there is one). *)
Definition validate_config (config : Config)
    (trade_symbols : list (string * SymbolConfig)) : list string :=
  (if bool_decide (API_KEY config = "YOUR_API_KEY")
      || bool_decide (API_SECRET config = "YOUR_API_SECRET")
   then ["api key not set"] else [])
  ++ (if negb (Qle_bool 0.01 (RISK_PERCENT config)
               && Qle_bool (RISK_PERCENT config) 0.05)
      then ["risk percent outside 1%-5%"] else [])
  ++ (if negb (Qle_bool 1 (LEVERAGE config) && Qle_bool (LEVERAGE config) 5)
      then ["leverage outside 1-5"] else [])
  ++ (match trade_symbols with
      | [] => ["no trade symbol configured"]
      | _ => []
      end).

(** ** Trade records

    The dictionaries appended to [trade_history] by [_monitor_order]; the
    key ['pnl'] is optional. *)

Record Trade : Type := {
  tr_symbol : string;
  tr_side : string;
  tr_size : Q;
  tr_price : Q;
  tr_timestamp : Q;
  tr_signal_type : Strategy;
  tr_pnl : option Q
}.

(** ** ParameterOptimizer *)

Module ParameterOptimizer.
Import Py.

(** [_calculate_pnl]: the stored value when the key is present, else 0. *)
Definition _calculate_pnl (trade : Trade) : Q :=
  match tr_pnl trade with
  | Some p => p
  | None => 0
  end.

Definition nonempty {A} (l : list A) : bool :=
  match l with [] => false | _ => true end.

Definition optimize_risk (CONFIG : Config) (recent_trades : list Trade)
  : result Q :=
  if (Z.of_nat (length recent_trades) <? 10)%Z then Ok (RISK_PERCENT CONFIG)
  else
    let recent := slice_from (- PERFORMANCE_WINDOW CONFIG) recent_trades in
    let profitable_trades :=
      List.filter (fun t => Qgtb (_calculate_pnl t) 0) recent in
    win_rate ← div (inject_Z (Z.of_nat (length profitable_trades)))
                    (inject_Z (Z.of_nat (length recent)));
    avg_profit ← (if nonempty profitable_trades
                   then mean (map _calculate_pnl profitable_trades)
                   else Ok 0%Q);
    let losing_trades :=
      List.filter (fun t => Qltb (_calculate_pnl t) 0) recent in
    avg_loss ← (if nonempty losing_trades
                 then m ← mean (map _calculate_pnl losing_trades); Ok (Qabs m)
                 else Ok 1%Q);
    profit_loss_ratio ← (if Qgtb avg_loss 0 then div avg_profit avg_loss
                          else Ok 1%Q);
    let base_risk := RISK_PERCENT CONFIG in
    if Qgtb win_rate 0.7 && Qgtb profit_loss_ratio 1.5 then
      Ok (min (base_risk * 1.2) 0.035)
    else if Qltb win_rate 0.4 || Qltb profit_loss_ratio 0.8 then
      Ok (max (base_risk * 0.8) 0.015)
    else
      Ok base_risk.

End ParameterOptimizer.

(** ** The risk policy in the words of the specification

    [adjustRisk] restates section 4.2 of the specification; it is compared
    with [ParameterOptimizer.optimize_risk] below.  Where no trade is a
    winner the mean profit is taken to be 0, on which the specification is
    silent. *)

Module RiskSpec.

Definition pnl_of (t : Trade) : Q := default 0%Q (tr_pnl t).

(** The [n] most recent trades of a history. *)
Definition most_recent (n : nat) (history : list Trade) : list Trade :=
  drop (length history - n) history.

Definition winners (l : list Trade) : list Trade :=
  List.filter (fun t => bool_decide (0 < pnl_of t)%Q) l.
Definition losers (l : list Trade) : list Trade :=
  List.filter (fun t => bool_decide (pnl_of t < 0)%Q) l.

Definition Qlen {A} (l : list A) : Q := inject_Z (Z.of_nat (length l)).

Definition average (default : Q) (l : list Q) : Q :=
  match l with
  | [] => default
  | _ => (Py.sum l / Qlen l)%Q
  end.

(** Fraction of trades with positive PnL. *)
Definition win_rate (l : list Trade) : Q := (Qlen (winners l) / Qlen l)%Q.

(** Mean profit of winners divided by mean absolute loss of losers, the
    latter being 1 when there are no losers. *)
Definition profit_loss_ratio (l : list Trade) : Q :=
  (average 0 (map pnl_of (winners l))
   / average 1 (map (fun t => Qabs (pnl_of t)) (losers l)))%Q.

Definition risk_ceiling : Q := 0.035.
Definition risk_floor : Q := 0.015.

Definition policy (base w r : Q) : Q :=
  if decide (0.7 < w /\ 1.5 < r)%Q then Qmin (base * 1.2) risk_ceiling
  else if decide (w < 0.4 \/ r < 0.8)%Q then Qmax (base * 0.8) risk_floor
  else base.

Definition adjustRisk (performanceWindow : nat) (baseRiskPercent : Q)
    (tradeHistory : list Trade) : Q :=
  if lt_dec (length tradeHistory) 10 then baseRiskPercent
  else
    let recent := most_recent performanceWindow tradeHistory in
    policy baseRiskPercent (win_rate recent) (profit_loss_ratio recent).

End RiskSpec.

(** ** The risk optimizer in double precision

    [optimize_risk] works on Python floats and numpy.float64 values, which
    are IEEE binary64 numbers.  Where the outcome of a comparison can
    depend on rounding, the function is modelled on those numbers, with
    the arithmetic of [SpecFloat] at 53 bits of precision. *)

Module Double.

Definition double : Type := SpecFloat.spec_float.

Definition prec : Z := 53.
Definition emax : Z := 1024.

(** The double nearest to an integer; exact below 2^53. *)
Definition of_Z (z : Z) : double :=
  SpecFloat.binary_normalize prec emax z 0 false.

Definition add : double -> double -> double := SpecFloat.SFadd prec emax.
Definition mul : double -> double -> double := SpecFloat.SFmul prec emax.
Definition div : double -> double -> double := SpecFloat.SFdiv prec emax.
Definition abs : double -> double := SpecFloat.SFabs.

(** [a < b] and [a > b]: false as soon as one side is NaN. *)
Definition ltb : double -> double -> bool := SpecFloat.SFltb.
Definition gtb (a b : double) : bool := ltb b a.

(** [min(a, b)] and [max(a, b)] of Python: the first argument is kept
    unless the second is strictly smaller (resp. larger). *)
Definition min (a b : double) : double := if ltb b a then b else a.
Definition max (a b : double) : double := if gtb b a then b else a.

(** The double that the decimal literal [n/d] denotes: the correctly
    rounded quotient of two integers that are doubles themselves. *)
Definition literal (n : Z) (d : positive) : double :=
  div (of_Z n) (of_Z (Z.pos d)).

Definition zero : double := SpecFloat.S754_zero false.
Definition one : double := Eval cbv in of_Z 1.

(** The literals of [optimize_risk]. *)
Definition d0_7 : double := Eval cbv in literal 7 10.
Definition d1_5 : double := Eval cbv in literal 15 10.
Definition d0_4 : double := Eval cbv in literal 4 10.
Definition d0_8 : double := Eval cbv in literal 8 10.
Definition d1_2 : double := Eval cbv in literal 12 10.
Definition d0_035 : double := Eval cbv in literal 35 1000.
Definition d0_015 : double := Eval cbv in literal 15 1000.

(** The rational number a finite double stands for. *)
Definition value (x : double) : option Q :=
  match x with
  | SpecFloat.S754_zero _ => Some 0%Q
  | SpecFloat.S754_finite s m e =>
      Some ((if s then - inject_Z (Z.pos m) else inject_Z (Z.pos m))
            * Qpower 2 e)%Q
  | _ => None
  end.

End Double.

Module DoubleOptimizer.
Import Py.

(** A trade as the optimizer reads it: the number under ['pnl'], as a
    double, when the key is present. *)
Record PricedTrade : Type := { pnl : option Double.double }.

Definition _calculate_pnl (trade : PricedTrade) : Double.double :=
  match pnl trade with
  | Some p => p
  | None => Double.zero
  end.

(** [a / b] on two lengths. *)
Definition truediv (a b : Z) : result Double.double :=
  if (b =? 0)%Z then Raise ZeroDivisionError
  else Ok (Double.div (Double.of_Z a) (Double.of_Z b)).

(** [optimize_risk], with [np_mean] for [np.mean] on a list of doubles,
    whose order of summation is numpy's business. *)
Definition optimize_risk (np_mean : list Double.double -> Double.double)
    (RISK_PERCENT : Double.double) (performance_window : Z)
    (recent_trades : list PricedTrade) : result Double.double :=
  if (Z.of_nat (length recent_trades) <? 10)%Z then Ok RISK_PERCENT
  else
    let recent := slice_from (- performance_window) recent_trades in
    let profitable_trades :=
      List.filter (fun t => Double.gtb (_calculate_pnl t) Double.zero) recent in
    win_rate ← truediv (Z.of_nat (length profitable_trades))
                        (Z.of_nat (length recent));
    let avg_profit :=
      if ParameterOptimizer.nonempty profitable_trades
      then np_mean (map _calculate_pnl profitable_trades)
      else Double.zero in
    let losing_trades :=
      List.filter (fun t => Double.ltb (_calculate_pnl t) Double.zero) recent in
    let avg_loss :=
      if ParameterOptimizer.nonempty losing_trades
      then Double.abs (np_mean (map _calculate_pnl losing_trades))
      else Double.one in
    let profit_loss_ratio :=
      if Double.gtb avg_loss Double.zero then Double.div avg_profit avg_loss
      else Double.one in
    let base_risk := RISK_PERCENT in
    if Double.gtb win_rate Double.d0_7
       && Double.gtb profit_loss_ratio Double.d1_5 then
      Ok (Double.min (Double.mul base_risk Double.d1_2) Double.d0_035)
    else if Double.ltb win_rate Double.d0_4
            || Double.ltb profit_loss_ratio Double.d0_8 then
      Ok (Double.max (Double.mul base_risk Double.d0_8) Double.d0_015)
    else
      Ok base_risk.

End DoubleOptimizer.

(** The quantities of section 4.2 of the specification as the code
    computes them, and as exact fractions. *)

Module DoubleRiskSpec.
Import DoubleOptimizer.

Definition pnl_of (t : PricedTrade) : Double.double :=
  default Double.zero (pnl t).

(** The [n] most recent trades of a history. *)
Definition most_recent {A} (n : nat) (history : list A) : list A :=
  drop (length history - n) history.

Definition winners (l : list PricedTrade) : list PricedTrade :=
  List.filter (fun t => Double.ltb Double.zero (pnl_of t)) l.
Definition losers (l : list PricedTrade) : list PricedTrade :=
  List.filter (fun t => Double.ltb (pnl_of t) Double.zero) l.

Definition count {A} (l : list A) : Double.double :=
  Double.of_Z (Z.of_nat (length l)).

(** Fraction of trades with positive PnL. *)
Definition win_rate (l : list PricedTrade) : Double.double :=
  Double.div (count (winners l)) (count l).

(** Mean profit of the winners, 0 when there is none. *)
Definition mean_profit (np_mean : list Double.double -> Double.double)
    (l : list PricedTrade) : Double.double :=
  match winners l with
  | [] => Double.zero
  | _ => np_mean (map pnl_of (winners l))
  end.

(** Absolute value of the mean loss of the losers, 1 when there is
    none. *)
Definition mean_loss (np_mean : list Double.double -> Double.double)
    (l : list PricedTrade) : Double.double :=
  match losers l with
  | [] => Double.one
  | _ => Double.abs (np_mean (map pnl_of (losers l)))
  end.

(** Their quotient, taken to be 1 when the mean loss is not positive. *)
Definition profit_loss_ratio (np_mean : list Double.double -> Double.double)
    (l : list PricedTrade) : Double.double :=
  if Double.ltb Double.zero (mean_loss np_mean l)
  then Double.div (mean_profit np_mean l) (mean_loss np_mean l)
  else Double.one.

(** Two orders of summation: from left to right, and in adjacent pairs,
    level by level. *)
Definition sum_left_to_right (l : list Double.double) : Double.double :=
  fold_left Double.add l Double.zero.

Fixpoint add_pairs (l : list Double.double) : list Double.double :=
  match l with
  | a :: b :: l => Double.add a b :: add_pairs l
  | l => l
  end.

Fixpoint sum_levels (fuel : nat) (l : list Double.double) : Double.double :=
  match fuel, l with
  | _, [] => Double.zero
  | _, [a] => a
  | O, a :: _ => a
  | S fuel, l => sum_levels fuel (add_pairs l)
  end.

Definition sum_in_pairs (l : list Double.double) : Double.double :=
  sum_levels (length l) l.

Definition mean_with (sum : list Double.double -> Double.double)
    (l : list Double.double) : Double.double :=
  Double.div (sum l) (count l).

(** The mean of finite doubles as an exact fraction. *)
Definition exact_mean (l : list Double.double) : option Q :=
  total ← foldr (fun x acc => a ← acc; v ← Double.value x; Some (v + a)%Q)
             (Some 0%Q) l;
  Some (total / inject_Z (Z.of_nat (length l)))%Q.

End DoubleRiskSpec.

(** ** System guard

    The decorator [system_guard]: the wrapped call is skipped, and [None]
    returned, when the memory use exceeds [MEMORY_LIMIT] or more than 15
    threads are alive. *)

Record SystemStatus : Type := {
  memory_percent : Q;
  active_count : Z
}.

Definition system_guard {A} (CONFIG : Config) (sys : SystemStatus)
    (func : option A) : option A :=
  if Py.Qgtb (memory_percent sys) (MEMORY_LIMIT CONFIG) then None
  else if (15 <? active_count sys)%Z then None
  else func.

(** ** Position sizer ([calculate_position_size]) *)

Module Sizer.
Import Py.
Local Open Scope Q_scope.

(** [round(x, 5)] *)
Definition round5 (x : Q) : Q := round_at 100000 x.

(** [s.endswith(suffix)] *)
Definition endswith (s suffix : string) : bool :=
  let n := String.length s in
  let m := String.length suffix in
  (m <=? n)%nat && String.eqb (String.substring (n - m) m s) suffix.

(** [d[k]] on a dictionary. *)
Definition getitem {V} (d : gmap string V) (k : string) : result V :=
  match d !! k with
  | Some v => Ok v
  | None => Raise KeyError
  end.

(** The body of the [try] block; [None] stands for the early
    [return None] below the minimum quantity.  The divisions are those of
    Python floats, which raise on a zero divisor; on numpy.float64
    operands, as [generate_signal] passes them, a zero divisor gives an
    infinity or NaN instead, so nothing is concluded from this body at a
    price, an ATR or a stop multiple of zero. *)
Definition position_size_body (CONFIG : Config)
    (TRADE_SYMBOLS : gmap string SymbolConfig)
    (symbol : string) (balance : Q) (signal_type : Strategy)
    (atr price : Q) (trade_history : list Trade) : result (option Q) :=
  risk_percent ← (if ParameterOptimizer.nonempty trade_history
                     && (0 <? Z.of_nat (length trade_history))%Z
                  then ParameterOptimizer.optimize_risk CONFIG trade_history
                  else Ok (RISK_PERCENT CONFIG));
  sym ← getitem TRADE_SYMBOLS symbol;
  let base_risk := balance * risk_percent * risk_weight sym in
  ratio ← div atr price;
  let volatility_adj := min (ratio * 100) 5.0 in
  let adjusted_risk := base_risk * (1 - volatility_adj * 0.1) in
  let multiplier := stop_multiplier sym signal_type in
  position_size ← div adjusted_risk (multiplier * atr);
  position_size ← (if endswith symbol "USDT"
                   then div position_size price
                   else Ok position_size);
  max_position ← div (max_position_usd sym) price;
  let position_size := min position_size max_position in
  if Qltb position_size (min_qty sym) then Ok None
  else Ok (Some (round5 position_size)).

Definition calculate_position_size (CONFIG : Config)
    (TRADE_SYMBOLS : gmap string SymbolConfig)
    (symbol : string) (balance : Q) (signal_type : Strategy)
    (atr price : Q) (trade_history : list Trade) : option Q :=
  try_except
    (position_size_body CONFIG TRADE_SYMBOLS symbol balance signal_type
       atr price trade_history)
    (fun _ => None).

End Sizer.

(** ** Signal generator ([generate_signal]) *)

Inductive Regime : Type :=
  TRENDING | OVERSOLD | OVERBOUGHT | RANGING | UNKNOWN.

#[global] Instance Regime_eq_dec : EqDecision Regime.
Proof. solve_decision. Defined.

(** One row of the indicator frame. *)
Record FeatureRow : Type := {
  close : Q;
  momentum : Q;
  rsi : Q;
  atr : Q;
  ema30 : Q;
  ema50 : Q;
  bb_upper : Q;
  bb_middle : Q;
  bb_lower : Q;
  volume_ratio : Q;
  adx : Q;
  market_state : Regime
}.

Record Signal : Type := {
  sg_symbol : string;
  sg_signal : string;
  sg_type : Strategy;
  sg_size : Q;
  sg_price : Q;
  sg_stop_loss : Q;
  sg_take_profit : Q
}.

Module SignalGenerator.
Import Py Sizer.
Local Open Scope Q_scope.

(** [df.iloc[-1]] and [df.iloc[-2]] *)
Definition iloc_last (df : list FeatureRow) : option FeatureRow := last df.
Definition iloc_prev (df : list FeatureRow) : option FeatureRow :=
  last (removelast df).

Definition momentum_signal (current : FeatureRow) : bool :=
  forallb id
    [ Qgtb (momentum current) 0.05;
      Qltb (rsi current) 70;
      Qgtb (close current) (bb_upper current);
      Qgtb (ema30 current) (ema50 current);
      Qgtb (volume_ratio current) 1.2;
      bool_decide (market_state current = TRENDING) ].

Definition swing_signal (current : FeatureRow) : bool :=
  forallb id
    [ Qltb (rsi current) 40;
      Qltb (close current) (bb_lower current);
      Qgtb (ema30 current) (ema50 current);
      Qgtb (volume_ratio current) 1.1 ].

(** Truth value of the sizer's answer: [None] and [0.0] are false. *)
Definition truthy (position_size : option Q) : option Q :=
  match position_size with
  | Some q => if Qeq_bool q 0 then None else Some q
  | None => None
  end.

Definition make_signal (sym : SymbolConfig) (symbol : string)
    (type : Strategy) (position_size : Q) (current : FeatureRow) : Signal :=
  {| sg_symbol := symbol;
     sg_signal := "BUY";
     sg_type := type;
     sg_size := position_size;
     sg_price := close current;
     sg_stop_loss := close current - stop_multiplier sym type * atr current;
     sg_take_profit := close current + profit_multiplier sym type * atr current |}.

(** The body of the [try] block of [generate_signal]. *)
Definition generate_signal_body (CONFIG : Config)
    (TRADE_SYMBOLS : gmap string SymbolConfig)
    (df : list FeatureRow) (symbol : string) (current_balance : Q)
    (trade_history : list Trade) : result (option Signal) :=
  match iloc_last df, iloc_prev df with
  | Some current, Some prev =>
      if Qgtb (atr current)
           (sum (map atr df) / inject_Z (Z.of_nat (length df))
            * VOLATILITY_FACTOR CONFIG)
      then Ok None
      else
        let type := if momentum_signal current then MOMENTUM else SWING in
        match truthy (calculate_position_size CONFIG TRADE_SYMBOLS symbol
                        current_balance type (atr current) (close current)
                        trade_history) with
        | None => Ok None
        | Some position_size =>
            if momentum_signal current then
              sym ← getitem TRADE_SYMBOLS symbol;
              Ok (Some (make_signal sym symbol MOMENTUM position_size current))
            else if swing_signal current then
              sym ← getitem TRADE_SYMBOLS symbol;
              Ok (Some (make_signal sym symbol SWING position_size current))
            else Ok None
        end
  | _, _ => Raise KeyError
  end.

Definition generate_signal (CONFIG : Config)
    (TRADE_SYMBOLS : gmap string SymbolConfig) (sys : SystemStatus)
    (df : option (list FeatureRow)) (symbol : string) (current_balance : Q)
    (trade_history : list Trade) : option Signal :=
  system_guard CONFIG sys
    match df with
    | None => None
    | Some df =>
        if (length df <? 2)%nat then None
        else try_except
               (generate_signal_body CONFIG TRADE_SYMBOLS df symbol
                  current_balance trade_history)
               (fun _ => None)
    end.

End SignalGenerator.

(** ** The entry rules in the words of the specification (section 4.3) *)

Module SignalSpec.
Local Open Scope Q_scope.

Definition momentum_rule (row : FeatureRow) : Prop :=
  0.05 < momentum row /\ rsi row < 70 /\ bb_upper row < close row /\
  ema50 row < ema30 row /\ 1.2 < volume_ratio row /\
  market_state row = TRENDING.

Definition swing_rule (row : FeatureRow) : Prop :=
  rsi row < 40 /\ close row < bb_lower row /\
  ema50 row < ema30 row /\ 1.1 < volume_ratio row.

(** Mean of the ATR column of a frame. *)
Definition mean_atr (df : list FeatureRow) : Q :=
  Py.sum (map atr df) / inject_Z (Z.of_nat (length df)).

(** The excessive-volatility guard lets the frame through. *)
Definition passes_prefilter (CONFIG : Config) (df : list FeatureRow)
    (current : FeatureRow) : Prop :=
  atr current <= mean_atr df * VOLATILITY_FACTOR CONFIG.

(** The system guard lets the call through. *)
Definition guard_open (CONFIG : Config) (sys : SystemStatus) : Prop :=
  memory_percent sys <= MEMORY_LIMIT CONFIG /\ (active_count sys <= 15)%Z.

End SignalSpec.

(** ** The sizing formula in the words of the specification (section 4.4)

    Steps 1 to 5, before the minimum-quantity test and the final rounding;
    [usdt] tells whether the symbol is quoted in USDT. *)

Module SizerSpec.
Local Open Scope Q_scope.

Definition volAdj (atr price : Q) : Q := Qmin (atr / price * 100) 5.

Definition discount (atr price : Q) : Q := 1 - volAdj atr price * 0.1.

Definition quantity (sym : SymbolConfig) (usdt : bool) (risk balance : Q)
    (strategy : Strategy) (atr price : Q) : Q :=
  let effective_risk := risk * risk_weight sym in
  let base := balance * effective_risk in
  let adjusted := base * discount atr price in
  let raw := adjusted / (stop_multiplier sym strategy * atr) in
  let raw := if usdt then raw / price else raw in
  Qmin raw (max_position_usd sym / price).

End SizerSpec.

(** ** Python values and JSON documents

    Dictionaries are insertion-ordered association lists; the keys that
    occur in this program are strings and integers (order identifiers). *)

Inductive PyKey : Type :=
| KInt (z : Z)
| KStr (s : string).

#[global] Instance PyKey_eq_dec : EqDecision PyKey.
Proof. solve_decision. Defined.

#[global] Instance PyKey_countable : Countable PyKey :=
  inj_countable'
    (fun k => match k with KInt z => inl z | KStr s => inr s end)
    (fun x => match x with inl z => KInt z | inr s => KStr s end)
    (fun k => match k with KInt _ => eq_refl | KStr _ => eq_refl end).

#[local] Unset Elimination Schemes.

Inductive PyVal : Type :=
| PNone
| PBool (b : bool)
| PInt (z : Z)
| PFloat (q : Q)
| PStr (s : string)
| PList (l : list PyVal)
| PDict (d : list (PyKey * PyVal)).

Inductive Json : Type :=
| JNull
| JBool (b : bool)
| JInt (z : Z)
| JFloat (q : Q)
| JStr (s : string)
| JArr (l : list Json)
| JObj (d : list (string * Json)).

#[local] Set Elimination Schemes.

Module PyJson.

(** [d.get(k)] on an association list. *)
Fixpoint assoc (k : PyKey) (d : list (PyKey * PyVal)) : option PyVal :=
  match d with
  | [] => None
  | (k', v) :: d => if decide (k = k') then Some v else assoc k d
  end.

(** [d[k] = v]: an existing key keeps its place, a new key goes last. *)
Fixpoint dict_set (k : PyKey) (v : PyVal) (d : list (PyKey * PyVal))
  : list (PyKey * PyVal) :=
  match d with
  | [] => [(k, v)]
  | (k', v') :: d =>
      if decide (k = k') then (k', v) :: d else (k', v') :: dict_set k v d
  end.

(** The object key that [json.dump] writes for a dictionary key. *)
Definition key_str (k : PyKey) : string :=
  match k with
  | KInt z => pretty z
  | KStr s => s
  end.

(** [json.dump]: every dictionary key becomes a string. *)
Fixpoint dump (v : PyVal) : Json :=
  match v with
  | PNone => JNull
  | PBool b => JBool b
  | PInt z => JInt z
  | PFloat q => JFloat q
  | PStr s => JStr s
  | PList l => JArr (map dump l)
  | PDict d => JObj (map (fun kv => (key_str (fst kv), dump (snd kv))) d)
  end.

(** [json.load]: objects become dictionaries with string keys, a repeated
    key keeping its last value. *)
Fixpoint load (j : Json) : PyVal :=
  match j with
  | JNull => PNone
  | JBool b => PBool b
  | JInt z => PInt z
  | JFloat q => PFloat q
  | JStr s => PStr s
  | JArr l => PList (map load l)
  | JObj d =>
      PDict (fold_left (fun acc kv => dict_set (KStr (fst kv)) (load (snd kv)) acc)
                       d [])
  end.

(** Numbers compare by value across [bool], [int] and [float]. *)
Definition number (v : PyVal) : option Q :=
  match v with
  | PBool b => Some (if b then 1 else 0)%Q
  | PInt z => Some (inject_Z z)
  | PFloat q => Some q
  | _ => None
  end.

(** Python's [==]: lists compare elementwise, dictionaries compare as
    finite maps whatever the order of their items. *)
Fixpoint eq (a b : PyVal) : bool :=
  match a, b with
  | PNone, PNone => true
  | PStr s, PStr t => String.eqb s t
  | PList l1, PList l2 =>
      (fix go (l1 l2 : list PyVal) : bool :=
         match l1, l2 with
         | [], [] => true
         | x :: l1, y :: l2 => eq x y && go l1 l2
         | _, _ => false
         end) l1 l2
  | PDict d1, PDict d2 =>
      (length d1 =? length d2)%nat
      && (fix go (d : list (PyKey * PyVal)) : bool :=
            match d with
            | [] => true
            | (k, v) :: d =>
                match assoc k d2 with
                | Some v' => eq v v'
                | None => false
                end && go d
            end) d1
  | _, _ =>
      match number a, number b with
      | Some x, Some y => Qeq_bool x y
      | _, _ => false
      end
  end.

Definition is_str_key (k : PyKey) : bool :=
  match k with KStr _ => true | KInt _ => false end.

(** Values as [json.load] produces them: at every level the keys of a
    dictionary are strings, without repetition. *)
Fixpoint str_keyed (v : PyVal) : bool :=
  match v with
  | PList l => forallb str_keyed l
  | PDict d =>
      forallb (fun kv => is_str_key (fst kv) && str_keyed (snd kv)) d
      && bool_decide (NoDup (map fst d))
  | _ => true
  end.

(** Truth value of a Python object. *)
Definition truthy (v : PyVal) : bool :=
  match v with
  | PNone => false
  | PBool b => b
  | PInt z => negb (z =? 0)%Z
  | PFloat q => negb (Qeq_bool q 0)
  | PStr s => negb (String.eqb s "")
  | PList l => ParameterOptimizer.nonempty l
  | PDict d => ParameterOptimizer.nonempty d
  end.

(** [v[k]] for a dictionary [v]. *)
Definition getitem (v : PyVal) (k : string) : Py.result PyVal :=
  match v with
  | PDict d =>
      match assoc (KStr k) d with
      | Some x => Py.Ok x
      | None => Py.Raise Py.KeyError
      end
  | _ => Py.Raise Py.TypeError
  end.

(** A value usable as a dictionary key. *)
Definition as_key (v : PyVal) : Py.result PyKey :=
  match v with
  | PInt z => Py.Ok (KInt z)
  | PStr s => Py.Ok (KStr s)
  | _ => Py.Raise Py.TypeError
  end.

End PyJson.

(** ** The exchange and the process state

    [EnhancedBinanceClient.safe_request] funnels every call to the exchange.
    The exchange is an oracle: its answer may depend on the calls made so
    far.  A call that fails raises an exception; the numeric fields of an
    answer are given already parsed. *)

Inductive Request : Type :=
| futures_symbol_ticker (symbol : string)
| get_symbol_ticker (symbol : string)
| futures_klines (symbol interval : string) (limit : Z)
| get_klines (symbol interval : string) (limit : Z)
| futures_create_order_MARKET (symbol : string) (quantity : Q)
| order_market_buy (symbol : string) (quantity : Q)
| futures_create_order_STOP_MARKET (symbol : string) (stopPrice : Q)
| futures_create_order_TAKE_PROFIT_MARKET (symbol : string) (stopPrice : Q)
| futures_account_balance
| get_account
| futures_get_order (symbol : string) (orderId : PyKey)
| get_order (symbol : string) (orderId : PyKey)
| futures_cancel_order (symbol : string) (orderId : PyKey)
| cancel_order (symbol : string) (orderId : PyKey)
| futures_position_information
| futures_get_open_orders
| get_open_orders.

(** The requests that place an order on the exchange. *)
Definition places_order (r : Request) : bool :=
  match r with
  | futures_create_order_MARKET _ _ | order_market_buy _ _
  | futures_create_order_STOP_MARKET _ _
  | futures_create_order_TAKE_PROFIT_MARKET _ _ => true
  | _ => false
  end.

(** One entry of the account: ['balance'] (futures) or ['free'] (spot),
    ['locked'], and the entry as received. *)
Record AccountBalance : Type := {
  ab_asset : string;
  ab_amount : Q;
  ab_locked : Q;
  ab_raw : PyVal
}.

Record Position : Type := {
  positionAmt : Q;
  pos_raw : PyVal
}.

(** The answer to an order query; a field that is absent or does not parse
    is [None]. *)
Record OrderStatus : Type := {
  status : option string;
  executedQty : option Q;
  avgPrice : option Q
}.

Record Exchange : Type := {
  ticker_price : list Request -> string -> Py.result Q;
  klines_close : list Request -> string -> Py.result (list Q);
  create_order : list Request -> Request -> Py.result PyVal;
  account_balances : list Request -> Py.result (list AccountBalance);
  query_order : list Request -> string -> PyKey -> Py.result OrderStatus;
  cancel : list Request -> string -> PyKey -> Py.result PyVal;
  position_information : list Request -> Py.result (list Position);
  open_orders_on_exchange : list Request -> Py.result PyVal;
  (** seconds a call takes *)
  latency : list Request -> Request -> Q
}.

(** Messages handed to [send_telegram]. *)
Inductive Notice : Type :=
| ApiError (code : Z)
| MemoryHigh (percent : Q)
| TooManyThreads
| SlippageTooHigh (symbol : string) (slippage : Q)
| MarginInsufficient (required : Q)
| TooManyOrders
| PositionOpened (symbol : string) (type : Strategy) (size price : Q)
| ExecutionFailed (e : Py.exn)
| OrderFilled (symbol : string) (orderId : PyKey)
| OrderCanceled (symbol : string) (orderId : PyKey)
| OrderTimedOut (symbol : string) (orderId : PyKey)
| StateRecovered (trades orders : nat).

(** An entry of [OrderManager.open_orders]. *)
Record ManagedOrder : Type := {
  mo_signal : Signal;
  mo_order : PyVal;
  mo_timestamp : Q
}.

Record State : Type := {
  (** [OrderManager] *)
  open_orders : gmap PyKey ManagedOrder;
  trade_history : list Trade;
  (** [EnhancedBinanceClient] *)
  last_call : Q;
  call_count : Z;
  (** the world: [time.time()], the calls made to the exchange (latest
      first), the messages sent, the monitor threads started and the content
      of [recovery.json] *)
  clock : Q;
  requests : list Request;
  telegrams : list Notice;
  monitor_threads : list (PyKey * Signal);
  recovery_json : option Json
}.

Module IO.
Import Py.
Local Open Scope Q_scope.

(** Computations on the process state that may raise. *)
Definition M (A : Type) : Type := State -> result A * State.

Definition ret {A} (a : A) : M A := fun st => (Ok a, st).
Definition raise {A} (e : exn) : M A := fun st => (Raise e, st).
Definition lift {A} (r : result A) : M A := fun st => (r, st).
Definition bind {A B} (m : M A) (k : A -> M B) : M B :=
  fun st => match m st with
            | (Ok a, st') => k a st'
            | (Raise e, st') => (Raise e, st')
            end.
(** [try: m except Exception as e: h e] *)
Definition try_catch {A} (m : M A) (h : exn -> M A) : M A :=
  fun st => match m st with
            | (Ok a, st') => (Ok a, st')
            | (Raise e, st') => h e st'
            end.
Definition gets {A} (f : State -> A) : M A := fun st => (Ok (f st), st).
Definition modify (f : State -> State) : M unit := fun st => (Ok tt, f st).

Definition set_open_orders (m : gmap PyKey ManagedOrder) (st : State) : State :=
  {| open_orders := m; trade_history := trade_history st;
     last_call := last_call st; call_count := call_count st;
     clock := clock st; requests := requests st; telegrams := telegrams st;
     monitor_threads := monitor_threads st;
     recovery_json := recovery_json st |}.
Definition set_trade_history (h : list Trade) (st : State) : State :=
  {| open_orders := open_orders st; trade_history := h;
     last_call := last_call st; call_count := call_count st;
     clock := clock st; requests := requests st; telegrams := telegrams st;
     monitor_threads := monitor_threads st;
     recovery_json := recovery_json st |}.
Definition set_client (lc : Q) (cc : Z) (st : State) : State :=
  {| open_orders := open_orders st; trade_history := trade_history st;
     last_call := lc; call_count := cc;
     clock := clock st; requests := requests st; telegrams := telegrams st;
     monitor_threads := monitor_threads st;
     recovery_json := recovery_json st |}.
Definition set_clock (t : Q) (st : State) : State :=
  {| open_orders := open_orders st; trade_history := trade_history st;
     last_call := last_call st; call_count := call_count st;
     clock := t; requests := requests st; telegrams := telegrams st;
     monitor_threads := monitor_threads st;
     recovery_json := recovery_json st |}.
Definition set_requests (l : list Request) (st : State) : State :=
  {| open_orders := open_orders st; trade_history := trade_history st;
     last_call := last_call st; call_count := call_count st;
     clock := clock st; requests := l; telegrams := telegrams st;
     monitor_threads := monitor_threads st;
     recovery_json := recovery_json st |}.
Definition set_telegrams (l : list Notice) (st : State) : State :=
  {| open_orders := open_orders st; trade_history := trade_history st;
     last_call := last_call st; call_count := call_count st;
     clock := clock st; requests := requests st; telegrams := l;
     monitor_threads := monitor_threads st;
     recovery_json := recovery_json st |}.
Definition set_monitor_threads (l : list (PyKey * Signal)) (st : State) : State :=
  {| open_orders := open_orders st; trade_history := trade_history st;
     last_call := last_call st; call_count := call_count st;
     clock := clock st; requests := requests st; telegrams := telegrams st;
     monitor_threads := l;
     recovery_json := recovery_json st |}.
Definition set_recovery_json (f : option Json) (st : State) : State :=
  {| open_orders := open_orders st; trade_history := trade_history st;
     last_call := last_call st; call_count := call_count st;
     clock := clock st; requests := requests st; telegrams := telegrams st;
     monitor_threads := monitor_threads st;
     recovery_json := f |}.

(** [time.time()] and [time.sleep(d)] *)
Definition time : M Q := gets clock.
Definition sleep (d : Q) : M unit :=
  modify (fun st => set_clock (clock st + d) st).

(** [send_telegram]: best effort, never raises.  The time the post takes
    is not counted. *)
Definition send_telegram (n : Notice) : M unit :=
  modify (fun st => set_telegrams (n :: telegrams st) st).

End IO.

#[global] Instance M_bind : MBind IO.M := fun A B k m => IO.bind m k.
#[global] Instance M_ret : MRet IO.M := @IO.ret.

(** ** EnhancedBinanceClient and the price helpers *)

Module Client.
Import Py IO.
Local Open Scope Q_scope.

(** [safe_request]: waits until 0.1 s have passed since the last
    successful call, performs the call, and on a [BinanceAPIException]
    notifies the operator before raising again. *)
Definition safe_request {A} (X : Exchange) (req : Request)
    (answer : list Request -> result A) : M A :=
  elapsed ← gets (fun st => clock st - last_call st);
  (if Qltb elapsed 0.1 then sleep (0.1 - elapsed) else ret tt);;
  past ← gets requests;
  modify (fun st => set_requests (req :: past) st);;
  sleep (latency X past req);;
  match answer past with
  | Ok a =>
      modify (fun st => set_client (clock st) (call_count st + 1) st);;
      ret a
  | Raise (BinanceAPIException code) =>
      send_telegram (ApiError code);;
      raise (BinanceAPIException code)
  | Raise e => raise e
  end.

(** The decorator [system_guard] around a call with effects. *)
Definition system_guard_io {A} (CONFIG : Config) (sys : SystemStatus)
    (func : M (option A)) : M (option A) :=
  if Qgtb (memory_percent sys) (MEMORY_LIMIT CONFIG) then
    send_telegram (MemoryHigh (memory_percent sys));; ret None
  else if (15 <? active_count sys)%Z then
    send_telegram TooManyThreads;; ret None
  else func.

(** [fetch_klines], reduced to the column of closing prices. *)
Definition fetch_klines (X : Exchange) (CONFIG : Config) (sys : SystemStatus)
    (symbol interval : string) (limit : Z) : M (option (list Q)) :=
  system_guard_io CONFIG sys
    (try_catch
       (klines ← (match TRADING_TYPE CONFIG with
                  | Futures =>
                      safe_request X (futures_klines symbol interval limit)
                        (fun past => klines_close X past symbol)
                  | Spot =>
                      safe_request X (get_klines symbol interval limit)
                        (fun past => klines_close X past symbol)
                  end);
        if Qltb (inject_Z (Z.of_nat (length klines))) (inject_Z limit * 0.9)
        then ret None
        else ret (Some klines))
       (fun _ => ret None)).

(** The loop [for i in range(retries)] of [get_current_price], with
    [remaining] iterations to go. *)
Fixpoint get_current_price_loop (X : Exchange) (CONFIG : Config)
    (sys : SystemStatus) (symbol : string) (retries i : Z)
    (remaining : nat) : M (option Q) :=
  match remaining with
  | O => ret None
  | S remaining =>
      attempt ←
        try_catch
          (price ← (match TRADING_TYPE CONFIG with
                    | Futures =>
                        safe_request X (futures_symbol_ticker symbol)
                          (fun past => ticker_price X past symbol)
                    | Spot =>
                        safe_request X (get_symbol_ticker symbol)
                          (fun past => ticker_price X past symbol)
                    end);
           ret (Some price))
          (fun _ =>
             if (i =? retries - 1)%Z then
               try_catch
                 (df ← fetch_klines X CONFIG sys symbol "1m" 1;
                  match df with
                  | Some closes => ret (last closes)
                  | None => ret None
                  end)
                 (fun _ => ret None)
             else ret None);
      match attempt with
      | Some price => ret (Some price)
      | None =>
          sleep 0.5;;
          get_current_price_loop X CONFIG sys symbol retries (i + 1) remaining
      end
  end.

Definition get_current_price (X : Exchange) (CONFIG : Config)
    (sys : SystemStatus) (symbol : string) : M (option Q) :=
  get_current_price_loop X CONFIG sys symbol 3 0 3.

End Client.

(** ** OrderManager *)

(** How [_monitor_order] ends: at one of its three [return] statements. *)
Inductive Outcome : Type := FILLED | CANCELED | TIMED_OUT.

Module OrderManager.
Import Py IO Client.
Local Open Scope Q_scope.

(** The value returned by [_monitor_order] at each exit. *)
Definition returned (o : Outcome) : bool :=
  match o with
  | FILLED => true
  | CANCELED | TIMED_OUT => false
  end.

(** [round(x, 2)] *)
Definition round2 (x : Q) : Q := round_at 100 x.

Definition _get_account_balance (X : Exchange) (CONFIG : Config) : M Q :=
  found ←
    try_catch
      (balances ← (match TRADING_TYPE CONFIG with
                   | Futures =>
                       safe_request X futures_account_balance
                         (account_balances X)
                   | Spot =>
                       safe_request X get_account (account_balances X)
                   end);
       ret (ab_amount <$>
              List.find (fun b => String.eqb (ab_asset b) "USDT") balances))
      (fun _ => ret None);
  match found with
  | Some balance => ret balance
  | None => ret (INITIAL_BALANCE CONFIG)
  end.

Definition _pre_execution_check (X : Exchange) (CONFIG : Config)
    (sys : SystemStatus) (signal : Signal) : M bool :=
  current_price ← get_current_price X CONFIG sys (sg_symbol signal);
  match SignalGenerator.truthy current_price with
  | None => ret false
  | Some current_price =>
      slippage ← lift (div (Qabs (current_price - sg_price signal))
                           (sg_price signal));
      if Qgtb slippage (MAX_SLIPPAGE CONFIG) then
        send_telegram (SlippageTooHigh (sg_symbol signal) slippage);;
        ret false
      else
        account_balance ← _get_account_balance X CONFIG;
        required_margin ← lift (div (sg_size signal * current_price)
                                    (LEVERAGE CONFIG));
        if Qgtb required_margin (account_balance * 0.8) then
          send_telegram (MarginInsufficient required_margin);;
          ret false
        else
          count ← gets (fun st => Z.of_nat (size (open_orders st)));
          if (MAX_OPEN_ORDERS CONFIG <=? count)%Z then
            send_telegram TooManyOrders;;
            ret false
          else ret true
  end.

Definition _place_main_order (X : Exchange) (CONFIG : Config)
    (signal : Signal) : M (option PyVal) :=
  try_catch
    (order ← (match TRADING_TYPE CONFIG with
              | Futures =>
                  let req := futures_create_order_MARKET
                               (sg_symbol signal) (sg_size signal) in
                  safe_request X req (fun past => create_order X past req)
              | Spot =>
                  let req := order_market_buy
                               (sg_symbol signal) (sg_size signal) in
                  safe_request X req (fun past => create_order X past req)
              end);
     send_telegram (PositionOpened (sg_symbol signal) (sg_type signal)
                      (sg_size signal) (sg_price signal));;
     ret (Some order))
    (fun _ => ret None).

Definition _place_risk_orders (X : Exchange) (signal : Signal)
    (main_order : PyVal) : M unit :=
  try_catch
    (let stop := futures_create_order_STOP_MARKET (sg_symbol signal)
                   (round2 (sg_stop_loss signal)) in
     safe_request X stop (fun past => create_order X past stop);;
     let take := futures_create_order_TAKE_PROFIT_MARKET (sg_symbol signal)
                   (round2 (sg_take_profit signal)) in
     safe_request X take (fun past => create_order X past take);;
     ret tt)
    (fun _ => ret tt).

(** The [try] block of [execute_order], entered once the pre-execution
    check has passed. *)
Definition submit (X : Exchange) (CONFIG : Config) (signal : Signal)
  : M bool :=
  try_catch
    (main_order ← _place_main_order X CONFIG signal;
     match main_order with
     | None => ret false
     | Some main_order =>
         if negb (PyJson.truthy main_order) then ret false
         else
           _place_risk_orders X signal main_order;;
           order_id ← lift (PyJson.getitem main_order "orderId"
                              ≫= PyJson.as_key);
           now ← time;
           modify (fun st =>
             set_open_orders
               (<[order_id := {| mo_signal := signal;
                                 mo_order := main_order;
                                 mo_timestamp := now |}]> (open_orders st))
               st);;
           modify (fun st =>
             set_monitor_threads ((order_id, signal) :: monitor_threads st) st);;
           ret true
     end)
    (fun e => send_telegram (ExecutionFailed e);; ret false).

(** The body of [with self.position_lock:]. *)
Definition execute_order_locked (X : Exchange) (CONFIG : Config)
    (sys : SystemStatus) (signal : Signal) : M bool :=
  ok ← _pre_execution_check X CONFIG sys signal;
  if negb ok then ret false
  else submit X CONFIG signal.

Definition execute_order (X : Exchange) (CONFIG : Config)
    (sys : SystemStatus) (signal : Signal) : M (option bool) :=
  system_guard_io CONFIG sys
    (r ← execute_order_locked X CONFIG sys signal; ret (Some r)).

(** One round of the [while] loop of [_monitor_order]: [Some o] when the
    round ends in a [return], [None] when the loop goes on. *)
Definition monitor_round (X : Exchange) (CONFIG : Config)
    (order_id : PyKey) (signal : Signal) : M (option Outcome) :=
  let symbol := sg_symbol signal in
  try_catch
    (order_status ← (match TRADING_TYPE CONFIG with
                     | Futures =>
                         safe_request X (futures_get_order symbol order_id)
                           (fun past => query_order X past symbol order_id)
                     | Spot =>
                         safe_request X (get_order symbol order_id)
                           (fun past => query_order X past symbol order_id)
                     end);
     status ← lift (from_option Ok (Raise KeyError) (status order_status));
     if String.eqb status "FILLED" then
       qty ← lift (from_option Ok (Raise KeyError) (executedQty order_status));
       price ← lift (from_option Ok (Raise KeyError) (avgPrice order_status));
       now ← time;
       modify (fun st =>
         set_trade_history
           (trade_history st ++
              [ {| tr_symbol := symbol; tr_side := "BUY"; tr_size := qty;
                   tr_price := price; tr_timestamp := now;
                   tr_signal_type := sg_type signal; tr_pnl := None |} ])
           st);;
       modify (fun st => set_open_orders (delete order_id (open_orders st)) st);;
       send_telegram (OrderFilled symbol order_id);;
       ret (Some FILLED)
     else if String.eqb status "CANCELED" then
       modify (fun st => set_open_orders (delete order_id (open_orders st)) st);;
       send_telegram (OrderCanceled symbol order_id);;
       ret (Some CANCELED)
     else
       sleep 5;; ret None)
    (fun _ => sleep 5;; ret None).

(** The code after the loop: cancel, forget the order, report failure. *)
Definition monitor_timeout (X : Exchange) (CONFIG : Config)
    (order_id : PyKey) (signal : Signal) : M Outcome :=
  let symbol := sg_symbol signal in
  try_catch
    (match TRADING_TYPE CONFIG with
     | Futures =>
         safe_request X (futures_cancel_order symbol order_id)
           (fun past => cancel X past symbol order_id)
     | Spot =>
         safe_request X (cancel_order symbol order_id)
           (fun past => cancel X past symbol order_id)
     end;;
     send_telegram (OrderTimedOut symbol order_id))
    (fun _ => ret tt);;
  modify (fun st => set_open_orders (delete order_id (open_orders st)) st);;
  ret TIMED_OUT.

(** [while time.time() - start_time < 120: ...], at most [fuel] tests of
    the loop condition; [None] when the fuel runs out. *)
Fixpoint monitor_loop (fuel : nat) (X : Exchange) (CONFIG : Config)
    (order_id : PyKey) (signal : Signal) (start_time : Q)
  : M (option Outcome) :=
  match fuel with
  | O => ret None
  | S fuel =>
      now ← time;
      if Qltb (now - start_time) 120 then
        r ← monitor_round X CONFIG order_id signal;
        match r with
        | Some o => ret (Some o)
        | None => monitor_loop fuel X CONFIG order_id signal start_time
        end
      else
        o ← monitor_timeout X CONFIG order_id signal;
        ret (Some o)
  end.

Definition _monitor_order (fuel : nat) (X : Exchange) (CONFIG : Config)
    (order_id : PyKey) (signal : Signal) : M (option Outcome) :=
  start_time ← time;
  monitor_loop fuel X CONFIG order_id signal start_time.

End OrderManager.

(** ** Concurrent callers of [execute_order]

    Threads that call [execute_order] on one [OrderManager], interleaved
    with the monitor threads.  The lock operations of
    [with self.position_lock:] are steps of their own; the code between
    them runs in the two pieces [_pre_execution_check] and the [try] block,
    each taken as one step on the shared state; a monitor thread runs one
    round of its loop, or its time-out code, per step and takes no lock. *)

Module Concurrency.
Import Py IO Client OrderManager.

(** Where a caller stands. *)
Inductive Pc : Type :=
| Called                       (** in the guard wrapper *)
| Waiting                      (** at [with self.position_lock], not in yet *)
| Checking                     (** lock held, [_pre_execution_check] next *)
| Submitting                   (** lock held, the [try] block next *)
| Leaving (r : result bool)    (** lock held, leaving the [with] block *)
| Returned (r : result (option bool)).

(** Between validation and the record in the mapping, i.e. inside the
    [with] block. *)
Definition in_progress (pc : Pc) : Prop :=
  match pc with
  | Checking | Submitting | Leaving _ => True
  | Called | Waiting | Returned _ => False
  end.

Record Thread : Type := {
  th_signal : Signal;
  th_sys : SystemStatus;
  th_pc : Pc
}.

Definition at_pc (t : Thread) (pc : Pc) : Thread :=
  {| th_signal := th_signal t; th_sys := th_sys t; th_pc := pc |}.

Record System : Type := {
  (** [position_lock]: the thread that holds it *)
  lock : option nat;
  shared : State;
  threads : list Thread
}.

Definition after_check (r : result bool) : Pc :=
  match r with
  | Ok true => Submitting
  | Ok false => Leaving (Ok false)
  | Raise e => Leaving (Raise e)
  end.

Definition after_exit (r : result bool) : result (option bool) :=
  match r with
  | Ok b => Ok (Some b)
  | Raise e => Raise e
  end.

Inductive step (X : Exchange) (CONFIG : Config) : System -> System -> Prop :=
| step_call (s : System) (signal : Signal) (sys : SystemStatus) :
    step X CONFIG s
      {| lock := lock s; shared := shared s;
         threads := threads s ++ [ {| th_signal := signal; th_sys := sys;
                                      th_pc := Called |} ] |}
| step_guard (s : System) (i : nat) (t : Thread) (r : result (option unit))
    (st' : State) :
    threads s !! i = Some t ->
    th_pc t = Called ->
    system_guard_io CONFIG (th_sys t) (ret (Some tt)) (shared s) = (r, st') ->
    step X CONFIG s
      {| lock := lock s; shared := st';
         threads := <[i := at_pc t (match r with
                                    | Ok (Some _) => Waiting
                                    | Ok None => Returned (Ok None)
                                    | Raise e => Returned (Raise e)
                                    end)]> (threads s) |}
| step_acquire (s : System) (i : nat) (t : Thread) :
    threads s !! i = Some t ->
    th_pc t = Waiting ->
    lock s = None ->
    step X CONFIG s
      {| lock := Some i; shared := shared s;
         threads := <[i := at_pc t Checking]> (threads s) |}
| step_check (s : System) (i : nat) (t : Thread) (r : result bool)
    (st' : State) :
    threads s !! i = Some t ->
    th_pc t = Checking ->
    _pre_execution_check X CONFIG (th_sys t) (th_signal t) (shared s)
      = (r, st') ->
    step X CONFIG s
      {| lock := lock s; shared := st';
         threads := <[i := at_pc t (after_check r)]> (threads s) |}
| step_submit (s : System) (i : nat) (t : Thread) (r : result bool)
    (st' : State) :
    threads s !! i = Some t ->
    th_pc t = Submitting ->
    submit X CONFIG (th_signal t) (shared s) = (r, st') ->
    step X CONFIG s
      {| lock := lock s; shared := st';
         threads := <[i := at_pc t (Leaving r)]> (threads s) |}
| step_release (s : System) (i : nat) (t : Thread) (r : result bool) :
    threads s !! i = Some t ->
    th_pc t = Leaving r ->
    step X CONFIG s
      {| lock := None; shared := shared s;
         threads := <[i := at_pc t (Returned (after_exit r))]> (threads s) |}
| step_monitor_round (s : System) (order_id : PyKey) (signal : Signal) :
    (order_id, signal) ∈ monitor_threads (shared s) ->
    step X CONFIG s
      {| lock := lock s;
         shared := snd (monitor_round X CONFIG order_id signal (shared s));
         threads := threads s |}
| step_monitor_timeout (s : System) (order_id : PyKey) (signal : Signal) :
    (order_id, signal) ∈ monitor_threads (shared s) ->
    step X CONFIG s
      {| lock := lock s;
         shared := snd (monitor_timeout X CONFIG order_id signal (shared s));
         threads := threads s |}.

(** The lock is free and every caller is still in the guard wrapper. *)
Definition initial (s : System) : Prop :=
  lock s = None /\ Forall (fun t => th_pc t = Called) (threads s).

(** The lock is held by the thread in progress, and by nobody else. *)
Definition lock_invariant (s : System) : Prop :=
  (forall i t, threads s !! i = Some t ->
               (in_progress (th_pc t) <-> lock s = Some i)) /\
  (forall i, lock s = Some i -> is_Some (threads s !! i)).

End Concurrency.

(** ** Recovery store ([save_recovery_state], [load_recovery_state]) *)

Module Recovery.
Import Py IO Client.
Local Open Scope Q_scope.

Definition strategy_name (s : Strategy) : string :=
  match s with MOMENTUM => "MOMENTUM" | SWING => "SWING" end.

(** The dictionaries of the program as Python values. *)
Definition signal_to_py (s : Signal) : PyVal :=
  PDict [ (KStr "symbol", PStr (sg_symbol s));
          (KStr "signal", PStr (sg_signal s));
          (KStr "type", PStr (strategy_name (sg_type s)));
          (KStr "size", PFloat (sg_size s));
          (KStr "price", PFloat (sg_price s));
          (KStr "stop_loss", PFloat (sg_stop_loss s));
          (KStr "take_profit", PFloat (sg_take_profit s)) ].

Definition trade_to_py (t : Trade) : PyVal :=
  PDict ([ (KStr "symbol", PStr (tr_symbol t));
           (KStr "side", PStr (tr_side t));
           (KStr "size", PFloat (tr_size t));
           (KStr "price", PFloat (tr_price t));
           (KStr "timestamp", PFloat (tr_timestamp t));
           (KStr "signal_type", PStr (strategy_name (tr_signal_type t))) ]
         ++ match tr_pnl t with
            | Some p => [ (KStr "pnl", PFloat p) ]
            | None => []
            end).

Definition managed_to_py (m : ManagedOrder) : PyVal :=
  PDict [ (KStr "signal", signal_to_py (mo_signal m));
          (KStr "order", mo_order m);
          (KStr "timestamp", PFloat (mo_timestamp m)) ].

Definition open_orders_to_py (m : gmap PyKey ManagedOrder) : PyVal :=
  PDict (map (fun kv => (fst kv, managed_to_py (snd kv))) (map_to_list m)).

Definition trading_type_name (t : TradingType) : string :=
  match t with Spot => "spot" | Futures => "futures" end.

Definition config_to_py (CONFIG : Config) : PyVal :=
  PDict [ (KStr "API_KEY", PStr (API_KEY CONFIG));
          (KStr "API_SECRET", PStr (API_SECRET CONFIG));
          (KStr "TRADING_TYPE", PStr (trading_type_name (TRADING_TYPE CONFIG)));
          (KStr "INITIAL_BALANCE", PFloat (INITIAL_BALANCE CONFIG));
          (KStr "LEVERAGE", PFloat (LEVERAGE CONFIG));
          (KStr "RISK_PERCENT", PFloat (RISK_PERCENT CONFIG));
          (KStr "MAX_SLIPPAGE", PFloat (MAX_SLIPPAGE CONFIG));
          (KStr "MAX_OPEN_ORDERS", PInt (MAX_OPEN_ORDERS CONFIG));
          (KStr "MEMORY_LIMIT", PFloat (MEMORY_LIMIT CONFIG));
          (KStr "VOLATILITY_FACTOR", PFloat (VOLATILITY_FACTOR CONFIG));
          (KStr "PERFORMANCE_WINDOW", PInt (PERFORMANCE_WINDOW CONFIG)) ].

(** The dictionary [recovery_data]. *)
Definition recovery_data (CONFIG : Config) (active_positions : list PyVal)
    (active_orders : PyVal) (st : State) (now : Q) : PyVal :=
  PDict [ (KStr "positions", PList active_positions);
          (KStr "orders", active_orders);
          (KStr "open_orders", open_orders_to_py (open_orders st));
          (KStr "trade_history",
             PList (map trade_to_py (slice_from (-50) (trade_history st))));
          (KStr "timestamp", PFloat now);
          (KStr "config", config_to_py CONFIG);
          (KStr "trading_type",
             PStr (trading_type_name (TRADING_TYPE CONFIG))) ].

(** The file is written in one step, by a manager that no other thread
    touches meanwhile: a dump that an exception cuts short, leaving a
    partial file, is outside this model. *)
Definition save_recovery_state (X : Exchange) (CONFIG : Config) : M unit :=
  try_catch
    (exchange_side ←
       (match TRADING_TYPE CONFIG with
        | Futures =>
            positions ← safe_request X futures_position_information
                          (position_information X);
            let active_positions :=
              map pos_raw
                (List.filter (fun pos => negb (Qeq_bool (positionAmt pos) 0))
                   positions) in
            active_orders ← safe_request X futures_get_open_orders
                              (open_orders_on_exchange X);
            ret (active_positions, active_orders)
        | Spot =>
            balances ← safe_request X get_account (account_balances X);
            let active_positions :=
              map ab_raw
                (List.filter (fun b => Qgtb (ab_amount b) 0
                                       || Qgtb (ab_locked b) 0) balances) in
            active_orders ← safe_request X get_open_orders
                              (open_orders_on_exchange X);
            ret (active_positions, active_orders)
        end);
     now ← time;
     modify (fun st =>
       set_recovery_json
         (Some (PyJson.dump
                  (recovery_data CONFIG (fst exchange_side)
                     (snd exchange_side) st now)))
         st))
    (fun _ => ret tt).

Definition load_recovery_state : M (option PyVal) :=
  try_catch
    (file ← gets recovery_json;
     match file with
     | None => ret None
     | Some document =>
         let state := PyJson.load document in
         now ← time;
         timestamp ← lift (stamp ← PyJson.getitem state "timestamp";
                           from_option Ok (Raise TypeError)
                             (PyJson.number stamp));
         if Qgtb (now - timestamp) 3600 then ret None
         else ret (Some state)
     end)
    (fun _ => ret None).

End Recovery.

(** ** Indicator engine: RSI and ADX on pandas series

    A pandas float series is a list of values that are a number, an
    infinity or NaN.  Arithmetic on series is elementwise and follows the
    IEEE rules for the special values (rounding and the sign of zero are
    left out): it never raises, a division by zero gives an infinity, or NaN
    for 0/0. *)

Module Series.
Local Open Scope Q_scope.

Inductive F : Type :=
| Num (q : Q)
| Inf (negative : bool)
| NaN.

Definition isna (x : F) : bool :=
  match x with NaN => true | _ => false end.

Definition neg (x : F) : F :=
  match x with
  | Num q => Num (- q)
  | Inf s => Inf (negb s)
  | NaN => NaN
  end.

Definition abs (x : F) : F :=
  match x with
  | Num q => Num (Qabs q)
  | Inf _ => Inf false
  | NaN => NaN
  end.

Definition add (x y : F) : F :=
  match x, y with
  | Num a, Num b => Num (a + b)
  | Num _, Inf s | Inf s, Num _ => Inf s
  | Inf s, Inf s' => if Bool.eqb s s' then Inf s else NaN
  | _, _ => NaN
  end.

Definition sub (x y : F) : F := add x (neg y).

(** The infinity of sign [s], with the sign flipped when [q] is
    negative; NaN when [q] is zero and [zero_nan] is set. *)
Definition signed_inf (zero_nan : bool) (q : Q) (s : bool) : F :=
  if Qeq_bool q 0 then (if zero_nan then NaN else Inf s)
  else if Py.Qltb q 0 then Inf (negb s) else Inf s.

Definition mul (x y : F) : F :=
  match x, y with
  | Num a, Num b => Num (a * b)
  | Num a, Inf s | Inf s, Num a => signed_inf true a s
  | Inf s, Inf s' => Inf (xorb s s')
  | _, _ => NaN
  end.

Definition div (x y : F) : F :=
  match x, y with
  | Num a, Num b =>
      if Qeq_bool b 0 then signed_inf true a false else Num (a / b)
  | Num _, Inf _ => Num 0
  | Inf s, Num b => signed_inf false b s
  | _, _ => NaN
  end.

(** [x > y] and [x < y]: false as soon as one side is NaN. *)
Definition gt (x y : F) : bool :=
  match x, y with
  | Num a, Num b => Py.Qltb b a
  | Num _, Inf s => s
  | Inf s, Num _ => negb s
  | Inf s, Inf s' => negb s && s'
  | _, _ => false
  end.
Definition lt (x y : F) : bool := gt y x.

Definition ne (x y : F) : bool :=
  match x, y with
  | Num a, Num b => negb (Qeq_bool a b)
  | Inf s, Inf s' => negb (Bool.eqb s s')
  | _, _ => true
  end.

(** Maximum of two values that skips NaN, as [max(axis=1)] does. *)
Definition max_skipna (x y : F) : F :=
  match x, y with
  | NaN, _ => y
  | _, NaN => x
  | _, _ => if gt y x then y else x
  end.

(** [s.shift()]: one place down, NaN first. *)
Definition shift (s : list F) : list F :=
  match s with
  | [] => []
  | _ => NaN :: removelast s
  end.

(** [s.diff()] *)
Definition diff (s : list F) : list F := zip_with sub s (shift s).

(** [s.where(cond, other)] *)
Definition where_ (s : list F) (cond : list bool) (other : F) : list F :=
  zip_with (fun x (c : bool) => if c then x else other) s cond.

(** [s.ewm(alpha=alpha, adjust=False).mean()], as pandas computes it:
    [weighted] is the running mean and [old_wt] the weight it carries; a
    NaN input repeats the running mean and lets its weight decay. *)
Fixpoint ewm_from (alpha : Q) (weighted : F) (old_wt : Q) (s : list F)
  : list F :=
  match s with
  | [] => []
  | cur :: s =>
      if isna weighted then
        if isna cur then weighted :: ewm_from alpha weighted old_wt s
        else cur :: ewm_from alpha cur old_wt s
      else
        let old_wt := old_wt * (1 - alpha) in
        if isna cur then weighted :: ewm_from alpha weighted old_wt s
        else
          let weighted :=
            if ne weighted cur
            then div (add (mul (Num old_wt) weighted) (mul (Num alpha) cur))
                     (Num (old_wt + alpha))
            else weighted in
          weighted :: ewm_from alpha weighted 1 s
  end.

Definition ewm_mean (alpha : Q) (s : list F) : list F :=
  match s with
  | [] => []
  | x :: s => x :: ewm_from alpha x 1 s
  end.

End Series.

Module Indicators.
Import Series.
Local Open Scope Q_scope.

Definition gains (close : list F) : list F :=
  let delta := diff close in
  where_ delta (map (fun d => gt d (Num 0)) delta) (Num 0).

Definition losses (close : list F) : list F :=
  let delta := diff close in
  where_ (map neg delta) (map (fun d => lt d (Num 0)) delta) (Num 0).

Definition avg_gains (close : list F) (period : positive) : list F :=
  ewm_mean (1 # period) (gains close).

Definition avg_losses (close : list F) (period : positive) : list F :=
  ewm_mean (1 # period) (losses close).

(** The last two lines of [calculate_rsi_accurate], at one index. *)
Definition rsi_of (avg_gain avg_loss : F) : F :=
  let rs := div avg_gain avg_loss in
  sub (Num 100) (div (Num 100) (add (Num 1) rs)).

Definition calculate_rsi_accurate (close : list F) (period : positive)
  : list F :=
  zip_with rsi_of (avg_gains close period) (avg_losses close period).

Definition true_range (high low close : list F) : list F :=
  let tr1 := zip_with sub high low in
  let tr2 := map abs (zip_with sub high (shift close)) in
  let tr3 := map abs (zip_with sub low (shift close)) in
  zip_with max_skipna (zip_with max_skipna tr1 tr2) tr3.

(** The directional movements, after both [where] filters; the second
    filter reads the result of the first. *)
Definition dm_plus (high low : list F) : list F :=
  let plus := diff high in
  let minus := map (fun x => mul x (Num (-1))) (diff low) in
  where_ plus (zip_with (fun p m => gt p m && gt p (Num 0)) plus minus) (Num 0).

Definition dm_minus (high low : list F) : list F :=
  let plus := dm_plus high low in
  let minus := map (fun x => mul x (Num (-1))) (diff low) in
  where_ minus (zip_with (fun m p => gt m p && gt m (Num 0)) minus plus) (Num 0).

Definition di (dm_smooth atr_smooth : list F) : list F :=
  zip_with (fun d a => mul (Num 100) (div d a)) dm_smooth atr_smooth.

Definition di_plus (high low close : list F) (period : positive) : list F :=
  di (ewm_mean (1 # period) (dm_plus high low))
     (ewm_mean (1 # period) (true_range high low close)).

Definition di_minus (high low close : list F) (period : positive) : list F :=
  di (ewm_mean (1 # period) (dm_minus high low))
     (ewm_mean (1 # period) (true_range high low close)).

(** The line that computes DX, at one index. *)
Definition dx_of (di_plus di_minus : F) : F :=
  div (mul (Num 100) (abs (sub di_plus di_minus))) (add di_plus di_minus).

Definition dx (high low close : list F) (period : positive) : list F :=
  zip_with dx_of (di_plus high low close period)
                 (di_minus high low close period).

Definition calculate_adx_accurate (high low close : list F)
    (period : positive) : list F :=
  ewm_mean (1 # period) (dx high low close period).

(** [detect_market_regime] on the values of one row. *)
Definition detect_market_regime (adx close bb_lower bb_upper : F) : Regime :=
  let bb_position := div (sub close bb_lower) (sub bb_upper bb_lower) in
  if isna adx then UNKNOWN
  else if gt adx (Num 25) then TRENDING
  else if lt bb_position (Num 0.3) then OVERSOLD
  else if gt bb_position (Num 0.7) then OVERBOUGHT
  else RANGING.

End Indicators.

(** ** Moving averages: EMA and ATR *)

Module MovingAverages.
Import Series Indicators.
Local Open Scope Q_scope.

(** [alpha = 2.0 / (period + 1)] *)
Definition calculate_ema_accurate (close : list F) (period : positive)
  : list F :=
  ewm_mean (2 # (period + 1)) close.

Definition calculate_atr_accurate (high low close : list F)
    (period : positive) : list F :=
  ewm_mean (1 # period) (true_range high low close).

(** A value of a series that is a number with the property [P]. *)
Definition number_in (P : Q -> Prop) (x : F) : Prop :=
  exists q, x = Num q /\ P q.

(** A number, or NaN. *)
Definition number_or_nan (x : F) : Prop :=
  x = NaN \/ exists q, x = Num q.

(** The three columns of a frame of candles, each a
    (high, low, close) triple of numbers. *)
Definition highs (bars : list (Q * Q * Q)) : list F :=
  map (fun bar => Num (fst (fst bar))) bars.
Definition lows (bars : list (Q * Q * Q)) : list F :=
  map (fun bar => Num (snd (fst bar))) bars.
Definition closes (bars : list (Q * Q * Q)) : list F :=
  map (fun bar => Num (snd bar)) bars.

End MovingAverages.

(** ** Relations between the state before and after a computation *)

(** [keeps R m]: whatever [m] returns or raises, the state it leaves is
    [R]-related to the state it started from. *)
Definition keeps (R : State -> State -> Prop) {A} (m : IO.M A) : Prop :=
  forall st, R st (snd (m st)).

(** Between two states nothing happened to the managed orders, the trade
    history or the monitor threads, and no order went to the exchange. *)
Definition quiet (st st' : State) : Prop :=
  open_orders st' = open_orders st /\
  trade_history st' = trade_history st /\
  monitor_threads st' = monitor_threads st /\
  exists new, requests st' = new ++ requests st /\
              Forall (fun r => places_order r = false) new.

(** Between two states the manager's books are the same and the clock has
    not gone back. *)
Definition steady (st st' : State) : Prop :=
  open_orders st' = open_orders st /\
  trade_history st' = trade_history st /\
  (clock st <= clock st')%Q.

(** No call to the exchange takes a negative time. *)
Definition nonneg_latency (X : Exchange) : Prop :=
  forall past req, (0 <= latency X past req)%Q.

(** What each terminal outcome of the monitoring leaves behind, from the
    state [st] at the start to the state [st'] at the end: the order is out
    of the mapping in every case; a fill appends one trade record; a
    time-out sends a cancel request last. *)
Definition ended (order_id : PyKey) (signal : Signal) (st st' : State)
    (o : Outcome) : Prop :=
  open_orders st' = delete order_id (open_orders st) /\
  match o with
  | FILLED =>
      exists trade,
        trade_history st' = trade_history st ++ [trade] /\
        tr_symbol trade = sg_symbol signal /\
        tr_signal_type trade = sg_type signal
  | CANCELED => trade_history st' = trade_history st
  | TIMED_OUT =>
      trade_history st' = trade_history st /\
      exists req rest,
        requests st' = req :: rest /\
        (req = futures_cancel_order (sg_symbol signal) order_id \/
         req = cancel_order (sg_symbol signal) order_id)
  end.

(** ** The requests of an execution, by name *)

Module OrderRequests.

(** The market order [_place_main_order] sends for a signal. *)
Definition main_request (CONFIG : Config) (signal : Signal) : Request :=
  match TRADING_TYPE CONFIG with
  | Futures => futures_create_order_MARKET (sg_symbol signal) (sg_size signal)
  | Spot => order_market_buy (sg_symbol signal) (sg_size signal)
  end.

(** The two orders [_place_risk_orders] sends, in this order. *)
Definition stop_request (signal : Signal) : Request :=
  futures_create_order_STOP_MARKET (sg_symbol signal)
    (OrderManager.round2 (sg_stop_loss signal)).

Definition take_request (signal : Signal) : Request :=
  futures_create_order_TAKE_PROFIT_MARKET (sg_symbol signal)
    (OrderManager.round2 (sg_take_profit signal)).

(** The order identifier read from the answer of the exchange. *)
Definition order_id_of (main_order : PyVal) : Py.result PyKey :=
  PyJson.getitem main_order "orderId" ≫= PyJson.as_key.

(** The books of the manager, the monitor threads and the recovery file
    are the same in both states. *)
Definition frame (st st' : State) : Prop :=
  open_orders st' = open_orders st /\
  trade_history st' = trade_history st /\
  monitor_threads st' = monitor_threads st /\
  recovery_json st' = recovery_json st.

End OrderRequests.

(** ** What a monitor thread reads and touches *)

Module Watch.
Local Open Scope Q_scope.

(** The status query and the cancel request of [_monitor_order]. *)
Definition status_request (CONFIG : Config) (signal : Signal)
    (order_id : PyKey) : Request :=
  match TRADING_TYPE CONFIG with
  | Futures => futures_get_order (sg_symbol signal) order_id
  | Spot => get_order (sg_symbol signal) order_id
  end.

Definition cancel_request (CONFIG : Config) (signal : Signal)
    (order_id : PyKey) : Request :=
  match TRADING_TYPE CONFIG with
  | Futures => futures_cancel_order (sg_symbol signal) order_id
  | Spot => cancel_order (sg_symbol signal) order_id
  end.

(** How one round of the loop takes the answer to its status query: as a
    fill with its quantity and price, as a cancellation, or as nothing yet
    (an exception, a missing field, any other status). *)
Inductive Reading : Type :=
| Filled (qty price : Q)
| Canceled
| Pending.

Definition reading (answer : Py.result OrderStatus) : Reading :=
  match answer with
  | Py.Ok order_status =>
      match status order_status with
      | Some s =>
          if String.eqb s "FILLED" then
            match executedQty order_status, avgPrice order_status with
            | Some qty, Some price => Filled qty price
            | _, _ => Pending
            end
          else if String.eqb s "CANCELED" then Canceled
          else Pending
      | None => Pending
      end
  | Py.Raise _ => Pending
  end.

(** The trade [_monitor_order] appends for a fill. *)
Definition fill_record (signal : Signal) (qty price now : Q) : Trade :=
  {| tr_symbol := sg_symbol signal; tr_side := "BUY"; tr_size := qty;
     tr_price := price; tr_timestamp := now;
     tr_signal_type := sg_type signal; tr_pnl := None |}.

(** The footprint of a monitor thread between [st] and the state of
    [out]: the entries of the other orders, the monitor threads and the
    order flow are left alone, and the trade history grows, by one record
    of the signal's symbol without ['pnl'], exactly when the thread
    reports a fill. *)
Definition confined (order_id : PyKey) (signal : Signal) (st : State)
    (out : Py.result (option Outcome) * State) : Prop :=
  (forall k, k <> order_id ->
             open_orders (snd out) !! k = open_orders st !! k) /\
  monitor_threads (snd out) = monitor_threads st /\
  (exists new, requests (snd out) = new ++ requests st /\
               Forall (fun r => places_order r = false) new) /\
  match fst out with
  | Py.Ok (Some FILLED) =>
      exists t, trade_history (snd out) = trade_history st ++ [t] /\
                tr_symbol t = sg_symbol signal /\
                tr_side t = "BUY" /\
                tr_pnl t = None
  | _ => trade_history (snd out) = trade_history st
  end.

End Watch.

(** ** Induction on Python values, through lists and dictionaries *)

Section PyValInduction.
Variable P : PyVal -> Prop.
Hypothesis HNone : P PNone.
Hypothesis HBool : forall b, P (PBool b).
Hypothesis HInt : forall z, P (PInt z).
Hypothesis HFloat : forall q, P (PFloat q).
Hypothesis HStr : forall s, P (PStr s).
Hypothesis HList : forall l, Forall P l -> P (PList l).
Hypothesis HDict : forall d, Forall (fun kv => P (snd kv)) d -> P (PDict d).

Fixpoint PyVal_nested_ind (v : PyVal) : P v :=
  match v with
  | PNone => HNone
  | PBool b => HBool b
  | PInt z => HInt z
  | PFloat q => HFloat q
  | PStr s => HStr s
  | PList l =>
      HList l
        ((fix go (l : list PyVal) : Forall P l :=
            match l with
            | [] => List.Forall_nil P
            | x :: l => List.Forall_cons P x l (PyVal_nested_ind x) (go l)
            end) l)
  | PDict d =>
      HDict d
        ((fix go (d : list (PyKey * PyVal)) : Forall (fun kv => P (snd kv)) d :=
            match d with
            | [] => List.Forall_nil _
            | kv :: d =>
                List.Forall_cons (fun kv => P (snd kv)) kv d
                  (PyVal_nested_ind (snd kv)) (go d)
            end) d)
  end.
End PyValInduction.

(** ** Sample data used by the examples below *)

Module Sample.

Definition btc : SymbolConfig := {|
  risk_weight := 1;
  stop_multiplier := fun s => match s with MOMENTUM => 2 | SWING => 1.5 end;
  profit_multiplier := fun s => match s with MOMENTUM => 3 | SWING => 2 end;
  min_qty := 0.001;
  max_position_usd := 1000
|}%Q.

Definition symbols : list (string * SymbolConfig) := [("BTCUSDT", btc)].

Definition config (risk : Q) : Config := {|
  API_KEY := "k";
  API_SECRET := "s";
  TRADING_TYPE := Futures;
  INITIAL_BALANCE := 1000;
  LEVERAGE := 3;
  RISK_PERCENT := risk;
  MAX_SLIPPAGE := 0.01;
  MAX_OPEN_ORDERS := 5;
  MEMORY_LIMIT := 80;
  VOLATILITY_FACTOR := 2;
  PERFORMANCE_WINDOW := 20
|}%Q.

Definition trade (p : option Q) : Trade := {|
  tr_symbol := "BTCUSDT";
  tr_side := "BUY";
  tr_size := 1;
  tr_price := 30000;
  tr_timestamp := 0;
  tr_signal_type := MOMENTUM;
  tr_pnl := p
|}%Q.

(** Twelve trades, nine winners of 2 and three losers of 1. *)
Definition nine_of_twelve : list Trade :=
  repeat (trade (Some 2%Q)) 9 ++ repeat (trade (Some (-1)%Q)) 3.

(** Ten trades as [_monitor_order] records them: no ['pnl'] key. *)
Definition ten_unpriced : list Trade := repeat (trade None) 10.

Definition table : gmap string SymbolConfig := {[ "BTCUSDT" := btc ]}.

Definition calm : SystemStatus := {| memory_percent := 40; active_count := 3 |}.

(** The MOMENTUM scenario of the specification. *)
Definition trending_row : FeatureRow := {|
  close := 30000; momentum := 0.06; rsi := 50; atr := 100;
  ema30 := 29500; ema50 := 29000;
  bb_upper := 29900; bb_middle := 29000; bb_lower := 28100;
  volume_ratio := 1.5; adx := 30; market_state := TRENDING
|}%Q.

(** The SWING scenario: ranging market, close below the lower band. *)
Definition dip_row : FeatureRow := {|
  close := 28000; momentum := 0.06; rsi := 35; atr := 100;
  ema30 := 29500; ema50 := 29000;
  bb_upper := 29900; bb_middle := 29000; bb_lower := 28100;
  volume_ratio := 1.2; adx := 20; market_state := RANGING
|}%Q.

(** A signal at 30000 and an exchange that quotes [quote], holds 10000
    USDT, accepts every order under the identifier 42 and reports every
    order as [answer]. *)
Definition signal : Signal := {|
  sg_symbol := "BTCUSDT"; sg_signal := "BUY"; sg_type := MOMENTUM;
  sg_size := 0.003; sg_price := 30000;
  sg_stop_loss := 29800; sg_take_profit := 30300
|}%Q.

Definition exchange (quote : Q) (answer : Py.result OrderStatus) : Exchange := {|
  ticker_price := fun _ _ => Py.Ok quote;
  klines_close := fun _ _ => Py.Ok [quote];
  create_order := fun _ _ => Py.Ok (PDict [(KStr "orderId", PInt 42)]);
  account_balances := fun _ =>
    Py.Ok [ {| ab_asset := "USDT"; ab_amount := 10000; ab_locked := 0;
               ab_raw := PDict [(KStr "asset", PStr "USDT")] |} ];
  query_order := fun _ _ _ => answer;
  cancel := fun _ _ _ => Py.Raise (Py.BinanceAPIException (-2011));
  position_information := fun _ => Py.Ok [];
  open_orders_on_exchange := fun _ => Py.Ok (PList []);
  latency := fun _ _ => 0.05
|}%Q.

(** The same exchange at 30000, with [create] deciding what becomes of
    each order sent to it. *)
Definition broker (create : list Request -> Request -> Py.result PyVal)
  : Exchange := {|
  ticker_price := fun _ _ => Py.Ok 30000;
  klines_close := fun _ _ => Py.Ok [30000];
  create_order := create;
  account_balances := fun _ =>
    Py.Ok [ {| ab_asset := "USDT"; ab_amount := 10000; ab_locked := 0;
               ab_raw := PDict [(KStr "asset", PStr "USDT")] |} ];
  query_order := fun _ _ _ => Py.Raise Py.ConnectionError;
  cancel := fun _ _ _ => Py.Raise (Py.BinanceAPIException (-2011));
  position_information := fun _ => Py.Ok [];
  open_orders_on_exchange := fun _ => Py.Ok (PList []);
  latency := fun _ _ => 0.05
|}%Q.

(** It accepts the market order under the identifier 42 and refuses every
    stop order. *)
Definition no_stops (past : list Request) (req : Request)
  : Py.result PyVal :=
  match req with
  | futures_create_order_STOP_MARKET _ _ =>
      Py.Raise (Py.BinanceAPIException (-4003))
  | _ => Py.Ok (PDict [(KStr "orderId", PInt 42)])
  end.

Definition empty_state : State := {|
  open_orders := ∅; trade_history := [];
  last_call := 0; call_count := 0; clock := 1000;
  requests := []; telegrams := []; monitor_threads := [];
  recovery_json := None
|}%Q.

(** The state right after order 42 was accepted for [signal]. *)
Definition tracking_state : State := {|
  open_orders :=
    {[ KInt 42 := {| mo_signal := signal;
                     mo_order := PDict [(KStr "orderId", PInt 42)];
                     mo_timestamp := 1000 |} ]};
  trade_history := [];
  last_call := 1000; call_count := 5; clock := 1000;
  requests := []; telegrams := []; monitor_threads := [(KInt 42, signal)];
  recovery_json := None
|}%Q.

(** The same with one trade on record. *)
Definition busy_state : State := {|
  open_orders := open_orders tracking_state;
  trade_history := [trade None];
  last_call := 1000; call_count := 5; clock := 1000;
  requests := []; telegrams := []; monitor_threads := [(KInt 42, signal)];
  recovery_json := None
|}%Q.

End Sample.

(** * Properties *)

(** ** Python scalars *)

Section PyFacts.
Import Py.
Local Open Scope Q_scope.

Lemma Qltb_lt (a b : Q) : Qltb a b = true <-> a < b.
Proof.
  unfold Qltb. rewrite negb_true_iff, <- not_true_iff_false, Qle_bool_iff.
  split; [apply Qnot_le_lt | apply Qlt_not_le].
Qed.

Lemma Qltb_ge (a b : Q) : Qltb a b = false <-> b <= a.
Proof. unfold Qltb. rewrite negb_false_iff. apply Qle_bool_iff. Qed.

Lemma Qltb_decide (a b : Q) : Qltb a b = bool_decide (a < b).
Proof.
  destruct (Qltb a b) eqn:E; symmetry.
  - apply bool_decide_eq_true, Qltb_lt, E.
  - apply bool_decide_eq_false. rewrite <- Qltb_lt. congruence.
Qed.

#[global] Instance Qltb_proper : Proper (Qeq ==> Qeq ==> eq) Qltb.
Proof. intros a a' Ha b b' Hb. unfold Qltb. now rewrite Ha, Hb. Qed.

Lemma min_Qmin (a b : Q) : min a b = Qmin a b.
Proof.
  unfold min. destruct (Qltb b a) eqn:E.
  - apply Qltb_lt in E. unfold Qmin, GenericMinMax.gmin.
    rewrite (proj1 (Qgt_alt a b)); auto.
  - apply Qltb_ge in E. symmetry. unfold Qmin, GenericMinMax.gmin.
    destruct (a ?= b) eqn:C; auto.
    apply Qgt_alt in C. exfalso. apply (Qlt_not_le _ _ C E).
Qed.

Lemma max_Qmax (a b : Q) : max a b = Qmax a b.
Proof.
  unfold max, Qgtb. destruct (Qltb a b) eqn:E.
  - apply Qltb_lt in E. unfold Qmax, GenericMinMax.gmax.
    rewrite (proj1 (Qlt_alt a b)); auto.
  - apply Qltb_ge in E. symmetry. unfold Qmax, GenericMinMax.gmax.
    destruct (a ?= b) eqn:C; auto.
    apply Qlt_alt in C. exfalso. apply (Qlt_not_le _ _ C E).
Qed.

Lemma div_Ok (a b : Q) : ~ b == 0 -> div a b = Ok (a / b).
Proof.
  intros H. unfold div. destruct (Qeq_bool b 0) eqn:E; auto.
  apply Qeq_bool_iff in E. contradiction.
Qed.

(** A positive window selects the last [n] elements. *)
Lemma slice_from_neg {A} (n : Z) (l : list A) :
  (0 < n)%Z -> slice_from (- n) l = drop (length l - Z.to_nat n) l.
Proof.
  intros Hn. unfold slice_from.
  destruct (Z.ltb_spec (- n) 0) as [_|]; [|lia].
  f_equal. lia.
Qed.

End PyFacts.

(** ** Risk optimizer *)

Section OptimizerFacts.
Import Py ParameterOptimizer RiskSpec.
Local Open Scope Q_scope.

Lemma calculate_pnl_pnl_of (t : Trade) : _calculate_pnl t = pnl_of t.
Proof. unfold _calculate_pnl, pnl_of. now destruct (tr_pnl t). Qed.

Lemma profitable_winners (l : list Trade) :
  List.filter (fun t => Qgtb (_calculate_pnl t) 0) l = winners l.
Proof.
  apply List.filter_ext. intros t. unfold Qgtb.
  now rewrite Qltb_decide, calculate_pnl_pnl_of.
Qed.

Lemma losing_losers (l : list Trade) :
  List.filter (fun t => Qltb (_calculate_pnl t) 0) l = losers l.
Proof.
  apply List.filter_ext. intros t.
  now rewrite Qltb_decide, calculate_pnl_pnl_of.
Qed.

Lemma Qlen_pos {A} (l : list A) : l <> [] -> 0 < Qlen l.
Proof.
  intros H. destruct l as [|a l]; [congruence|].
  unfold Qlen. change 0 with (inject_Z 0). rewrite <- Zlt_Qlt.
  simpl length. lia.
Qed.

Lemma nonempty_true {A} (l : list A) : nonempty l = true <-> l <> [].
Proof. destruct l; simpl; split; congruence. Qed.

Lemma mean_Ok (l : list Q) : l <> [] -> mean l = Ok (sum l / Qlen l).
Proof.
  intros H. unfold mean. apply div_Ok.
  pose proof (Qlen_pos l H) as Hp. unfold Qlen in Hp.
  intros Heq. rewrite Heq in Hp. now apply Qlt_irrefl in Hp.
Qed.

Lemma sum_neg (l : list Q) :
  Forall (fun x => x < 0) l -> l <> [] -> sum l < 0.
Proof.
  induction 1 as [|x l Hx Hl IH]; [congruence|]. intros _. simpl.
  destruct l as [|y l].
  - simpl. lra.
  - assert (sum (y :: l) < 0) by (apply IH; congruence). lra.
Qed.

Lemma sum_abs_neg (l : list Q) :
  Forall (fun x => x < 0) l -> sum (map Qabs l) == - sum l.
Proof.
  induction 1 as [|x l Hx Hl IH]; simpl; [lra|].
  rewrite IH, Qabs_neg by lra. lra.
Qed.

Lemma losers_neg (l : list Trade) :
  Forall (fun x => x < 0) (map pnl_of (losers l)).
Proof.
  apply List.Forall_forall. intros x Hx.
  apply List.in_map_iff in Hx as (t & <- & Ht).
  apply List.filter_In in Ht as [_ Ht].
  now apply bool_decide_eq_true in Ht.
Qed.

(** The absolute value of the mean loss is the mean absolute loss. *)
Lemma abs_mean_neg (L : list Q) :
  Forall (fun x => x < 0) L -> L <> [] ->
  Qabs (sum L / Qlen L) == average 1 (map Qabs L) /\ 0 < Qabs (sum L / Qlen L).
Proof.
  intros Hneg Hne.
  pose proof (sum_neg _ Hneg Hne) as Hs.
  pose proof (Qlen_pos _ Hne) as Hp.
  assert (Hd : sum L / Qlen L < 0) by (apply Qlt_shift_div_r; lra).
  split; [|rewrite Qabs_neg by lra; lra].
  unfold average. destruct (map Qabs L) as [|y ys] eqn:E.
  { destruct L; simpl in E; congruence. }
  rewrite <- E, (sum_abs_neg _ Hneg).
  assert (HL : Qlen (map Qabs L) = Qlen L)
    by (unfold Qlen; now rewrite List.length_map).
  rewrite HL, Qabs_neg by lra. field. lra.
Qed.

Lemma abs_mean_losers (l : list Trade) :
  losers l <> [] ->
  Qabs (sum (map pnl_of (losers l)) / Qlen (map pnl_of (losers l)))
  == average 1 (map (fun t => Qabs (pnl_of t)) (losers l)).
Proof.
  intros Hne. rewrite <- (List.map_map pnl_of Qabs).
  apply abs_mean_neg; [apply losers_neg|].
  destruct (losers l); simpl; congruence.
Qed.

Lemma average_losers_pos (l : list Trade) :
  0 < average 1 (map (fun t => Qabs (pnl_of t)) (losers l)).
Proof.
  destruct (losers l) as [|t ts] eqn:E; [simpl; lra|].
  rewrite <- E. rewrite <- abs_mean_losers by (rewrite E; congruence).
  apply abs_mean_neg; [apply losers_neg|]. rewrite E. simpl. congruence.
Qed.

Lemma policy_code (base w r r' : Q) :
  r == r' ->
  (if Qgtb w 0.7 && Qgtb r 1.5 then Ok (min (base * 1.2) 0.035)
   else if Qltb w 0.4 || Qltb r 0.8 then Ok (max (base * 0.8) 0.015)
   else Ok base) = Ok (policy base w r').
Proof.
  intros Hr. unfold policy, Qgtb. rewrite Hr, !Qltb_decide.
  rewrite min_Qmin, max_Qmax. unfold risk_ceiling, risk_floor.
  repeat case_bool_decide; repeat case_decide; simpl; try reflexivity;
    exfalso; lra.
Qed.

Lemma most_recent_nonempty (n : nat) (l : list Trade) :
  (0 < n)%nat -> l <> [] -> most_recent n l <> [].
Proof.
  intros Hn Hl Hnil. apply (f_equal length) in Hnil.
  unfold most_recent in Hnil. rewrite length_drop in Hnil. simpl in Hnil.
  destruct l; [congruence|]. simpl in Hnil. lia.
Qed.

(** What [optimize_risk] computes on a window that is not empty. *)
Lemma optimize_risk_on_slice (CONFIG : Config) (trades : list Trade) :
  (10 <= length trades)%nat ->
  let recent := slice_from (- PERFORMANCE_WINDOW CONFIG) trades in
  recent <> [] ->
  optimize_risk CONFIG trades
  = Ok (policy (RISK_PERCENT CONFIG) (win_rate recent) (profit_loss_ratio recent)).
Proof.
  intros Hlen recent Hrec. unfold optimize_risk.
  destruct (Z.ltb_spec (Z.of_nat (length trades)) 10) as [|_]; [lia|].
  fold recent. rewrite profitable_winners, losing_losers.
  pose proof (Qlen_pos _ Hrec) as Hrp.
  rewrite div_Ok by (unfold Qlen in Hrp; intros E; rewrite E in Hrp; now apply Qlt_irrefl in Hrp).
  unfold mbind, result_bind, bind.
  fold (Qlen (winners recent)). fold (Qlen recent). fold (win_rate recent).
  pose proof (average_losers_pos recent) as Hpos.
  assert (Hw : exists p, (if nonempty (winners recent)
                  then mean (map _calculate_pnl (winners recent)) else Ok 0)
                 = Ok p /\ p == average 0 (map pnl_of (winners recent))).
  { destruct (winners recent) as [|t ts] eqn:E.
    - simpl. eexists; split; [reflexivity|reflexivity].
    - rewrite <- E. replace (nonempty (winners recent)) with true
        by (rewrite E; reflexivity).
      rewrite (List.map_ext _ _ calculate_pnl_pnl_of).
      rewrite mean_Ok by (rewrite E; simpl; congruence).
      eexists; split; [reflexivity|]. unfold average.
      rewrite E. simpl map. reflexivity. }
  destruct Hw as (p & -> & Hp).
  assert (Hl : exists a, (if nonempty (losers recent)
                  then match mean (map _calculate_pnl (losers recent)) with
                       | Ok m => Ok (Qabs m) | Raise e => Raise e end
                  else Ok 1)
                 = Ok a /\ a == average 1 (map (fun t => Qabs (pnl_of t)) (losers recent))).
  { destruct (losers recent) as [|t ts] eqn:E.
    - simpl. eexists; split; reflexivity.
    - rewrite <- E. replace (nonempty (losers recent)) with true
        by (rewrite E; reflexivity).
      rewrite (List.map_ext _ _ calculate_pnl_pnl_of).
      rewrite mean_Ok by (rewrite E; simpl; congruence).
      eexists; split; [reflexivity|]. apply abs_mean_losers.
      rewrite E; congruence. }
  destruct Hl as (a & -> & Ha).
  assert (Hapos : 0 < a) by (rewrite Ha; exact Hpos).
  replace (Qgtb a 0) with true by (symmetry; apply Qltb_lt; exact Hapos).
  rewrite div_Ok by lra.
  apply policy_code. unfold profit_loss_ratio. now rewrite Hp, Ha.
Qed.

Lemma optimize_risk_on_window (CONFIG : Config) (trades : list Trade) :
  (0 < PERFORMANCE_WINDOW CONFIG)%Z ->
  (10 <= length trades)%nat ->
  let recent := most_recent (Z.to_nat (PERFORMANCE_WINDOW CONFIG)) trades in
  optimize_risk CONFIG trades
  = Ok (policy (RISK_PERCENT CONFIG) (win_rate recent) (profit_loss_ratio recent)).
Proof.
  intros Hpw Hlen recent.
  pose proof (optimize_risk_on_slice CONFIG trades Hlen) as H. simpl in H.
  rewrite slice_from_neg in H by assumption. apply H.
  apply most_recent_nonempty; [lia|].
  destruct trades; simpl in *; [lia|congruence].
Qed.

Lemma slice_from_nonneg_window (pw : Z) (trades : list Trade) :
  (0 <= pw)%Z -> trades <> [] -> slice_from (- pw) trades <> [].
Proof.
  intros Hpw Hne. destruct (Z.eq_dec pw 0%Z) as [->|Hnz].
  - unfold slice_from. simpl. rewrite Z.min_l by lia. exact Hne.
  - rewrite slice_from_neg by lia.
    apply most_recent_nonempty; [lia|assumption].
Qed.

Lemma policy_range (base w r : Q) :
  0 <= base ->
  Qmin base risk_floor <= policy base w r <= Qmax base risk_ceiling.
Proof.
  intros Hb. unfold policy, risk_floor, risk_ceiling.
  repeat case_decide;
    repeat match goal with
      | |- context [Qmin ?a ?b] =>
          destruct (Q.min_spec a b) as [[? ->]|[? ->]]
      | |- context [Qmax ?a ?b] =>
          destruct (Q.max_spec a b) as [[? ->]|[? ->]]
      end; lra.
Qed.

(** [optimize_risk] reads a history only through its ['pnl'] entries. *)
Lemma filter_map_agree {A B} (f : A -> B) (P : B -> bool) (l1 l2 : list A) :
  map f l1 = map f l2 ->
  map f (List.filter (fun x => P (f x)) l1)
  = map f (List.filter (fun x => P (f x)) l2).
Proof.
  revert l2. induction l1 as [|a l1 IH]; intros [|b l2] H; simpl in H;
    try discriminate; [reflexivity|].
  injection H as Hab Hl. simpl. rewrite Hab.
  destruct (P (f b)); simpl; rewrite ?Hab; [f_equal|]; apply IH, Hl.
Qed.

Lemma slice_from_map {A B} (f : A -> B) (s : Z) (l : list A) :
  map f (slice_from s l) = slice_from s (map f l).
Proof. unfold slice_from. now rewrite List.length_map, List.skipn_map. Qed.

Lemma map_agree_length {A B} (f : A -> B) (l1 l2 : list A) :
  map f l1 = map f l2 -> length l1 = length l2.
Proof.
  intros H. apply (f_equal (@length B)) in H.
  now rewrite !List.length_map in H.
Qed.

Lemma map_agree_nonempty {A B} (f : A -> B) (l1 l2 : list A) :
  map f l1 = map f l2 -> nonempty l1 = nonempty l2.
Proof. destruct l1, l2; simpl; congruence. Qed.

Lemma optimize_risk_pnl_only (CONFIG : Config) (h1 h2 : list Trade) :
  map tr_pnl h1 = map tr_pnl h2 ->
  optimize_risk CONFIG h1 = optimize_risk CONFIG h2.
Proof.
  intros H. unfold optimize_risk.
  rewrite (map_agree_length _ _ _ H).
  destruct (Z.of_nat (length h2) <? 10)%Z; [reflexivity|].
  set (r1 := slice_from _ h1). set (r2 := slice_from _ h2).
  assert (Hr : map tr_pnl r1 = map tr_pnl r2)
    by (unfold r1, r2; now rewrite !slice_from_map, H).
  pose proof (filter_map_agree tr_pnl
                (fun o => Qgtb (default 0 o) 0) r1 r2 Hr) as Hw.
  pose proof (filter_map_agree tr_pnl
                (fun o => Qltb (default 0 o) 0) r1 r2 Hr) as Hl.
  assert (Hpnl : forall l, map _calculate_pnl l = map (default 0) (map tr_pnl l)).
  { intros l. rewrite List.map_map. apply List.map_ext. intros t.
    unfold _calculate_pnl. now destruct (tr_pnl t). }
  change (fun t => Qgtb (_calculate_pnl t) 0)
    with (fun t => (fun o => Qgtb (default 0 o) 0) (tr_pnl t)).
  change (fun t => Qltb (_calculate_pnl t) 0)
    with (fun t => (fun o => Qltb (default 0 o) 0) (tr_pnl t)).
  rewrite !Hpnl, Hw, Hl.
  rewrite (map_agree_length _ _ _ Hw), (map_agree_length _ _ _ Hr).
  rewrite (map_agree_nonempty _ _ _ Hw), (map_agree_nonempty _ _ _ Hl).
  reflexivity.
Qed.

Lemma no_pnl_winners (l : list Trade) :
  Forall (fun t => tr_pnl t = None) l -> winners l = [] /\ losers l = [].
Proof.
  induction 1 as [|t l Ht _ [IHw IHl]]; [split; reflexivity|].
  assert (Hp : pnl_of t = 0) by (unfold pnl_of; now rewrite Ht).
  unfold winners, losers in *. simpl.
  rewrite !bool_decide_eq_false_2
    by (rewrite Hp; intros C; now apply Qlt_irrefl in C).
  now split.
Qed.

Lemma Forall_slice_from {A} (P : A -> Prop) (s : Z) (l : list A) :
  Forall P l -> Forall P (slice_from s l).
Proof. intros H. unfold slice_from. now apply Forall_drop. Qed.

End OptimizerFacts.

(** ** Claims on the risk optimizer *)

Section OptimizerClaims.
Import Py ParameterOptimizer RiskSpec.
Local Open Scope Q_scope.

(** Scenario of the specification: 12 recent trades, 9 profitable, ratio
    2.0: the base risk is scaled by 1.2 (and capped). *)
Example optimize_risk_nine_of_twelve :
  optimize_risk (Sample.config 0.02) Sample.nine_of_twelve
  = Ok (Qmin (0.02 * 1.2) 0.035).
Proof. reflexivity. Qed.

(** The configuration check accepts a base risk of 5%; with ten trades
    and no recorded PnL the optimizer then answers 4%, above the 3.5%
    ceiling. *)
Lemma optimize_risk_above_ceiling :
  validate_config (Sample.config 0.05) Sample.symbols = [] /\
  (10 <= length Sample.ten_unpriced)%nat /\
  exists risk,
    optimize_risk (Sample.config 0.05) Sample.ten_unpriced = Ok risk /\
    ~ (0.015 <= risk <= 0.035).
Proof.
  split; [reflexivity|]. split; [simpl; lia|].
  eexists. split; [reflexivity|].
  intros [_ H]. revert H. vm_compute. intros H. now apply H.
Qed.

(** C5 (amended).  [optimize_risk] returns the base risk unchanged for a
    history of fewer than 10 trades; for a history of at least 10 trades
    (and a window that is not negative) its result lies within
    [0.015, 0.035] provided the base risk itself does; and its result is
    determined by the history passed in, indeed by the ['pnl'] entries of
    that history alone. *)
Theorem optimize_risk_bounded (CONFIG : Config) (trades : list Trade) :
  ((length trades < 10)%nat ->
     optimize_risk CONFIG trades = Ok (RISK_PERCENT CONFIG)) /\
  ((10 <= length trades)%nat ->
   (0 <= PERFORMANCE_WINDOW CONFIG)%Z ->
   0.015 <= RISK_PERCENT CONFIG <= 0.035 ->
     exists risk, optimize_risk CONFIG trades = Ok risk /\
                  0.015 <= risk <= 0.035) /\
  (forall trades' : list Trade,
     map tr_pnl trades' = map tr_pnl trades ->
     optimize_risk CONFIG trades' = optimize_risk CONFIG trades).
Proof.
  split; [|split].
  - intros Hlt. unfold optimize_risk.
    destruct (Z.ltb_spec (Z.of_nat (length trades)) 10); [reflexivity|lia].
  - intros Hlen Hpw Hbase.
    assert (Hne : trades <> []) by (destruct trades; simpl in *; [lia|congruence]).
    pose proof (slice_from_nonneg_window _ _ Hpw Hne) as Hrec.
    rewrite (optimize_risk_on_slice CONFIG trades Hlen Hrec).
    eexists. split; [reflexivity|].
    match goal with |- _ <= policy ?b ?w ?r <= _ =>
      pose proof (policy_range b w r) as Hr end.
    unfold risk_floor, risk_ceiling in Hr.
    rewrite Q.min_r, Q.max_r in Hr by lra. apply Hr. lra.
  - intros trades' H. now apply optimize_risk_pnl_only.
Qed.

Lemma optimize_risk_bounded_witness :
  optimize_risk (Sample.config 0.02) (repeat (Sample.trade None) 3)
    = Ok 0.02 /\
  (exists risk,
     optimize_risk (Sample.config 0.02) Sample.nine_of_twelve = Ok risk /\
     0.015 <= risk <= 0.035) /\
  optimize_risk (Sample.config 0.02)
    (map (fun t => Sample.trade (tr_pnl t)) Sample.nine_of_twelve)
  = optimize_risk (Sample.config 0.02) Sample.nine_of_twelve.
Proof.
  destruct (optimize_risk_bounded (Sample.config 0.02)
              (repeat (Sample.trade None) 3)) as (Hfew & _ & _).
  destruct (optimize_risk_bounded (Sample.config 0.02)
              Sample.nine_of_twelve) as (_ & Hmany & Hsame).
  split; [|split].
  - apply Hfew. simpl; lia.
  - apply Hmany.
    + simpl; lia.
    + discriminate.
    + split; discriminate.
  - apply Hsame. reflexivity.
Defined.

(** With the smallest base risk the configuration check accepts, 1%, a
    history of ten trades without PnL makes the optimizer answer 1.5%:
    the risk goes up. *)
Lemma optimize_risk_unpriced_raises :
  validate_config (Sample.config 0.01) Sample.symbols = [] /\
  (10 <= length Sample.ten_unpriced)%nat /\
  Forall (fun t => tr_pnl t = None) Sample.ten_unpriced /\
  exists risk,
    optimize_risk (Sample.config 0.01) Sample.ten_unpriced = Ok risk /\
    RISK_PERCENT (Sample.config 0.01) < risk.
Proof.
  split; [reflexivity|]. split; [simpl; lia|].
  split; [repeat constructor|].
  eexists. split; [reflexivity|]. reflexivity.
Qed.

(** C10 (amended).  The PnL of a trade is its ['pnl'] entry when there is
    one and 0 otherwise; hence for a history of at least 10 trades none of
    which has a ['pnl'] entry the win rate is 0 and [optimize_risk]
    returns max(base*0.8, 0.015): the reducing branch is always taken.
    The result is below the base risk exactly when the base is above
    1.5%; for a base of at most 1.5% the result is the floor 1.5%. *)
Theorem optimize_risk_without_pnl (CONFIG : Config) (trades : list Trade) :
  (0 <= PERFORMANCE_WINDOW CONFIG)%Z ->
  (10 <= length trades)%nat ->
  Forall (fun t => tr_pnl t = None) trades ->
  let base := RISK_PERCENT CONFIG in
  let recent := slice_from (- PERFORMANCE_WINDOW CONFIG) trades in
  (forall t, _calculate_pnl t
             = match tr_pnl t with Some p => p | None => 0 end) /\
  win_rate recent == 0 /\
  optimize_risk CONFIG trades = Ok (Qmax (base * 0.8) 0.015) /\
  (0.015 < base -> Qmax (base * 0.8) 0.015 < base) /\
  (base <= 0.015 -> Qmax (base * 0.8) 0.015 == 0.015).
Proof.
  intros Hpw Hlen Hnone base recent.
  assert (Hne : trades <> []) by (destruct trades; simpl in *; [lia|congruence]).
  pose proof (slice_from_nonneg_window _ _ Hpw Hne) as Hrec. fold recent in Hrec.
  destruct (no_pnl_winners recent (Forall_slice_from _ _ _ Hnone)) as [Hw Hl].
  assert (Hwr : win_rate recent == 0).
  { unfold win_rate. rewrite Hw. unfold Qlen at 1. simpl.
    unfold Qdiv. apply Qmult_0_l. }
  split; [reflexivity|]. split; [exact Hwr|]. split; [|split].
  - rewrite (optimize_risk_on_slice CONFIG trades Hlen Hrec). fold recent.
    f_equal. unfold policy, risk_floor. fold base.
    rewrite decide_False by (rewrite Hwr; lra).
    rewrite decide_True by (rewrite Hwr; lra). reflexivity.
  - intros Hb. destruct (Q.max_spec (base * 0.8) 0.015) as [[? ->]|[? ->]]; lra.
  - intros Hb. destruct (Q.max_spec (base * 0.8) 0.015) as [[? ->]|[? ->]]; lra.
Qed.

Lemma optimize_risk_without_pnl_witness :
  win_rate (slice_from (- PERFORMANCE_WINDOW (Sample.config 0.02))
              Sample.ten_unpriced) == 0 /\
  optimize_risk (Sample.config 0.02) Sample.ten_unpriced
  = Ok (Qmax (0.02 * 0.8) 0.015).
Proof.
  assert (Hpw : (0 <= PERFORMANCE_WINDOW (Sample.config 0.02))%Z)
    by discriminate.
  assert (Hlen : (10 <= length Sample.ten_unpriced)%nat) by (simpl; lia).
  assert (Hnone : Forall (fun t => tr_pnl t = None) Sample.ten_unpriced)
    by (repeat constructor).
  destruct (optimize_risk_without_pnl _ _ Hpw Hlen Hnone)
    as (_ & Hw & Hr & _).
  split; [exact Hw | exact Hr].
Defined.

End OptimizerClaims.

(** ** The risk optimizer in double precision *)

Section DoubleFacts.
Import Py Double DoubleOptimizer DoubleRiskSpec.

Lemma drop_recent_nonempty {A} (n : nat) (l : list A) :
  (0 < n)%nat -> l <> [] -> most_recent n l <> [].
Proof.
  intros Hn Hl Hnil. apply (f_equal (@length A)) in Hnil.
  unfold most_recent in Hnil. rewrite length_drop in Hnil.
  destruct l; [congruence|]. simpl in Hnil. lia.
Qed.

Lemma nonempty_match {A B} (l : list A) (x y : B) :
  (if ParameterOptimizer.nonempty l then x else y)
  = match l with [] => y | _ => x end.
Proof. now destruct l. Qed.

(** What [optimize_risk] computes on a history of ten trades or more. *)
Lemma optimize_risk_on_recent (np_mean : list double -> double)
    (base : double) (window : Z) (trades : list PricedTrade) :
  (0 < window)%Z -> (10 <= length trades)%nat ->
  let recent := most_recent (Z.to_nat window) trades in
  let w := win_rate recent in
  let r := profit_loss_ratio np_mean recent in
  optimize_risk np_mean base window trades
  = Ok (if ltb d0_7 w && ltb d1_5 r then min (mul base d1_2) d0_035
        else if ltb w d0_4 || ltb r d0_8 then max (mul base d0_8) d0_015
        else base).
Proof.
  intros Hw Hlen recent w r. unfold optimize_risk.
  destruct (Z.ltb_spec (Z.of_nat (length trades)) 10) as [|_]; [lia|].
  rewrite slice_from_neg by assumption. fold (most_recent (Z.to_nat window) trades).
  fold recent.
  assert (Hne : recent <> []).
  { apply drop_recent_nonempty; [lia|]. destruct trades; simpl in *; [lia|congruence]. }
  unfold truediv.
  destruct (Z.eqb_spec (Z.of_nat (length recent)) 0) as [Hz|_].
  { destruct recent; [congruence|discriminate]. }
  unfold mbind, result_bind, bind.
  rewrite !nonempty_match.
  match goal with
  | |- (if ?c1 then _ else if ?c2 then _ else _) = _ =>
      change c1 with (ltb d0_7 w && ltb d1_5 r);
      change c2 with (ltb w d0_4 || ltb r d0_8)
  end.
  destruct (ltb d0_7 w && ltb d1_5 r); [reflexivity|].
  destruct (ltb w d0_4 || ltb r d0_8); reflexivity.
Qed.

(** A double above the literal 0.7 is not below the literal 0.4, and one
    above 1.5 is not below 0.8. *)
Lemma above_0_7_not_below_0_4 (w : double) :
  ltb d0_7 w = true -> ltb w d0_4 = false.
Proof.
  destruct w as [s|[]| |[] m e]; try discriminate; try reflexivity.
  unfold ltb, SpecFloat.SFltb, SpecFloat.SFcompare, d0_7, d0_4.
  destruct (Z.compare_spec (-53) e), (Z.compare_spec e (-54));
    try discriminate; try reflexivity; lia.
Qed.

Lemma above_1_5_not_below_0_8 (r : double) :
  ltb d1_5 r = true -> ltb r d0_8 = false.
Proof.
  destruct r as [s|[]| |[] m e]; try discriminate; try reflexivity.
  unfold ltb, SpecFloat.SFltb, SpecFloat.SFcompare, d1_5, d0_8.
  destruct (Z.compare_spec (-52) e), (Z.compare_spec e (-53));
    try discriminate; try reflexivity; lia.
Qed.

End DoubleFacts.

Section DoubleClaims.
Import Py Double DoubleOptimizer DoubleRiskSpec.

(** C4 (amended).  For a trade history of at least 10 trades (and a
    performance window that is positive and below 2^53, so that the
    lengths are doubles), [optimize_risk] evaluates the most recent
    [performance_window] trades.  With [w] and [r] the win rate and the
    profit/loss ratio as the code computes them in double precision ([w]
    the quotient of the two lengths; [r] the quotient of np.mean over the
    winners' PnL by the absolute value of np.mean over the losers' PnL,
    that value being 1 when there is no loser and [r] being 1 when that
    value is not positive), it returns base*1.2 capped at 0.035 when
    w > 0.7 and r > 1.5, base*0.8 floored at 0.015 when w < 0.4 or
    r < 0.8, and the base otherwise, whatever the order in which np.mean
    adds. *)
Theorem optimize_risk_policy (np_mean : list double -> double)
    (base : double) (window : Z) (trades : list PricedTrade) :
  (0 < window < 2 ^ 53)%Z ->
  (10 <= length trades)%nat ->
  let recent := most_recent (Z.to_nat window) trades in
  let w := win_rate recent in
  let r := profit_loss_ratio np_mean recent in
  exists risk,
    optimize_risk np_mean base window trades = Ok risk /\
    (ltb d0_7 w = true /\ ltb d1_5 r = true ->
     risk = min (mul base d1_2) d0_035) /\
    (ltb w d0_4 = true \/ ltb r d0_8 = true ->
     risk = max (mul base d0_8) d0_015) /\
    (~ (ltb d0_7 w = true /\ ltb d1_5 r = true) ->
     ~ (ltb w d0_4 = true \/ ltb r d0_8 = true) ->
     risk = base).
Proof.
  intros [Hw _] Hlen recent w r.
  eexists. split; [apply optimize_risk_on_recent; assumption|].
  fold recent. fold w. fold r.
  pose proof (above_0_7_not_below_0_4 w) as Hxw.
  pose proof (above_1_5_not_below_0_8 r) as Hxr.
  destruct (ltb d0_7 w) eqn:E1, (ltb d1_5 r) eqn:E2,
           (ltb w d0_4) eqn:E3, (ltb r d0_8) eqn:E4; simpl;
    repeat split; intros; try reflexivity;
    try (specialize (Hxw eq_refl); discriminate);
    try (specialize (Hxr eq_refl); discriminate);
    exfalso; intuition congruence.
Qed.

(** The scenario of the specification in double precision: twelve
    trades, nine winners of 2 and three losers of 1, at a base risk of
    0.02; the mean adds from left to right. *)
Lemma optimize_risk_policy_witness :
  optimize_risk (mean_with sum_left_to_right) (literal 2 100) 20
    (repeat {| pnl := Some (of_Z 2) |} 9
     ++ repeat {| pnl := Some (of_Z (-1)) |} 3)
  = Ok (min (mul (literal 2 100) d1_2) d0_035).
Proof.
  destruct (optimize_risk_policy (mean_with sum_left_to_right)
              (literal 2 100) 20
              (repeat {| pnl := Some (of_Z 2) |} 9
               ++ repeat {| pnl := Some (of_Z (-1)) |} 3))
    as (risk & Hrun & Hraise & _).
  - split; reflexivity.
  - simpl. lia.
  - rewrite Hrun. f_equal. apply Hraise. split; vm_compute; reflexivity.
Defined.

(** Where the exact quotient sits on a threshold the rounding decides.
    Eight winners that earn 0.1 and 0.2 in turn and two losers of 0.1:
    the exact mean profit is 3/2 of the exact mean loss, which is not
    above 1.5; but the means come out as 0.15000000000000002 and 0.1,
    whether the sum runs from left to right or in pairs, their quotient
    as 1.5000000000000002, and the risk is raised from the base 0.02 to
    0.024. *)
Lemma optimize_risk_rounding_decides :
  let gain1 := literal 1 10 in
  let gain2 := literal 2 10 in
  let loss := SpecFloat.SFopp (literal 1 10) in
  let history :=
    map (fun p => {| pnl := Some p |})
      [gain1; gain2; gain1; gain2; gain1; gain2; gain1; gain2; loss; loss] in
  let base := literal 2 100 in
  (exists profit deficit : Q,
     exact_mean (map pnl_of (winners history)) = Some profit /\
     exact_mean (map pnl_of (losers history)) = Some deficit /\
     (profit / Qabs deficit == 3 # 2)%Q /\
     ~ (3 # 2 < profit / Qabs deficit)%Q) /\
  (forall sum,
     sum = sum_left_to_right \/ sum = sum_in_pairs ->
     ltb d1_5 (profit_loss_ratio (mean_with sum) history) = true /\
     optimize_risk (mean_with sum) base 20 history = Ok (literal 24 1000)) /\
  ltb base (literal 24 1000) = true.
Proof.
  intros gain1 gain2 loss history base. split; [|split].
  - vm_compute. eexists _, _. split; [reflexivity|]. split; [reflexivity|].
    split; [reflexivity|discriminate].
  - intros sum [-> | ->]; split; vm_compute; reflexivity.
  - vm_compute. reflexivity.
Qed.

End DoubleClaims.

(** ** Signal generator *)

Section SignalFacts.
Import Py Sizer SignalGenerator SignalSpec.
Local Open Scope Q_scope.

Lemma system_guard_open {A} (CONFIG : Config) (sys : SystemStatus)
    (func : option A) :
  guard_open CONFIG sys -> system_guard CONFIG sys func = func.
Proof.
  intros [Hm Ht]. unfold system_guard, Qgtb.
  rewrite (proj2 (Qltb_ge _ _) Hm).
  destruct (Z.ltb_spec 15 (active_count sys)); [lia|reflexivity].
Qed.

Lemma momentum_signal_rule (row : FeatureRow) :
  momentum_signal row = true <-> momentum_rule row.
Proof.
  unfold momentum_signal, momentum_rule, Qgtb. simpl. unfold id.
  rewrite !andb_true_iff, !Qltb_lt, bool_decide_eq_true. tauto.
Qed.

Lemma swing_signal_rule (row : FeatureRow) :
  swing_signal row = true <-> swing_rule row.
Proof.
  unfold swing_signal, swing_rule, Qgtb. simpl. unfold id.
  rewrite !andb_true_iff, !Qltb_lt. tauto.
Qed.

Lemma truthy_Some (o : option Q) (q : Q) :
  truthy o = Some q <-> o = Some q /\ ~ q == 0.
Proof.
  unfold truthy. destruct o as [q'|]; [|split; [discriminate|intros [? _]; discriminate]].
  destruct (Qeq_bool q' 0) eqn:E.
  - apply Qeq_bool_iff in E. split; [discriminate|].
    intros [[= ->] H]. contradiction.
  - split.
    + intros [= ->]. split; [reflexivity|].
      intros H. apply Qeq_bool_iff in H. congruence.
    + now intros [-> _].
Qed.

Lemma last_Some_prev (df : list FeatureRow) :
  (2 <= length df)%nat -> exists prev, iloc_prev df = Some prev.
Proof.
  intros H. unfold iloc_prev.
  destruct df as [|a [|b l]]; simpl in H; try lia.
  change (removelast (a :: b :: l)) with (a :: removelast (b :: l)).
  apply last_is_Some. discriminate.
Qed.

Lemma sized_in_table (CONFIG : Config) (SYMS : gmap string SymbolConfig)
    symbol balance type a p history q :
  calculate_position_size CONFIG SYMS symbol balance type a p history
    = Some q ->
  exists sym, getitem SYMS symbol = Ok sym.
Proof.
  unfold calculate_position_size, position_size_body, try_except.
  destruct (if _ && _ then _ else _) as [risk|]; simpl; [|discriminate].
  destruct (getitem SYMS symbol) as [sym|]; simpl; [eauto|discriminate].
Qed.

(** [generate_signal] once the guard, the frame length and the
    volatility pre-filter are out of the way. *)
Lemma generate_signal_open (CONFIG : Config) (SYMS : gmap string SymbolConfig)
    sys df symbol balance history current :
  guard_open CONFIG sys ->
  (2 <= length df)%nat ->
  last df = Some current ->
  passes_prefilter CONFIG df current ->
  generate_signal CONFIG SYMS sys (Some df) symbol balance history
  = match truthy (calculate_position_size CONFIG SYMS symbol balance
                    (if momentum_signal current then MOMENTUM else SWING)
                    (atr current) (close current) history) with
    | None => None
    | Some q =>
        match SYMS !! symbol with
        | None => None
        | Some sym =>
            if momentum_signal current
            then Some (make_signal sym symbol MOMENTUM q current)
            else if swing_signal current
                 then Some (make_signal sym symbol SWING q current)
                 else None
        end
    end.
Proof.
  intros Hg Hlen Hlast Hpre. unfold generate_signal.
  rewrite system_guard_open by assumption.
  destruct (Nat.ltb_spec (length df) 2) as [|_]; [lia|].
  unfold generate_signal_body, iloc_last. rewrite Hlast.
  destruct (last_Some_prev df Hlen) as [prev ->].
  unfold passes_prefilter, mean_atr in Hpre. unfold Qgtb.
  rewrite (proj2 (Qltb_ge _ _) Hpre).
  destruct (truthy _) as [q|]; [|reflexivity].
  unfold getitem.
  destruct (SYMS !! symbol) as [sym|]; simpl;
    destruct (momentum_signal current), (swing_signal current); reflexivity.
Qed.

End SignalFacts.

Section SignalClaims.
Import Py Sizer SignalGenerator SignalSpec.
Local Open Scope Q_scope.



End SignalClaims.

(** ** Position sizer *)

Section SizerFacts.
Import Py Sizer SizerSpec.
Local Open Scope Q_scope.

Lemma round_half_even_cases (x : Q) :
  round_half_even x = Qfloor x \/ round_half_even x = (Qfloor x + 1)%Z.
Proof.
  unfold round_half_even.
  destruct (Qltb _ _); [now left|].
  destruct (Qltb _ _); [now right|].
  destruct (Z.even _); [now left|now right].
Qed.

Lemma round_half_even_mono (x y : Q) :
  x <= y -> (round_half_even x <= round_half_even y)%Z.
Proof.
  intros Hxy. pose proof (Qfloor_resp_le x y Hxy) as Hf.
  destruct (Z.eq_dec (Qfloor x) (Qfloor y)) as [E|NE].
  - unfold round_half_even. rewrite <- E.
    destruct (Qltb (x - inject_Z (Qfloor x)) 0.5) eqn:A.
    { repeat destruct (Qltb _ _); try destruct (Z.even _); lia. }
    apply Qltb_ge in A.
    destruct (Qltb 0.5 (x - inject_Z (Qfloor x))) eqn:B.
    { apply Qltb_lt in B.
      replace (Qltb (y - inject_Z (Qfloor x)) 0.5) with false
        by (symmetry; apply Qltb_ge; lra).
      replace (Qltb 0.5 (y - inject_Z (Qfloor x))) with true
        by (symmetry; apply Qltb_lt; lra).
      lia. }
    replace (Qltb (y - inject_Z (Qfloor x)) 0.5) with false
      by (symmetry; apply Qltb_ge; lra).
    destruct (Qltb 0.5 (y - inject_Z (Qfloor x)));
      destruct (Z.even _); lia.
  - destruct (round_half_even_cases x) as [-> | ->],
             (round_half_even_cases y) as [-> | ->]; lia.
Qed.

Lemma round_half_even_upper (x : Q) :
  inject_Z (round_half_even x) <= x + 0.5.
Proof.
  pose proof (Qfloor_le x) as Hf. unfold round_half_even.
  destruct (Qltb (x - inject_Z (Qfloor x)) 0.5) eqn:A; [lra|].
  apply Qltb_ge in A.
  destruct (Qltb 0.5 (x - inject_Z (Qfloor x))) eqn:B.
  { rewrite inject_Z_plus. pose proof (Qlt_floor x) as Hl.
    rewrite inject_Z_plus in Hl. change (inject_Z 1) with 1 in *. lra. }
  apply Qltb_ge in B.
  destruct (Z.even _); [lra|].
  rewrite inject_Z_plus. change (inject_Z 1) with 1. lra.
Qed.

#[global] Instance round_half_even_proper : Proper (Qeq ==> eq) round_half_even.
Proof.
  intros x y H. unfold round_half_even.
  rewrite (Qfloor_comp _ _ H).
  assert (E : x - inject_Z (Qfloor y) == y - inject_Z (Qfloor y))
    by (rewrite H; reflexivity).
  rewrite (Qltb_proper _ _ E 0.5 0.5 (Qeq_refl _)).
  rewrite (Qltb_proper 0.5 0.5 (Qeq_refl _) _ _ E).
  reflexivity.
Qed.

Lemma round5_proper (x y : Q) : x == y -> round5 x = round5 y.
Proof.
  intros H. unfold round5, round_at.
  assert (E : x * 100000 == y * 100000) by (rewrite H; reflexivity).
  now rewrite (round_half_even_proper _ _ E).
Qed.

Lemma round5_mono (x y : Q) : x <= y -> round5 x <= round5 y.
Proof.
  intros H. unfold round5, round_at.
  assert (Hm : (round_half_even (x * 100000) <= round_half_even (y * 100000))%Z)
    by (apply round_half_even_mono; lra).
  rewrite Zle_Qle in Hm.
  apply Qle_shift_div_l; [reflexivity|].
  set (a := inject_Z (round_half_even (x * 100000))) in *.
  set (b := inject_Z (round_half_even (y * 100000))) in *.
  assert (E : a / 100000 * 100000 == a) by (field).
  rewrite E. exact Hm.
Qed.

Lemma round5_upper (x : Q) : round5 x <= x + 0.000005.
Proof.
  unfold round5, round_at.
  pose proof (round_half_even_upper (x * 100000)) as H.
  apply Qle_shift_div_r; [reflexivity|]. lra.
Qed.

Lemma div_Ok_inv (a b q : Q) : div a b = Ok q -> ~ b == 0 /\ q = a / b.
Proof.
  unfold div. destruct (Qeq_bool b 0) eqn:E; [discriminate|].
  intros [= <-]. split; [|reflexivity].
  intros H. apply Qeq_bool_iff in H. congruence.
Qed.

(** A quantity returned by the sizer is the rounding of the formula of
    the specification, which is then at least the minimum quantity and
    was computed without dividing by zero. *)
Lemma calculate_position_size_Some (CONFIG : Config)
    (SYMS : gmap string SymbolConfig) symbol balance type a p history q :
  calculate_position_size CONFIG SYMS symbol balance type a p history
    = Some q ->
  exists risk sym c,
    (if ParameterOptimizer.nonempty history
        && (0 <? Z.of_nat (length history))%Z
     then ParameterOptimizer.optimize_risk CONFIG history
     else Ok (RISK_PERCENT CONFIG)) = Ok risk /\
    SYMS !! symbol = Some sym /\
    ~ p == 0 /\ ~ stop_multiplier sym type * a == 0 /\
    c == quantity sym (endswith symbol "USDT") risk balance type a p /\
    min_qty sym <= c /\ q = round5 c.
Proof.
  unfold calculate_position_size, position_size_body, try_except.
  destruct (if _ && _ then _ else _) as [risk|]; simpl; [|discriminate].
  unfold getitem. destruct (SYMS !! symbol) as [sym|]; simpl; [|discriminate].
  destruct (div a p) as [ratio|] eqn:Hr; simpl; [|discriminate].
  apply div_Ok_inv in Hr as [Hp ->].
  destruct (div _ (stop_multiplier sym type * a)) as [ps|] eqn:Hps; simpl;
    [|discriminate].
  apply div_Ok_inv in Hps as [Hm ->].
  rewrite (div_Ok (max_position_usd sym) p Hp). simpl.
  assert (Hv : min (a / p * 100) 5.0 == volAdj a p).
  { unfold volAdj. rewrite min_Qmin.
    destruct (Q.min_spec (a / p * 100) 5.0) as [[? ->]|[? ->]];
      destruct (Q.min_spec (a / p * 100) 5) as [[? ->]|[? ->]]; lra. }
  destruct (endswith symbol "USDT").
  - rewrite (div_Ok _ p Hp). simpl.
    destruct (Qltb _ (min_qty sym)) eqn:Hq; [discriminate|].
    apply Qltb_ge in Hq.
    match goal with |- Some (round5 ?c) = Some _ -> _ =>
      intros [= <-]; exists risk, sym, c end.
    split; [reflexivity|]. split; [reflexivity|].
    split; [exact Hp|]. split; [exact Hm|].
    split; [|split; [exact Hq|reflexivity]].
    rewrite min_Qmin. unfold quantity, discount. cbv zeta.
    apply Q.min_compat; [|reflexivity]. rewrite Hv. field.
    repeat split; try assumption; intros E; apply Hm; rewrite E; ring.
  - simpl.
    destruct (Qltb _ (min_qty sym)) eqn:Hq; [discriminate|].
    apply Qltb_ge in Hq.
    match goal with |- Some (round5 ?c) = Some _ -> _ =>
      intros [= <-]; exists risk, sym, c end.
    split; [reflexivity|]. split; [reflexivity|].
    split; [exact Hp|]. split; [exact Hm|].
    split; [|split; [exact Hq|reflexivity]].
    rewrite min_Qmin. unfold quantity, discount. cbv zeta.
    apply Q.min_compat; [|reflexivity]. rewrite Hv. field.
    repeat split; try assumption; intros E; apply Hm; rewrite E; ring.
Qed.

Lemma discount_lower (a p : Q) : 0.5 <= discount a p.
Proof.
  unfold discount, volAdj.
  destruct (Q.min_spec (a / p * 100) 5) as [[? ->]|[? ->]]; lra.
Qed.

Lemma discount_upper (a p : Q) : 0 < p -> 0 <= a -> discount a p <= 1.
Proof.
  intros Hp Ha. unfold discount, volAdj.
  assert (0 <= a / p) by (apply Qle_shift_div_l; lra).
  destruct (Q.min_spec (a / p * 100) 5) as [[? ->]|[? ->]]; lra.
Qed.

Lemma Qinv_antitone (a b : Q) : 0 < a -> a <= b -> / b <= / a.
Proof.
  intros Ha Hab.
  assert (E : forall x, / x == 1 / x) by (intros x; unfold Qdiv; ring).
  rewrite (E a), (E b).
  apply Qle_shift_div_l; [assumption|].
  assert (E2 : 1 / b * a == a / b) by (unfold Qdiv; ring). rewrite E2.
  apply Qle_shift_div_r; lra.
Qed.

Lemma discount_antitone (p a1 a2 : Q) :
  0 < p -> a1 <= a2 -> discount a2 p <= discount a1 p.
Proof.
  intros Hp Ha. unfold discount, volAdj.
  assert (H : a1 / p * 100 <= a2 / p * 100).
  { unfold Qdiv. assert (0 < / p) by now apply Qinv_lt_0_compat.
    nra. }
  destruct (Q.min_spec (a1 / p * 100) 5) as [[? ->]|[? ->]];
    destruct (Q.min_spec (a2 / p * 100) 5) as [[? ->]|[? ->]]; lra.
Qed.

(** At a fixed price the formula does not increase with the ATR, as long
    as it stays non-negative. *)
Lemma quantity_antitone (sym : SymbolConfig) (usdt : bool)
    (risk balance : Q) (type : Strategy) (p a1 a2 : Q) :
  0 < p -> 0 < a1 -> a1 <= a2 ->
  ~ stop_multiplier sym type == 0 ->
  0 <= quantity sym usdt risk balance type a2 p ->
  quantity sym usdt risk balance type a2 p
  <= quantity sym usdt risk balance type a1 p.
Proof.
  intros Hp Ha1 Ha Hm Hq. unfold quantity in *. cbv zeta in *.
  set (K := balance * (risk * risk_weight sym)) in *.
  set (m := stop_multiplier sym type) in *.
  set (M := max_position_usd sym / p) in *.
  pose proof (discount_lower a2 p) as Hg2.
  pose proof (discount_antitone p a1 a2 Hp Ha) as Hg.
  set (g1 := discount a1 p) in *. set (g2 := discount a2 p) in *.
  assert (Hi : / a2 <= / a1) by (apply Qinv_antitone; assumption).
  assert (Hi2 : 0 < / a2) by (apply Qinv_lt_0_compat; lra).
  assert (Hip : 0 < / p) by (apply Qinv_lt_0_compat; lra).
  set (u := if usdt then / p else 1).
  assert (Hu : 0 < u) by (unfold u; destruct usdt; lra).
  set (raw := fun g a => if usdt then K * g / (m * a) / p else K * g / (m * a)).
  assert (Hraw : forall g a, ~ a == 0 -> raw g a == (K * / m) * (g * / a * u)).
  { intros g a Hna. unfold raw, u.
    destruct usdt; field; repeat split; solve [assumption|lra]. }
  fold (raw g2 a2) in Hq |- *. fold (raw g1 a1).
  assert (Ht2 : 0 < g2 * / a2 * u).
  { apply Qmult_lt_0_compat; [apply Qmult_lt_0_compat|]; lra. }
  assert (Ht : g2 * / a2 * u <= g1 * / a1 * u).
  { apply Qmult_le_compat_r; [|lra].
    apply Qle_trans with (g2 * / a1).
    - apply Qmult_le_l; lra.
    - apply Qmult_le_compat_r; [lra|]. lra. }
  assert (Hr2 : 0 <= raw g2 a2).
  { destruct (Q.min_spec (raw g2 a2) M) as [[? E]|[? E]];
      rewrite E in Hq; lra. }
  assert (Hc : 0 <= K * / m).
  { destruct (Qlt_le_dec (K * / m) 0) as [Hneg|]; [|assumption].
    exfalso. rewrite Hraw in Hr2 by lra.
    set (c := K * / m) in *. set (t := g2 * / a2 * u) in *.
    assert (c * t < 0) by nra. lra. }
  assert (Hrr : raw g2 a2 <= raw g1 a1).
  { rewrite !Hraw by lra. rewrite !(Qmult_comm (K * / m)).
    apply Qmult_le_compat_r; assumption. }
  apply Q.min_le_compat_r. exact Hrr.
Qed.

End SizerFacts.

Section SizerClaims.
Import Py Sizer SizerSpec.
Local Open Scope Q_scope.

(** With balance, symbol configuration and strategy fixed, lowering the
    price from 30000 to 20000 at an ATR of 100 raises the ATR/price ratio
    and yet raises the quantity; and at a price of 60000 the rounded
    quantity 0.01667 is above 1000/60000. *)
Lemma position_size_not_antitone_in_ratio :
  (exists q1 q2,
     calculate_position_size (Sample.config 0.02) Sample.table "BTCUSDT"
       1000000 MOMENTUM 100 30000 [] = Some q1 /\
     calculate_position_size (Sample.config 0.02) Sample.table "BTCUSDT"
       1000000 MOMENTUM 100 20000 [] = Some q2 /\
     100 / 30000 < 100 / 20000 /\ q1 < q2) /\
  (exists q,
     calculate_position_size (Sample.config 0.02) Sample.table "BTCUSDT"
       100000000 MOMENTUM 100 60000 [] = Some q /\
     max_position_usd Sample.btc / 60000 < q).
Proof.
  split.
  - exists 0.00322, 0.00475. repeat split.
  - exists 0.01667. repeat split.
Qed.

(** C7 (amended).  With balance, symbol configuration, strategy, trade
    history and price fixed (price and ATR positive, minimum quantity not
    negative), the quantity returned by the sizer does not increase when
    the ATR increases; the volatility discount factor
    1 - min(atr/price*100, 5)*0.1 is never below 0.5; and a returned
    quantity is the rounding to five decimals of a quantity that does not
    exceed max_position_usd/price, hence exceeds it by at most 0.000005. *)
Theorem calculate_position_size_antitone (CONFIG : Config)
    (SYMS : gmap string SymbolConfig) (symbol : string) (balance : Q)
    (type : Strategy) (history : list Trade) (sym : SymbolConfig) :
  SYMS !! symbol = Some sym ->
  let size a p :=
    calculate_position_size CONFIG SYMS symbol balance type a p history in
  (forall p a1 a2 q1 q2,
      0 <= min_qty sym -> 0 < p -> 0 < a1 -> a1 <= a2 ->
      size a1 p = Some q1 -> size a2 p = Some q2 -> q2 <= q1) /\
  (forall a p, volAdj a p <= 5 /\ 0.5 <= discount a p) /\
  (forall a p q,
      size a p = Some q ->
      exists risk c,
        c == quantity sym (endswith symbol "USDT") risk balance type a p /\
        q = round5 c /\
        c <= max_position_usd sym / p /\
        q <= max_position_usd sym / p + 0.000005).
Proof.
  intros Hsym size. split; [|split].
  - intros p a1 a2 q1 q2 Hmin Hp Ha1 Ha H1 H2. subst size. cbv beta in *.
    apply calculate_position_size_Some in H1
      as (r1 & s1 & c1 & Hr1 & Hs1 & _ & Hm1 & Hc1 & _ & ->).
    apply calculate_position_size_Some in H2
      as (r2 & s2 & c2 & Hr2 & Hs2 & _ & Hm2 & Hc2 & Hq2 & ->).
    rewrite Hsym in Hs1, Hs2. injection Hs1 as <-. injection Hs2 as <-.
    rewrite Hr1 in Hr2. injection Hr2 as <-.
    apply round5_mono. rewrite Hc1, Hc2.
    apply quantity_antitone; try assumption.
    + intros E. apply Hm2. rewrite E. ring.
    + rewrite <- Hc2. lra.
  - intros a p. pose proof (discount_lower a p). split; [|assumption].
    unfold volAdj. apply Q.le_min_r.
  - intros a p q H. subst size. cbv beta in *.
    apply calculate_position_size_Some in H
      as (r & s & c & _ & Hs & _ & _ & Hc & _ & ->).
    rewrite Hsym in Hs. injection Hs as <-.
    assert (Hle : c <= max_position_usd sym / p).
    { rewrite Hc. unfold quantity. cbv zeta. apply Q.le_min_r. }
    exists r, c. repeat split; try assumption.
    pose proof (round5_upper c). lra.
Qed.

Lemma calculate_position_size_antitone_witness :
  (exists q1 q2,
     calculate_position_size (Sample.config 0.02) Sample.table "BTCUSDT"
       1000000 MOMENTUM 100 30000 [] = Some q1 /\
     calculate_position_size (Sample.config 0.02) Sample.table "BTCUSDT"
       1000000 MOMENTUM 200 30000 [] = Some q2 /\
     q2 <= q1) /\
  (exists q,
     calculate_position_size (Sample.config 0.02) Sample.table "BTCUSDT"
       100000000 MOMENTUM 100 60000 [] = Some q /\
     q <= max_position_usd Sample.btc / 60000 + 0.000005).
Proof.
  assert (Hsym : Sample.table !! "BTCUSDT" = Some Sample.btc) by reflexivity.
  split.
  - destruct (calculate_position_size_antitone (Sample.config 0.02)
                Sample.table "BTCUSDT" 1000000 MOMENTUM [] Sample.btc Hsym)
      as (Hmono & _ & _).
    exists 0.00322, 0.00156.
    assert (H1 : calculate_position_size (Sample.config 0.02) Sample.table
                   "BTCUSDT" 1000000 MOMENTUM 100 30000 [] = Some 0.00322)
      by reflexivity.
    assert (H2 : calculate_position_size (Sample.config 0.02) Sample.table
                   "BTCUSDT" 1000000 MOMENTUM 200 30000 [] = Some 0.00156)
      by reflexivity.
    split; [exact H1|]. split; [exact H2|].
    apply (Hmono 30000 100 200 _ _); try assumption; try discriminate;
      reflexivity.
  - destruct (calculate_position_size_antitone (Sample.config 0.02)
                Sample.table "BTCUSDT" 100000000 MOMENTUM [] Sample.btc Hsym)
      as (_ & _ & Hcap).
    exists 0.01667.
    assert (H : calculate_position_size (Sample.config 0.02) Sample.table
                  "BTCUSDT" 100000000 MOMENTUM 100 60000 [] = Some 0.01667)
      by reflexivity.
    split; [exact H|].
    destruct (Hcap _ _ _ H) as (r & c & _ & _ & _ & Hq). exact Hq.
Defined.

End SizerClaims.

(** ** Computations that keep a relation between the states *)

Create HintDb keeps discriminated.

Section Keeps.
Import Py IO.
Variable R : State -> State -> Prop.
Hypothesis R_refl : forall st, R st st.
Hypothesis R_trans : forall a b c, R a b -> R b c -> R a c.

Lemma keeps_ret {A} (a : A) : keeps R (ret a).
Proof. intros st. apply R_refl. Qed.

Lemma keeps_mret {A} (a : A) : keeps R (mret a : M A).
Proof. intros st. apply R_refl. Qed.

Lemma keeps_raise {A} (e : exn) : keeps R (raise e : M A).
Proof. intros st. apply R_refl. Qed.

Lemma keeps_lift {A} (r : result A) : keeps R (lift r).
Proof. intros st. apply R_refl. Qed.

Lemma keeps_gets {A} (f : State -> A) : keeps R (gets f).
Proof. intros st. apply R_refl. Qed.

Lemma keeps_time : keeps R time.
Proof. apply keeps_gets. Qed.

Lemma keeps_modify (f : State -> State) :
  (forall st, R st (f st)) -> keeps R (modify f).
Proof. intros H st. apply H. Qed.

Lemma keeps_bind {A B} (m : M A) (k : A -> M B) :
  keeps R m -> (forall a, keeps R (k a)) -> keeps R (m ≫= k).
Proof.
  intros Hm Hk st. unfold mbind, M_bind, bind.
  specialize (Hm st). destruct (m st) as [[a|e] st1]; simpl in *.
  - eapply R_trans; [exact Hm|]. apply Hk.
  - exact Hm.
Qed.

Lemma keeps_try_catch {A} (m : M A) (h : exn -> M A) :
  keeps R m -> (forall e, keeps R (h e)) -> keeps R (try_catch m h).
Proof.
  intros Hm Hh st. unfold try_catch.
  specialize (Hm st). destruct (m st) as [[a|e] st1]; simpl in *.
  - exact Hm.
  - eapply R_trans; [exact Hm|]. apply Hh.
Qed.

Lemma keeps_if {A} (b : bool) (m1 m2 : M A) :
  keeps R m1 -> keeps R m2 -> keeps R (if b then m1 else m2).
Proof. now destruct b. Qed.

End Keeps.

#[global] Hint Resolve keeps_ret keeps_mret keeps_raise keeps_lift keeps_gets
  keeps_time keeps_bind keeps_try_catch keeps_if : keeps.

(** ** Order manager: what the pre-execution check leaves untouched *)

Section QuietFacts.
Import Py IO Client OrderManager.
Local Open Scope Q_scope.

Lemma quiet_refl (st : State) : quiet st st.
Proof. repeat split. exists []. split; [reflexivity|constructor]. Qed.

Lemma quiet_trans (a b c : State) : quiet a b -> quiet b c -> quiet a c.
Proof.
  intros (Ho & Hh & Hm & n1 & Hr & Hf) (Ho' & Hh' & Hm' & n2 & Hr' & Hf').
  repeat split; try congruence.
  exists (n2 ++ n1). split.
  - rewrite Hr', Hr. now rewrite app_assoc.
  - apply Forall_app. now split.
Qed.

Lemma quiet_sleep (d : Q) : keeps quiet (sleep d).
Proof. intros st. repeat split. exists []. split; [reflexivity|constructor]. Qed.

Lemma quiet_send_telegram (n : Notice) : keeps quiet (send_telegram n).
Proof. intros st. repeat split. exists []. split; [reflexivity|constructor]. Qed.

Lemma quiet_safe_request {A} (X : Exchange) (req : Request)
    (answer : list Request -> result A) :
  places_order req = false -> keeps quiet (safe_request X req answer).
Proof.
  intros Hreq st. unfold safe_request.
  unfold mbind, M_bind, bind, gets, modify, sleep, ret, raise, send_telegram.
  simpl.
  destruct (Qltb _ _); simpl;
    destruct (answer _) as [a|[| | |code|]]; simpl;
    (repeat split; exists [req]; split;
     [reflexivity|repeat constructor; assumption]).
Qed.

Ltac quiet_step :=
  match goal with
  | |- keeps quiet (_ ≫= _) => apply (keeps_bind quiet quiet_trans); [|intros ?]
  | |- keeps quiet (try_catch _ _) =>
      apply (keeps_try_catch quiet quiet_trans); [|intros ?]
  | |- keeps quiet (ret _) => apply (keeps_ret quiet quiet_refl)
  | |- keeps quiet (mret _) => apply (keeps_mret quiet quiet_refl)
  | |- keeps quiet (raise _) => apply (keeps_raise quiet quiet_refl)
  | |- keeps quiet (lift _) => apply (keeps_lift quiet quiet_refl)
  | |- keeps quiet (gets _) => apply (keeps_gets quiet quiet_refl)
  | |- keeps quiet time => apply (keeps_time quiet quiet_refl)
  | |- keeps quiet (sleep _) => apply quiet_sleep
  | |- keeps quiet (send_telegram _) => apply quiet_send_telegram
  | |- keeps quiet (safe_request _ _ _) =>
      apply quiet_safe_request; reflexivity
  | |- keeps quiet (if ?b then _ else _) => destruct b
  | |- keeps quiet (match ?x with _ => _ end) => destruct x
  end.

Lemma quiet_fetch_klines X CONFIG sys symbol interval limit :
  keeps quiet (fetch_klines X CONFIG sys symbol interval limit).
Proof. unfold fetch_klines, system_guard_io. repeat quiet_step. Qed.

Lemma quiet_get_current_price_loop X CONFIG sys symbol retries i remaining :
  keeps quiet (get_current_price_loop X CONFIG sys symbol retries i remaining).
Proof.
  revert i. induction remaining as [|n IH]; intros i; simpl.
  - quiet_step.
  - repeat first [apply IH | apply quiet_fetch_klines | quiet_step].
Qed.

Lemma quiet_get_current_price X CONFIG sys symbol :
  keeps quiet (get_current_price X CONFIG sys symbol).
Proof. apply quiet_get_current_price_loop. Qed.

Lemma quiet_get_account_balance X CONFIG :
  keeps quiet (_get_account_balance X CONFIG).
Proof. unfold _get_account_balance. repeat quiet_step. Qed.

(** The pre-execution check never touches the order book of the manager
    and never places an order, whatever its verdict. *)
Lemma quiet_pre_execution_check X CONFIG sys signal :
  keeps quiet (_pre_execution_check X CONFIG sys signal).
Proof.
  unfold _pre_execution_check.
  repeat first [apply quiet_get_current_price
               | apply quiet_get_account_balance | quiet_step].
Qed.

End QuietFacts.

(** ** Order manager: the pre-execution check *)

Section PreCheckFacts.
Import Py IO Client OrderManager.
Local Open Scope Q_scope.

Lemma get_account_balance_Ok X CONFIG st :
  exists balance, fst (_get_account_balance X CONFIG st) = Ok balance.
Proof.
  unfold _get_account_balance, mbind, M_bind, bind, try_catch.
  destruct (TRADING_TYPE CONFIG);
    destruct (safe_request _ _ _ st) as [[l|e] st1]; simpl;
    try destruct (ab_amount <$> List.find _ l); simpl; eauto.
Qed.

(** The verdict of the check when one of the three tests fails. *)
Lemma pre_execution_check_false X CONFIG sys signal st p st1 bal st2 :
  get_current_price X CONFIG sys (sg_symbol signal) st = (Ok (Some p), st1) ->
  _get_account_balance X CONFIG st1 = (Ok bal, st2) ->
  ~ sg_price signal == 0 ->
  ~ LEVERAGE CONFIG == 0 ->
  MAX_SLIPPAGE CONFIG < Qabs (p - sg_price signal) / sg_price signal \/
  bal * 0.8 < sg_size signal * p / LEVERAGE CONFIG \/
  (MAX_OPEN_ORDERS CONFIG <= Z.of_nat (size (open_orders st)))%Z ->
  fst (_pre_execution_check X CONFIG sys signal st) = Ok false.
Proof.
  intros Hprice Hbal Hsp Hlev Hfail.
  pose proof (quiet_get_current_price X CONFIG sys (sg_symbol signal) st) as Hq1.
  pose proof (quiet_get_account_balance X CONFIG st1) as Hq2.
  rewrite Hprice in Hq1. rewrite Hbal in Hq2. simpl in Hq1, Hq2.
  destruct Hq1 as (Ho1 & _). destruct Hq2 as (Ho2 & _).
  unfold _pre_execution_check, mbind, M_bind, bind. rewrite Hprice.
  unfold SignalGenerator.truthy.
  destruct (Qeq_bool p 0); [reflexivity|].
  unfold lift. rewrite (div_Ok _ _ Hsp).
  destruct (Qgtb _ (MAX_SLIPPAGE CONFIG)) eqn:Es; [reflexivity|].
  apply Qltb_ge in Es.
  rewrite Hbal. rewrite (div_Ok _ _ Hlev).
  destruct (Qgtb _ (bal * 0.8)) eqn:Em; [reflexivity|].
  apply Qltb_ge in Em.
  unfold gets. rewrite Ho2, Ho1.
  destruct (Z.leb_spec (MAX_OPEN_ORDERS CONFIG)
              (Z.of_nat (size (open_orders st)))) as [|Hlt]; [reflexivity|].
  exfalso. destruct Hfail as [H|[H|H]]; [lra|lra|lia].
Qed.

End PreCheckFacts.

Section OrderClaims.
Import Py IO Client OrderManager.
Local Open Scope Q_scope.



End OrderClaims.

(** ** Order manager: monitoring *)

Section MonitorFacts.
Import Py IO Client OrderManager.
Local Open Scope Q_scope.

Variable X : Exchange.
Hypothesis X_latency : nonneg_latency X.

Lemma steady_refl (st : State) : steady st st.
Proof. repeat split. apply Qle_refl. Qed.

Lemma steady_trans (a b c : State) : steady a b -> steady b c -> steady a c.
Proof.
  intros (Ho & Hh & Hc) (Ho' & Hh' & Hc').
  repeat split; try congruence. eapply Qle_trans; eassumption.
Qed.

(** A call to the exchange logs one request and lets time pass. *)
Lemma safe_request_steady {A} (req : Request)
    (answer : list Request -> result A) (st : State) :
  steady st (snd (safe_request X req answer st)) /\
  requests (snd (safe_request X req answer st)) = req :: requests st.
Proof.
  pose proof (X_latency (requests st) req) as Hl.
  unfold safe_request.
  unfold mbind, M_bind, bind, gets, modify, sleep, ret, raise, send_telegram.
  simpl.
  destruct (Qltb (clock st - last_call st) 0.1) eqn:E; simpl;
    [apply Qltb_lt in E|];
    destruct (answer _) as [a|[| | |code|]]; simpl;
    (split; [repeat split; simpl; lra|reflexivity]).
Qed.

(** One round of the loop either ends the monitoring with the order
    removed, or leaves the books as they were and takes at least 5 s. *)
Lemma monitor_round_cases CONFIG order_id signal st :
  exists r st',
    monitor_round X CONFIG order_id signal st = (Ok r, st') /\
    match r with
    | Some FILLED =>
        open_orders st' = delete order_id (open_orders st) /\
        exists trade,
          trade_history st' = trade_history st ++ [trade] /\
          tr_symbol trade = sg_symbol signal /\
          tr_signal_type trade = sg_type signal
    | Some CANCELED =>
        open_orders st' = delete order_id (open_orders st) /\
        trade_history st' = trade_history st
    | Some TIMED_OUT => False
    | None =>
        open_orders st' = open_orders st /\
        trade_history st' = trade_history st /\
        clock st + 5 <= clock st'
    end.
Proof.
  unfold monitor_round.
  set (req := match TRADING_TYPE CONFIG with
              | Futures => futures_get_order (sg_symbol signal) order_id
              | Spot => get_order (sg_symbol signal) order_id
              end).
  assert (Hreq : (match TRADING_TYPE CONFIG with
                  | Futures =>
                      safe_request X (futures_get_order (sg_symbol signal) order_id)
                        (fun past => query_order X past (sg_symbol signal) order_id)
                  | Spot =>
                      safe_request X (get_order (sg_symbol signal) order_id)
                        (fun past => query_order X past (sg_symbol signal) order_id)
                  end)
                 = safe_request X req
                     (fun past => query_order X past (sg_symbol signal) order_id))
    by (unfold req; destruct (TRADING_TYPE CONFIG); reflexivity).
  rewrite Hreq. clear Hreq.
  destruct (safe_request_steady req
              (fun past => query_order X past (sg_symbol signal) order_id) st)
    as [(Ho & Hh & Hc) _].
  unfold try_catch, mbind, M_bind, bind.
  destruct (safe_request X req _ st) as [[os|e] sta]; simpl in *.
  2:{ eexists None, _. split; [reflexivity|]. simpl. repeat split; try assumption. lra. }
  destruct (status os) as [s|]; simpl.
  2:{ eexists None, _. split; [reflexivity|]. simpl. repeat split; try assumption. lra. }
  destruct (String.eqb s "FILLED").
  - destruct (executedQty os) as [qty|]; simpl.
    2:{ eexists None, _. split; [reflexivity|]. simpl. repeat split; try assumption. lra. }
    destruct (avgPrice os) as [price|]; simpl.
    2:{ eexists None, _. split; [reflexivity|]. simpl. repeat split; try assumption. lra. }
    eexists (Some FILLED), _. split; [reflexivity|]. simpl.
    split; [now rewrite Ho|].
    eexists. split; [rewrite Hh; reflexivity|]. split; reflexivity.
  - destruct (String.eqb s "CANCELED").
    + eexists (Some CANCELED), _. split; [reflexivity|]. simpl.
      split; [now rewrite Ho|assumption].
    + eexists None, _. split; [reflexivity|]. simpl.
      repeat split; try assumption. lra.
Qed.

(** After the loop: the cancel request is sent, and whether or not it
    succeeds the order leaves the mapping. *)
Lemma monitor_timeout_spec CONFIG order_id signal st :
  exists st',
    monitor_timeout X CONFIG order_id signal st = (Ok TIMED_OUT, st') /\
    open_orders st' = delete order_id (open_orders st) /\
    trade_history st' = trade_history st /\
    exists req, requests st' = req :: requests st /\
                (req = futures_cancel_order (sg_symbol signal) order_id \/
                 req = cancel_order (sg_symbol signal) order_id).
Proof.
  unfold monitor_timeout.
  set (req := match TRADING_TYPE CONFIG with
              | Futures => futures_cancel_order (sg_symbol signal) order_id
              | Spot => cancel_order (sg_symbol signal) order_id
              end).
  assert (Hreq : (match TRADING_TYPE CONFIG with
                  | Futures =>
                      safe_request X (futures_cancel_order (sg_symbol signal) order_id)
                        (fun past => cancel X past (sg_symbol signal) order_id)
                  | Spot =>
                      safe_request X (cancel_order (sg_symbol signal) order_id)
                        (fun past => cancel X past (sg_symbol signal) order_id)
                  end)
                 = safe_request X req
                     (fun past => cancel X past (sg_symbol signal) order_id))
    by (unfold req; destruct (TRADING_TYPE CONFIG); reflexivity).
  rewrite Hreq. clear Hreq.
  destruct (safe_request_steady req
              (fun past => cancel X past (sg_symbol signal) order_id) st)
    as [(Ho & Hh & Hc) Hr].
  assert (Hwhich : req = futures_cancel_order (sg_symbol signal) order_id \/
                   req = cancel_order (sg_symbol signal) order_id)
    by (unfold req; destruct (TRADING_TYPE CONFIG); auto).
  unfold try_catch, mbind, M_bind, bind.
  destruct (safe_request X req _ st) as [[v|e] sta]; simpl in *;
    (eexists; split; [reflexivity|]; simpl;
     split; [now rewrite Ho|]; split; [assumption|];
     exists req; split; assumption).
Qed.

Lemma monitor_loop_S fuel CONFIG order_id signal start :
  monitor_loop (S fuel) X CONFIG order_id signal start
  = (now ← time;
     if Qltb (now - start) 120 then
       r ← monitor_round X CONFIG order_id signal;
       match r with
       | Some o => ret (Some o)
       | None => monitor_loop fuel X CONFIG order_id signal start
       end
     else o ← monitor_timeout X CONFIG order_id signal; ret (Some o)).
Proof. reflexivity. Qed.

(** The loop ends within [n] further rounds when at most [5 n] seconds
    of the two minutes remain. *)
Lemma monitor_loop_ends CONFIG order_id signal start (n : nat) :
  forall st,
    120 - (clock st - start) <= 5 * inject_Z (Z.of_nat n) ->
    exists o st',
      monitor_loop (S n) X CONFIG order_id signal start st
      = (Ok (Some o), st') /\
      ended order_id signal st st' o.
Proof.
  induction n as [|n IH]; intros st Hrem.
  - (* no time left: the loop condition fails *)
    change (inject_Z (Z.of_nat 0)) with 0 in Hrem.
    simpl. unfold mbind, M_bind, bind, time, gets.
    replace (Qltb (clock st - start) 120) with false
      by (symmetry; apply Qltb_ge; lra).
    destruct (monitor_timeout_spec CONFIG order_id signal st)
      as (st' & -> & Ho & Hh & req & Hreq & Hwhich).
    exists TIMED_OUT, st'. split; [reflexivity|].
    split; [assumption|]. split; [assumption|]. eauto.
  - rewrite monitor_loop_S.
    unfold mbind at 1. unfold M_bind, bind at 1. unfold time, gets.
    destruct (Qltb (clock st - start) 120) eqn:E.
    + unfold mbind at 1. unfold bind at 1.
      destruct (monitor_round_cases CONFIG order_id signal st)
        as (r & st1 & -> & Hr).
      destruct r as [[| |]|].
      * exists FILLED, st1. split; [reflexivity|]. exact Hr.
      * exists CANCELED, st1. split; [reflexivity|]. exact Hr.
      * contradiction.
      * destruct Hr as (Ho & Hh & Hc).
        destruct (IH st1) as (o & st' & Hrun & He & Hout).
        { rewrite Nat2Z.inj_succ, <- Z.add_1_r, inject_Z_plus in Hrem.
          change (inject_Z 1) with 1 in Hrem. lra. }
        exists o, st'. split; [exact Hrun|].
        split; [now rewrite He, Ho|].
        destruct o; rewrite ?Hh in Hout; exact Hout.
    + unfold mbind at 1. unfold bind at 1.
      destruct (monitor_timeout_spec CONFIG order_id signal st)
        as (st' & -> & Ho & Hh & req & Hreq & Hwhich).
      exists TIMED_OUT, st'. split; [reflexivity|].
      split; [assumption|]. split; [assumption|]. eauto.
Qed.

End MonitorFacts.

Section MonitorClaims.
Import Py IO Client OrderManager.
Local Open Scope Q_scope.

(** C2.  Monitoring an order ends (within 25 tests of the two-minute loop
    condition, calls to the exchange taking no negative time) at exactly
    one of the three exits of [_monitor_order], filled, canceled or timed
    out, and at each of them the entry of the order has been removed from
    the managed-order mapping; on the time-out exit this holds whether or
    not the cancel request succeeds. *)
Theorem monitor_order_terminal (X : Exchange) (CONFIG : Config)
    (order_id : PyKey) (signal : Signal) (st : State) (fuel : nat) :
  nonneg_latency X ->
  (25 <= fuel)%nat ->
  exists o st',
    _monitor_order fuel X CONFIG order_id signal st = (Ok (Some o), st') /\
    open_orders st' !! order_id = None /\
    ended order_id signal st st' o.
Proof.
  intros Hlat Hfuel. unfold _monitor_order.
  unfold mbind, M_bind, bind, time, gets.
  destruct fuel as [|n]; [lia|].
  destruct (monitor_loop_ends X Hlat CONFIG order_id signal (clock st) n st)
    as (o & st' & Hrun & Hend).
  { assert (Hn : (24 <= Z.of_nat n)%Z) by lia.
    rewrite Zle_Qle in Hn. change (inject_Z 24) with 24 in Hn. lra. }
  exists o, st'. split; [exact Hrun|]. split; [|exact Hend].
  destruct Hend as [-> _]. apply lookup_delete_eq.
Qed.

(** An order whose status never arrives and whose cancellation is refused
    by the exchange: the monitoring times out and the order is forgotten
    all the same. *)
Lemma monitor_order_terminal_witness :
  exists st',
    _monitor_order 25 (Sample.exchange 30000 (Raise ConnectionError))
      (Sample.config 0.02) (KInt 42) Sample.signal Sample.tracking_state
    = (Ok (Some TIMED_OUT), st') /\
    open_orders st' !! KInt 42 = None.
Proof.
  assert (Hlat : nonneg_latency (Sample.exchange 30000 (Raise ConnectionError)))
    by (intros past req; discriminate).
  destruct (monitor_order_terminal
              (Sample.exchange 30000 (Raise ConnectionError))
              (Sample.config 0.02) (KInt 42) Sample.signal
              Sample.tracking_state 25 Hlat (le_n 25))
    as (o & st' & Hrun & Hgone & _).
  exists st'. split; [|exact Hgone].
  rewrite Hrun. f_equal. f_equal. f_equal.
  apply (f_equal fst) in Hrun. vm_compute in Hrun.
  now injection Hrun as <-.
Defined.

End MonitorClaims.


(** ** Recovery store *)

Section JsonFacts.
Import PyJson.

Lemma dict_set_fresh (k : PyKey) (v : PyVal) (d : list (PyKey * PyVal)) :
  k ∉ map fst d -> dict_set k v d = d ++ [(k, v)].
Proof.
  induction d as [|[k' v'] d IH]; intros Hk; simpl; [reflexivity|].
  simpl in Hk. apply not_elem_of_cons in Hk as [Hne Hk].
  rewrite decide_False by assumption. now rewrite IH.
Qed.

(** Loading what was dumped from a dictionary with distinct string keys
    restores its items in order, each value having gone through the same
    round trip. *)
Lemma load_dump_items (d acc : list (PyKey * PyVal)) :
  forallb (fun kv => is_str_key (fst kv)) d = true ->
  NoDup (map fst acc ++ map fst d) ->
  fold_left (fun acc kv => dict_set (KStr (fst kv)) (load (snd kv)) acc)
    (map (fun kv => (key_str (fst kv), dump (snd kv))) d) acc
  = acc ++ map (fun kv => (fst kv, load (dump (snd kv)))) d.
Proof.
  revert acc. induction d as [|[k v] d IH]; intros acc Hs Hnd; simpl.
  - now rewrite app_nil_r.
  - simpl in Hs. apply andb_true_iff in Hs as [Hk Hs].
    destruct k as [z|name]; [discriminate|]. simpl.
    simpl in Hnd.
    assert (Hfresh : KStr name ∉ map fst acc).
    { apply NoDup_app in Hnd as (_ & Hdis & _).
      intros Hin. apply (Hdis _ Hin). left. }
    rewrite dict_set_fresh by assumption.
    rewrite IH; [now rewrite <- app_assoc|assumption|].
    rewrite map_app. simpl. rewrite <- app_assoc. exact Hnd.
Qed.

Lemma str_keyed_keys (d : list (PyKey * PyVal)) :
  forallb (fun kv => is_str_key (fst kv) && str_keyed (snd kv)) d = true ->
  forallb (fun kv => is_str_key (fst kv)) d = true /\
  Forall (fun kv => str_keyed (snd kv) = true) d.
Proof.
  induction d as [|kv d IH]; simpl; [split; [reflexivity|constructor]|].
  rewrite !andb_true_iff. intros [[Hk Hv] Hd].
  destruct (IH Hd) as [IH1 IH2]. split; [now rewrite Hk|now constructor].
Qed.

(** A value with string keys only comes back unchanged. *)
Lemma load_dump_id (v : PyVal) : str_keyed v = true -> load (dump v) = v.
Proof.
  induction v as [| | | | |l IH|d IH] using PyVal_nested_ind; simpl;
    try reflexivity.
  - intros Hl. f_equal. rewrite List.map_map.
    induction IH as [|x l Hx _ IHl]; simpl in *; [reflexivity|].
    apply andb_true_iff in Hl as [Hx' Hl]. now rewrite Hx, IHl.
  - rewrite andb_true_iff, bool_decide_eq_true. intros [Hd Hnd].
    apply str_keyed_keys in Hd as [Hk Hv]. f_equal.
    rewrite (load_dump_items d [] Hk Hnd). simpl.
    clear Hk Hnd. induction IH as [|[k x] d Hx _ IHd]; simpl; [reflexivity|].
    inversion Hv as [|? ? Hx' Hv']; subst. simpl in *.
    now rewrite Hx, IHd.
Qed.

(** Whatever was dumped, the dictionaries that come back have string
    keys. *)
Lemma loaded_keys_str (items : list (string * Json))
    (acc : list (PyKey * PyVal)) :
  forallb (fun kv => is_str_key (fst kv)) acc = true ->
  forallb (fun kv => is_str_key (fst kv))
    (fold_left (fun acc kv => dict_set (KStr (fst kv)) (load (snd kv)) acc)
       items acc) = true.
Proof.
  revert acc. induction items as [|[name j] items IH]; intros acc Hacc;
    simpl; [assumption|].
  apply IH. clear IH.
  induction acc as [|[k v] acc IHacc]; simpl; [reflexivity|].
  simpl in Hacc. apply andb_true_iff in Hacc as [Hk Hacc].
  destruct (decide (KStr name = k)); simpl; rewrite Hk; simpl; auto.
Qed.

Lemma assoc_int_None (z : Z) (d : list (PyKey * PyVal)) :
  forallb (fun kv => is_str_key (fst kv)) d = true ->
  assoc (KInt z) d = None.
Proof.
  induction d as [|[k v] d IH]; simpl; [reflexivity|].
  rewrite andb_true_iff. intros [Hk Hd].
  destruct k; [discriminate|]. rewrite decide_False by discriminate. auto.
Qed.

Lemma int_key_unmatched (d d2 : list (PyKey * PyVal)) (z : Z) (v : PyVal) :
  (KInt z, v) ∈ d ->
  forallb (fun kv => is_str_key (fst kv)) d2 = true ->
  (fix go (d : list (PyKey * PyVal)) : bool :=
     match d with
     | [] => true
     | (k, v) :: d =>
         match assoc k d2 with
         | Some v' => eq v v'
         | None => false
         end && go d
     end) d = false.
Proof.
  intros Hin Hd2. induction d as [|[k x] d IH]; [inversion Hin|].
  apply elem_of_cons in Hin as [Heq|Hin].
  - injection Heq as <- <-. now rewrite (assoc_int_None z d2 Hd2).
  - rewrite (IH Hin). apply andb_false_r.
Qed.

(** A dictionary with an integer key is not equal, in the sense of
    Python, to anything that was read back from a JSON document. *)
Lemma int_key_lost (d : list (PyKey * PyVal)) (z : Z) (v : PyVal) :
  (KInt z, v) ∈ d -> eq (PDict d) (load (dump (PDict d))) = false.
Proof.
  intros Hin. simpl. apply andb_false_iff. right.
  apply (int_key_unmatched d _ z v Hin).
  apply loaded_keys_str. reflexivity.
Qed.

End JsonFacts.

Section RecoveryFacts.
Import Py IO Client PyJson Recovery.
Local Open Scope Q_scope.

Lemma trade_to_py_str_keyed (t : Trade) : str_keyed (trade_to_py t) = true.
Proof. unfold trade_to_py. destruct (tr_pnl t); vm_compute; reflexivity. Qed.

Lemma trades_round_trip (l : list Trade) :
  load (dump (PList (map trade_to_py l))) = PList (map trade_to_py l).
Proof.
  apply load_dump_id. simpl. rewrite forallb_forall.
  intros v Hv. apply List.in_map_iff in Hv as (t & <- & _).
  apply trade_to_py_str_keyed.
Qed.

(** The document read back from a snapshot, item by item. *)
Lemma load_dump_recovery_data CONFIG pos ord st0 now :
  load (dump (recovery_data CONFIG pos ord st0 now))
  = PDict
      [ (KStr "positions", load (dump (PList pos)));
        (KStr "orders", load (dump ord));
        (KStr "open_orders", load (dump (open_orders_to_py (open_orders st0))));
        (KStr "trade_history",
           PList (map trade_to_py (slice_from (-50) (trade_history st0))));
        (KStr "timestamp", PFloat now);
        (KStr "config", load (dump (config_to_py CONFIG)));
        (KStr "trading_type", PStr (trading_type_name (TRADING_TYPE CONFIG))) ].
Proof.
  rewrite <- trades_round_trip. unfold recovery_data.
  match goal with |- load (dump (PDict ?d)) = _ =>
    change (load (dump (PDict d)))
      with (PDict (fold_left
                     (fun acc kv => dict_set (KStr (fst kv)) (load (snd kv)) acc)
                     (map (fun kv => (key_str (fst kv), dump (snd kv))) d) []));
    rewrite (load_dump_items d [])
  end.
  - reflexivity.
  - reflexivity.
  - apply (bool_decide_unpack _). vm_compute. exact I.
Qed.

Lemma load_recovery_state_no_file (st : State) :
  recovery_json st = None -> load_recovery_state st = (Ok None, st).
Proof.
  intros H. unfold load_recovery_state, try_catch, mbind, M_bind, bind, gets.
  now rewrite H.
Qed.

(** Reading a snapshot stamped [now]: the state that comes back within
    the hour, nothing after. *)
Lemma load_recovery_state_snapshot CONFIG pos ord st0 now (st : State) :
  recovery_json st = Some (dump (recovery_data CONFIG pos ord st0 now)) ->
  load_recovery_state st
  = (Ok (if Qgtb (clock st - now) 3600 then None
         else Some (load (dump (recovery_data CONFIG pos ord st0 now)))),
     st).
Proof.
  intros H. unfold load_recovery_state, try_catch, mbind, M_bind, bind, gets.
  rewrite H. unfold time, gets, lift.
  rewrite load_dump_recovery_data. simpl.
  destruct (Qgtb (clock st - now) 3600); reflexivity.
Qed.

Lemma safe_request_books {A} (X : Exchange) (req : Request)
    (answer : list Request -> result A) (st : State) :
  open_orders (snd (safe_request X req answer st)) = open_orders st /\
  trade_history (snd (safe_request X req answer st)) = trade_history st /\
  recovery_json (snd (safe_request X req answer st)) = recovery_json st.
Proof.
  unfold safe_request.
  unfold mbind, M_bind, bind, gets, modify, sleep, ret, raise, send_telegram.
  simpl.
  destruct (Qltb _ _); simpl;
    destruct (answer _) as [a|[| | |code|]]; simpl; repeat split.
Qed.

Lemma recovery_data_books CONFIG pos ord (st st' : State) now :
  open_orders st' = open_orders st ->
  trade_history st' = trade_history st ->
  recovery_data CONFIG pos ord st' now = recovery_data CONFIG pos ord st now.
Proof. intros Ho Hh. unfold recovery_data. now rewrite Ho, Hh. Qed.

(** [save_recovery_state] never raises and never touches the books; when
    the exchange answers, the file holds the snapshot of the books stamped
    with the time of writing. *)
Lemma save_recovery_state_spec X CONFIG (st : State) :
  exists st1,
    save_recovery_state X CONFIG st = (Ok tt, st1) /\
    open_orders st1 = open_orders st /\
    trade_history st1 = trade_history st /\
    (recovery_json st1 = recovery_json st \/
     exists pos ord,
       recovery_json st1
       = Some (dump (recovery_data CONFIG pos ord st (clock st1)))).
Proof.
  unfold save_recovery_state, try_catch, mbind, M_bind, bind.
  destruct (TRADING_TYPE CONFIG).
  - pose proof (safe_request_books X get_account (account_balances X) st)
      as (Ho & Hh & Hf).
    destruct (safe_request X get_account (account_balances X) st)
      as [[balances|e] sta]; simpl in Ho, Hh, Hf; cbv beta iota.
    2:{ exists sta. repeat split; auto. }
    pose proof (safe_request_books X get_open_orders
                  (open_orders_on_exchange X) sta) as (Ho' & Hh' & Hf').
    destruct (safe_request X get_open_orders (open_orders_on_exchange X) sta)
      as [[orders|e] stb]; simpl in Ho', Hh', Hf'; cbv beta iota.
    2:{ exists stb. repeat split; try congruence. left. congruence. }
    eexists. split; [reflexivity|].
    split; [simpl; congruence|]. split; [simpl; congruence|].
    right. eexists _, _. unfold modify, time, gets.
    cbn [fst snd set_recovery_json recovery_json clock].
    f_equal. f_equal. apply recovery_data_books; congruence.
  - pose proof (safe_request_books X futures_position_information
                  (position_information X) st) as (Ho & Hh & Hf).
    destruct (safe_request X futures_position_information
                (position_information X) st)
      as [[positions|e] sta]; simpl in Ho, Hh, Hf; cbv beta iota.
    2:{ exists sta. repeat split; auto. }
    pose proof (safe_request_books X futures_get_open_orders
                  (open_orders_on_exchange X) sta) as (Ho' & Hh' & Hf').
    destruct (safe_request X futures_get_open_orders
                (open_orders_on_exchange X) sta)
      as [[orders|e] stb]; simpl in Ho', Hh', Hf'; cbv beta iota.
    2:{ exists stb. repeat split; try congruence. left. congruence. }
    eexists. split; [reflexivity|].
    split; [simpl; congruence|]. split; [simpl; congruence|].
    right. eexists _, _. unfold modify, time, gets.
    cbn [fst snd set_recovery_json recovery_json clock].
    f_equal. f_equal. apply recovery_data_books; congruence.
Qed.

(** What the claimed round trip amounts to.  A snapshot written by
    [save_recovery_state] and read back no more than an hour after its
    time stamp gives a state with the trade history that was saved (the
    last 50 records); read back later, or with no file, it gives [None].
    The managed-order mapping comes back through [json.dump] and
    [json.load], with string keys only. *)
Lemma load_after_save CONFIG pos ord (st0 st : State) (now : Q) :
  recovery_json st = Some (dump (recovery_data CONFIG pos ord st0 now)) ->
  (clock st - now <= 3600 ->
   exists state,
     load_recovery_state st = (Ok (Some state), st) /\
     getitem state "trade_history"
     = Ok (PList (map trade_to_py (slice_from (-50) (trade_history st0)))) /\
     getitem state "open_orders"
     = Ok (load (dump (open_orders_to_py (open_orders st0))))) /\
  (3600 < clock st - now -> load_recovery_state st = (Ok None, st)).
Proof.
  intros Hfile.
  rewrite (load_recovery_state_snapshot CONFIG pos ord st0 now st Hfile).
  split.
  - intros Hfresh.
    replace (Qgtb (clock st - now) 3600) with false
      by (symmetry; apply Qltb_ge; exact Hfresh).
    eexists. split; [reflexivity|].
    rewrite load_dump_recovery_data. split; reflexivity.
  - intros Hstale.
    replace (Qgtb (clock st - now) 3600) with true
      by (symmetry; apply Qltb_lt; exact Hstale).
    reflexivity.
Qed.

(** An order identifier that is an integer does not survive: the
    mapping read back is not equal to the one saved. *)
Lemma open_orders_not_restored (m : gmap PyKey ManagedOrder) (z : Z)
    (o : ManagedOrder) :
  m !! KInt z = Some o ->
  eq (open_orders_to_py m) (load (dump (open_orders_to_py m))) = false.
Proof.
  intros Hz. unfold open_orders_to_py.
  apply (int_key_lost _ z (managed_to_py o)).
  apply list_elem_of_In, List.in_map_iff.
  exists (KInt z, o). split; [reflexivity|].
  apply list_elem_of_In, elem_of_map_to_list. exact Hz.
Qed.

End RecoveryFacts.

Section RecoveryClaims.
Import Py IO Client PyJson Recovery.
Local Open Scope Q_scope.

(** C3, at an input where it fails.  The manager tracks order 42 (the
    identifier the exchange assigned, an integer) and has one trade on
    record.  The snapshot is saved and read back ten seconds later, well
    within the hour.  The state that comes back has the trade history
    that was saved, but its managed-order mapping has the single key
    "42", a string: it is not equal to the mapping that was saved and has
    no entry for order 42. *)
Theorem recovery_round_trip_loses_order_id :
  let X := Sample.exchange 30000 (Raise ConnectionError) in
  let saved := Sample.busy_state in
  let run := (save_recovery_state X (Sample.config 0.02);;
              sleep 10;;
              load_recovery_state) saved in
  exists state history orders,
    fst run = Ok (Some state) /\
    getitem state "trade_history" = Ok history /\
    history = PList (map trade_to_py (trade_history saved)) /\
    getitem state "open_orders" = Ok orders /\
    eq (open_orders_to_py (open_orders saved)) orders = false /\
    getitem (open_orders_to_py (open_orders saved)) "42" = Raise KeyError /\
    (exists entry, getitem orders "42" = Ok entry) /\
    (exists d, orders = PDict d /\ assoc (KInt 42) d = None) /\
    (exists d, open_orders_to_py (open_orders saved) = PDict d /\
               exists entry, assoc (KInt 42) d = Some entry).
Proof.
  vm_compute. do 3 eexists.
  split; [reflexivity|]. split; [reflexivity|]. split; [reflexivity|].
  split; [reflexivity|]. split; [reflexivity|]. split; [reflexivity|].
  split; [eexists; reflexivity|].
  split; eexists; (split; [reflexivity|]); [reflexivity|eexists; reflexivity].
Qed.

End RecoveryClaims.

(** ** The position lock *)

Section LockFacts.
Import Py IO Client OrderManager Concurrency.

Variable X : Exchange.
Variable CONFIG : Config.

Lemma initial_invariant (s : System) : initial s -> lock_invariant s.
Proof.
  intros [Hlock Hpc]. split.
  - intros i t Hi. rewrite Hlock.
    rewrite Forall_lookup in Hpc. rewrite (Hpc i t Hi). simpl.
    split; [contradiction|discriminate].
  - intros i Hi. congruence.
Qed.

(** Moving one thread to another place. *)
Lemma moved_thread (l : list Thread) (i j : nat) (t t' u : Thread) :
  l !! i = Some t ->
  <[i := t']> l !! j = Some u ->
  (j = i /\ u = t') \/ (j <> i /\ l !! j = Some u).
Proof.
  intros Hi Hj. destruct (decide (j = i)) as [->|Hne].
  - left. split; [reflexivity|].
    rewrite list_lookup_insert_eq in Hj by (eapply lookup_lt_Some; eassumption).
    congruence.
  - right. split; [assumption|].
    now rewrite list_lookup_insert_ne in Hj by congruence.
Qed.

Lemma moved_is_Some (l : list Thread) (i j : nat) (t' : Thread) :
  is_Some (l !! j) -> is_Some (<[i := t']> l !! j).
Proof.
  intros H. apply lookup_lt_is_Some. rewrite length_insert.
  now apply lookup_lt_is_Some.
Qed.

Lemma step_invariant (s s' : System) :
  lock_invariant s -> step X CONFIG s s' -> lock_invariant s'.
Proof.
  intros [Hinv Hheld] Hstep.
  destruct Hstep as [s signal sys
                    | s i t r st' Hi Hpc Hrun
                    | s i t Hi Hpc Hfree
                    | s i t r st' Hi Hpc Hrun
                    | s i t r st' Hi Hpc Hrun
                    | s i t r Hi Hpc
                    | s order_id signal Hin
                    | s order_id signal Hin]; simpl.
  - (* a new caller *)
    split; simpl.
    + intros j u Hj. apply lookup_app_Some in Hj as [Hj|[Hlen Hj]].
      * now apply Hinv.
      * apply list_lookup_singleton_Some in Hj as [Hz <-]. simpl.
        split; [contradiction|]. intros Hl.
        apply Hheld in Hl. apply lookup_lt_is_Some in Hl. lia.
    + intros j Hl. apply Hheld in Hl.
      apply lookup_lt_is_Some. rewrite length_app. simpl.
      apply lookup_lt_is_Some in Hl. lia.
  - (* the guard *)
    pose proof (Hinv i t Hi) as Hit. rewrite Hpc in Hit. simpl in Hit.
    split; simpl.
    + intros j u Hj.
      destruct (moved_thread _ _ _ _ _ _ Hi Hj) as [[-> ->]|[Hne Hj']].
      * simpl. destruct r as [[[]|]|e]; simpl; exact Hit.
      * now apply Hinv.
    + intros j Hl. apply moved_is_Some. now apply Hheld.
  - (* acquire *)
    split; simpl.
    + intros j u Hj.
      destruct (moved_thread _ _ _ _ _ _ Hi Hj) as [[-> ->]|[Hne Hj']].
      * simpl. split; [reflexivity|exact (fun _ => I)].
      * pose proof (Hinv j u Hj') as Hju. rewrite Hfree in Hju.
        split; [intros Hp; apply Hju in Hp; discriminate|].
        intros [= Heq]. congruence.
    + intros j [= <-]. apply moved_is_Some. eauto.
  - (* the pre-execution check *)
    pose proof (Hinv i t Hi) as Hit. rewrite Hpc in Hit. simpl in Hit.
    split; simpl.
    + intros j u Hj.
      destruct (moved_thread _ _ _ _ _ _ Hi Hj) as [[-> ->]|[Hne Hj']].
      * simpl. destruct r as [[|]|e]; simpl; exact Hit.
      * now apply Hinv.
    + intros j Hl. apply moved_is_Some. now apply Hheld.
  - (* the try block *)
    pose proof (Hinv i t Hi) as Hit. rewrite Hpc in Hit. simpl in Hit.
    split; simpl.
    + intros j u Hj.
      destruct (moved_thread _ _ _ _ _ _ Hi Hj) as [[-> ->]|[Hne Hj']].
      * simpl. exact Hit.
      * now apply Hinv.
    + intros j Hl. apply moved_is_Some. now apply Hheld.
  - (* release *)
    pose proof (Hinv i t Hi) as Hit. rewrite Hpc in Hit. simpl in Hit.
    assert (Hl : lock s = Some i) by now apply Hit.
    split; simpl.
    + intros j u Hj.
      destruct (moved_thread _ _ _ _ _ _ Hi Hj) as [[-> ->]|[Hne Hj']].
      * simpl. split; [contradiction|discriminate].
      * pose proof (Hinv j u Hj') as Hju. rewrite Hl in Hju.
        split; [|discriminate].
        intros Hp. apply Hju in Hp. congruence.
    + intros j [=].
  - split; simpl; assumption.
  - split; simpl; assumption.
Qed.

Lemma reachable_invariant (s0 s : System) :
  lock_invariant s0 -> rtc (step X CONFIG) s0 s -> lock_invariant s.
Proof.
  intros Hinv Hrun. induction Hrun as [s|s1 s2 s3 Hstep _ IH];
    [assumption|].
  apply IH. eapply step_invariant; eassumption.
Qed.

(** A caller alone goes through the five steps guard, acquire, check,
    submit and release, and comes out with what [execute_order] returns,
    the lock being free again. *)
Lemma solo_run (signal : Signal) (sys : SystemStatus) (st : State) :
  let me := {| th_signal := signal; th_sys := sys; th_pc := Called |} in
  rtc (step X CONFIG)
    {| lock := None; shared := st; threads := [me] |}
    {| lock := None;
       shared := snd (execute_order X CONFIG sys signal st);
       threads := [at_pc me (Returned (fst (execute_order X CONFIG sys signal st)))] |}.
Proof.
  intros me. unfold execute_order, system_guard_io.
  destruct (Qgtb (memory_percent sys) (MEMORY_LIMIT CONFIG)) eqn:Emem.
  { eapply rtc_l; [|apply rtc_refl].
    pose proof (step_guard X CONFIG
                  {| lock := None; shared := st; threads := [me] |}
                  0 me (Ok None)
                  (snd (send_telegram (MemoryHigh (memory_percent sys)) st))
                  eq_refl eq_refl) as Hs.
    simpl in Hs. apply Hs. unfold system_guard_io. now rewrite Emem. }
  destruct (15 <? active_count sys)%Z eqn:Ethr.
  { eapply rtc_l; [|apply rtc_refl].
    pose proof (step_guard X CONFIG
                  {| lock := None; shared := st; threads := [me] |}
                  0 me (Ok None) (snd (send_telegram TooManyThreads st))
                  eq_refl eq_refl) as Hs.
    simpl in Hs. apply Hs. unfold system_guard_io. now rewrite Emem, Ethr. }
  eapply rtc_l.
  { pose proof (step_guard X CONFIG
                  {| lock := None; shared := st; threads := [me] |}
                  0 me (Ok (Some tt)) st eq_refl eq_refl) as Hs.
    simpl in Hs. apply Hs. unfold system_guard_io. now rewrite Emem, Ethr. }
  eapply rtc_l.
  { exact (step_acquire X CONFIG
             {| lock := None; shared := st; threads := [at_pc me Waiting] |}
             0 (at_pc me Waiting) eq_refl eq_refl eq_refl). }
  simpl. unfold execute_order_locked, mbind, M_bind, bind.
  destruct (_pre_execution_check X CONFIG sys signal st) as [r st1] eqn:Hc.
  eapply rtc_l.
  { exact (step_check X CONFIG
             {| lock := Some 0%nat; shared := st;
                threads := [at_pc (at_pc me Waiting) Checking] |}
             0 _ r st1 eq_refl eq_refl Hc). }
  simpl. destruct r as [[|]|e]; simpl.
  - destruct (submit X CONFIG signal st1) as [r2 st2] eqn:Hsub.
    eapply rtc_l.
    { exact (step_submit X CONFIG
               {| lock := Some 0%nat; shared := st1;
                  threads := [at_pc (at_pc (at_pc me Waiting) Checking) Submitting] |}
               0 _ r2 st2 eq_refl eq_refl Hsub). }
    eapply rtc_l; [|apply rtc_refl].
    pose proof (step_release X CONFIG
                  {| lock := Some 0%nat; shared := st2;
                     threads := [at_pc me (Leaving r2)] |}
                  0 _ r2 eq_refl eq_refl) as Hs.
    simpl in Hs. destruct r2 as [b|e]; exact Hs.
  - eapply rtc_l; [|apply rtc_refl].
    exact (step_release X CONFIG
             {| lock := Some 0%nat; shared := st1;
                threads := [at_pc me (Leaving (Ok false))] |}
             0 _ (Ok false) eq_refl eq_refl).
  - eapply rtc_l; [|apply rtc_refl].
    exact (step_release X CONFIG
             {| lock := Some 0%nat; shared := st1;
                threads := [at_pc me (Leaving (Raise e))] |}
             0 _ (Raise e) eq_refl eq_refl).
Qed.

End LockFacts.

Section LockClaims.
Import Py IO Client OrderManager Concurrency.

(** C9.  In every state reached by callers of [execute_order] and monitor
    threads running interleaved, starting with the lock free: at most one
    caller is inside the [with self.position_lock] block (between the
    pre-execution check and the record in the mapping); a caller is inside
    exactly when it holds the lock; and a caller that has returned,
    whether with success, with a validation failure or with an exception,
    does not hold the lock. *)
Theorem position_lock_exclusive (X : Exchange) (CONFIG : Config)
    (s0 s : System) :
  initial s0 ->
  rtc (step X CONFIG) s0 s ->
  (forall i j ti tj,
      threads s !! i = Some ti -> threads s !! j = Some tj ->
      in_progress (th_pc ti) -> in_progress (th_pc tj) -> i = j) /\
  (forall i t, threads s !! i = Some t ->
               (in_progress (th_pc t) <-> lock s = Some i)) /\
  (forall i t r, threads s !! i = Some t -> th_pc t = Returned r ->
                 lock s <> Some i).
Proof.
  intros Hinit Hrun.
  pose proof (reachable_invariant X CONFIG s0 s
                (initial_invariant s0 Hinit) Hrun) as [Hinv _].
  split; [|split].
  - intros i j ti tj Hi Hj Hpi Hpj.
    apply (Hinv i ti Hi) in Hpi. apply (Hinv j tj Hj) in Hpj. congruence.
  - exact Hinv.
  - intros i t r Hi Hpc Hl. apply (Hinv i t Hi) in Hl.
    rewrite Hpc in Hl. exact Hl.
Qed.

(** Two callers: the first is let in and passes the check, the second
    waits at the lock. *)
Lemma position_lock_exclusive_witness :
  let X := Sample.exchange 30010 (Raise ConnectionError) in
  let caller := {| th_signal := Sample.signal; th_sys := Sample.calm;
                   th_pc := Called |} in
  exists s,
    rtc (step X (Sample.config 0.02))
      {| lock := None; shared := Sample.empty_state;
         threads := [caller; caller] |} s /\
    th_pc <$> threads s = [Submitting; Waiting] /\
    lock s = Some 0%nat /\
    (forall i j ti tj,
        threads s !! i = Some ti -> threads s !! j = Some tj ->
        in_progress (th_pc ti) -> in_progress (th_pc tj) -> i = j).
Proof.
  intros X caller.
  set (s0 := {| lock := None; shared := Sample.empty_state;
                threads := [caller; caller] |}).
  assert (Hinit : initial s0) by (split; [reflexivity|repeat constructor]).
  destruct (_pre_execution_check X (Sample.config 0.02) Sample.calm
              Sample.signal Sample.empty_state) as [r st1] eqn:Hc.
  assert (Hr : r = Ok true).
  { apply (f_equal fst) in Hc. simpl in Hc. subst r. reflexivity. }
  subst r.
  set (s := {| lock := Some 0%nat; shared := st1;
               threads := [at_pc caller Submitting; at_pc caller Waiting] |}).
  assert (Hrun : rtc (step X (Sample.config 0.02)) s0 s).
  { eapply rtc_l.
    { exact (step_guard X (Sample.config 0.02) s0 0 caller (Ok (Some tt))
               Sample.empty_state eq_refl eq_refl eq_refl). }
    eapply rtc_l.
    { exact (step_guard X (Sample.config 0.02)
               {| lock := None; shared := Sample.empty_state;
                  threads := [at_pc caller Waiting; caller] |}
               1 caller (Ok (Some tt))
               Sample.empty_state eq_refl eq_refl eq_refl). }
    eapply rtc_l.
    { exact (step_acquire X (Sample.config 0.02)
               {| lock := None; shared := Sample.empty_state;
                  threads := [at_pc caller Waiting; at_pc caller Waiting] |}
               0 (at_pc caller Waiting) eq_refl eq_refl eq_refl). }
    eapply rtc_l; [|apply rtc_refl].
    exact (step_check X (Sample.config 0.02)
             {| lock := Some 0%nat; shared := Sample.empty_state;
                threads := [at_pc caller Checking; at_pc caller Waiting] |}
             0 (at_pc caller Checking) (Ok true) st1 eq_refl eq_refl Hc). }
  exists s. split; [exact Hrun|]. split; [reflexivity|].
  split; [reflexivity|].
  exact (proj1 (position_lock_exclusive X (Sample.config 0.02) s0 s
                  Hinit Hrun)).
Defined.

End LockClaims.

(** ** Indicator engine *)

Section IndicatorFacts.
Import Series Indicators.
Local Open Scope Q_scope.

(** The head of what [ewm_from] gives is the running mean it goes on
    with. *)
Lemma ewm_from_cons (alpha : Q) (w : F) (o : Q) (cur : F) (s : list F) :
  exists w' o', ewm_from alpha w o (cur :: s) = w' :: ewm_from alpha w' o' s.
Proof.
  simpl. destruct (isna w), (isna cur); eauto.
Qed.

(** At an index where the input is NaN the smoothed series repeats its
    running mean. *)
Lemma ewm_from_nan (alpha : Q) (s : list F) :
  forall (w : F) (o : Q) (i : nat),
    s !! i = Some NaN ->
    ewm_from alpha w o s !! i
    = match i with
      | O => Some w
      | S j => ewm_from alpha w o s !! j
      end.
Proof.
  induction s as [|cur s IH]; intros w o i Hi; [discriminate|].
  destruct i as [|j].
  - injection Hi as ->. simpl. destruct (isna w); reflexivity.
  - simpl in Hi.
    destruct (ewm_from_cons alpha w o cur s) as (w' & o' & ->).
    simpl. rewrite (IH w' o' j Hi). destruct j; reflexivity.
Qed.

Lemma ewm_mean_nan (alpha : Q) (s : list F) (i : nat) :
  s !! i = Some NaN ->
  ewm_mean alpha s !! i
  = match i with
    | O => Some NaN
    | S j => ewm_mean alpha s !! j
    end.
Proof.
  destruct s as [|x s]; [discriminate|]. intros Hi.
  destruct i as [|j]; simpl in *; [congruence|].
  rewrite (ewm_from_nan alpha s x 1 j Hi). destruct j; reflexivity.
Qed.

(** RSI when the average loss is zero. *)
Lemma rsi_of_zero_loss (g : F) (l : Q) :
  l == 0 ->
  rsi_of g (Num l) = NaN \/ exists q, rsi_of g (Num l) = Num q /\ q == 100.
Proof.
  intros Hl.
  assert (Hz : Qeq_bool l 0 = true) by now apply Qeq_bool_iff.
  assert (Hd : div g (Num l)
               = match g with
                 | Num a => signed_inf true a false
                 | Inf s => Inf s
                 | NaN => NaN
                 end).
  { destruct g; simpl; unfold signed_inf; rewrite ?Hz; reflexivity. }
  unfold rsi_of. rewrite Hd. clear Hd.
  destruct g as [a|s|]; unfold signed_inf.
  - destruct (Qeq_bool a 0); [now left|].
    destruct (Py.Qltb a 0); simpl; right; eexists; (split; [reflexivity|]);
      reflexivity.
  - right. destruct s; simpl; eexists; (split; [reflexivity|]);
      reflexivity.
  - now left.
Qed.

(** DX when the two directional indicators add up to zero. *)
Lemma dx_of_zero_sum (a b : Q) :
  a + b == 0 ->
  (dx_of (Num a) (Num b) = NaN \/ dx_of (Num a) (Num b) = Inf false) /\
  (a == 0 -> dx_of (Num a) (Num b) = NaN).
Proof.
  intros Hs. unfold dx_of. cbn [sub neg add abs mul div].
  assert (Hz : Qeq_bool (a + b) 0 = true) by now apply Qeq_bool_iff.
  rewrite Hz. unfold signed_inf.
  destruct (Qeq_bool (100 * Qabs (a + - b)) 0) eqn:E.
  - split; [now left|reflexivity].
  - assert (Hneg : Py.Qltb (100 * Qabs (a + - b)) 0 = false).
    { apply Qltb_ge. pose proof (Qabs_nonneg (a + - b)). lra. }
    rewrite Hneg. split; [now right|].
    intros Ha. exfalso.
    assert (Hab : a + - b == 0) by lra.
    assert (H0 : 100 * Qabs (a + - b) == 0).
    { rewrite Hab. reflexivity. }
    apply Qeq_bool_iff in H0. congruence.
Qed.

End IndicatorFacts.

Section IndicatorClaims.
Import Series Indicators.
Local Open Scope Q_scope.

(** C8.  The indicator computations are total on series of numbers,
    infinities and NaN, and at an index where a division by zero arises
    they give a sentinel: the RSI is 100 or NaN (absent) where the average
    loss is zero; where the two directional indicators add up to zero DX
    is NaN or an infinity, and NaN when both are zero, in which case the
    ADX is absent at the first index and repeats its previous value
    afterwards; and a row whose ADX is NaN gets the regime UNKNOWN. *)
Theorem indicators_division_by_zero (high low close : list F)
    (period : positive) (i : nat) :
  (forall g l,
      avg_gains close period !! i = Some g ->
      avg_losses close period !! i = Some (Num l) ->
      l == 0 ->
      exists r,
        calculate_rsi_accurate close period !! i = Some r /\
        (r = NaN \/ exists q, r = Num q /\ q == 100)) /\
  (forall a b,
      di_plus high low close period !! i = Some (Num a) ->
      di_minus high low close period !! i = Some (Num b) ->
      a + b == 0 ->
      exists d,
        dx high low close period !! i = Some d /\
        (d = NaN \/ d = Inf false) /\
        (a == 0 ->
         d = NaN /\
         calculate_adx_accurate high low close period !! i
         = match i with
           | O => Some NaN
           | S j => calculate_adx_accurate high low close period !! j
           end)) /\
  (forall c l u, detect_market_regime NaN c l u = UNKNOWN).
Proof.
  split; [|split].
  - intros g l Hg Hl Hz. exists (rsi_of g (Num l)). split.
    + unfold calculate_rsi_accurate. rewrite lookup_zip_with, Hg, Hl.
      reflexivity.
    + now apply rsi_of_zero_loss.
  - intros a b Ha Hb Hz.
    assert (Hdx : dx high low close period !! i = Some (dx_of (Num a) (Num b))).
    { unfold dx. rewrite lookup_zip_with, Ha, Hb. reflexivity. }
    destruct (dx_of_zero_sum a b Hz) as [Hcases Hnan].
    exists (dx_of (Num a) (Num b)). split; [exact Hdx|].
    split; [exact Hcases|]. intros Ha0. split; [now apply Hnan|].
    unfold calculate_adx_accurate. apply ewm_mean_nan.
    rewrite Hdx. f_equal. now apply Hnan.
  - intros c l u. reflexivity.
Qed.

(** Prices that only rise: no loss at all, and an RSI of 100. *)
Lemma indicators_division_by_zero_witness :
  exists r,
    calculate_rsi_accurate [Num 1; Num 2; Num 3] 14 !! 2%nat = Some r /\
    (r = NaN \/ exists q, r = Num q /\ q == 100).
Proof.
  destruct (indicators_division_by_zero [] [] [Num 1; Num 2; Num 3] 14 2)
    as (Hrsi & _ & _).
  eapply (Hrsi _ 0); [vm_compute; reflexivity|vm_compute; reflexivity|reflexivity].
Defined.

End IndicatorClaims.

(** * Further properties of the code *)

(** ** What one guarded request does *)

Section RequestFacts.
Import Py IO Client OrderManager.
Local Open Scope Q_scope.

Lemma safe_request_answer {A} (X : Exchange) (req : Request)
    (answer : list Request -> result A) (st : State) :
  fst (safe_request X req answer st) = answer (requests st) /\
  requests (snd (safe_request X req answer st)) = req :: requests st.
Proof.
  unfold safe_request.
  unfold mbind, M_bind, bind, gets, modify, sleep, ret, raise, send_telegram.
  simpl.
  destruct (Qltb _ _); simpl;
    destruct (answer (requests st)) as [a|[| | |code|]]; simpl; split;
    reflexivity.
Qed.

End RequestFacts.

(** ** The throttling gate *)

Section ClientExtras.
Import Py IO Client OrderManager.
Local Open Scope Q_scope.



End ClientExtras.

(** ** Price lookup *)

Section PriceExtras.
Import Py IO Client OrderManager.
Local Open Scope Q_scope.

Variable X : Exchange.
Hypothesis X_latency : nonneg_latency X.
Variable CONFIG : Config.
Variable sys : SystemStatus.

(** The ticker request of the configured market. *)
Let ticker (symbol : string) : Request :=
  match TRADING_TYPE CONFIG with
  | Futures => futures_symbol_ticker symbol
  | Spot => get_symbol_ticker symbol
  end.

Lemma ticker_request symbol :
  (match TRADING_TYPE CONFIG with
   | Futures =>
       safe_request X (futures_symbol_ticker symbol)
         (fun past => ticker_price X past symbol)
   | Spot =>
       safe_request X (get_symbol_ticker symbol)
         (fun past => ticker_price X past symbol)
   end) = safe_request X (ticker symbol) (fun past => ticker_price X past symbol).
Proof. unfold ticker. now destruct (TRADING_TYPE CONFIG). Qed.

(** [fetch_klines] never raises, sends at most one request and does not
    turn the clock back. *)
Lemma fetch_klines_effect symbol interval limit st :
  exists df st',
    fetch_klines X CONFIG sys symbol interval limit st = (Ok df, st') /\
    clock st <= clock st' /\
    exists new, requests st' = new ++ requests st /\ (length new <= 1)%nat.
Proof.
  unfold fetch_klines, system_guard_io.
  destruct (Qgtb _ _).
  { eexists _, _. split; [reflexivity|]. simpl. split; [lra|].
    exists []. split; [reflexivity|simpl; lia]. }
  destruct (15 <? _)%Z.
  { eexists _, _. split; [reflexivity|]. simpl. split; [lra|].
    exists []. split; [reflexivity|simpl; lia]. }
  unfold try_catch, mbind, M_bind, bind.
  destruct (TRADING_TYPE CONFIG).
  - destruct (safe_request_steady X X_latency (get_klines symbol interval limit)
                (fun past => klines_close X past symbol) st)
      as [(_ & _ & Hc) Hr].
    destruct (safe_request X (get_klines symbol interval limit) _ st)
      as [[k|e] st1]; simpl in *.
    + destruct (Qltb _ _); eexists _, _; (split; [reflexivity|]);
        (split; [assumption|]); exists [get_klines symbol interval limit];
        (split; [assumption|simpl; lia]).
    + eexists _, _. split; [reflexivity|]. split; [assumption|].
      exists [get_klines symbol interval limit]. split; [assumption|simpl; lia].
  - destruct (safe_request_steady X X_latency (futures_klines symbol interval limit)
                (fun past => klines_close X past symbol) st)
      as [(_ & _ & Hc) Hr].
    destruct (safe_request X (futures_klines symbol interval limit) _ st)
      as [[k|e] st1]; simpl in *.
    + destruct (Qltb _ _); eexists _, _; (split; [reflexivity|]);
        (split; [assumption|]); exists [futures_klines symbol interval limit];
        (split; [assumption|simpl; lia]).
    + eexists _, _. split; [reflexivity|]. split; [assumption|].
      exists [futures_klines symbol interval limit].
      split; [assumption|simpl; lia].
Qed.

(** The loop of [get_current_price]: it never raises; a quote that arrives
    at the first attempt is returned at once, after that single request;
    every further attempt costs half a second, so giving up takes at least
    [remaining]/2 seconds; and each attempt sends the ticker request, plus
    the klines request of the fallback at most. *)
Lemma get_current_price_loop_effect symbol retries (remaining : nat) :
  forall i st,
    exists r st',
      get_current_price_loop X CONFIG sys symbol retries i remaining st
      = (Ok r, st') /\
      (exists new, requests st' = new ++ requests st /\
                   (length new
                    <= remaining + (if (i <=? retries - 1)%Z then 1 else 0))%nat) /\
      (r = None ->
       clock st + inject_Z (Z.of_nat remaining) * 0.5 <= clock st') /\
      (forall p, (0 < remaining)%nat ->
                 ticker_price X (requests st) symbol = Ok p ->
                 r = Some p /\ requests st' = ticker symbol :: requests st).
Proof.
  induction remaining as [|n IH]; intros i st.
  - exists None, st. split; [reflexivity|].
    split; [exists []; split; [reflexivity|simpl; lia]|].
    split; [intros _; change (inject_Z (Z.of_nat 0)) with 0; lra|].
    intros p Hlt. lia.
  - simpl get_current_price_loop. rewrite ticker_request.
    unfold mbind at 1. unfold M_bind, bind at 1. unfold try_catch at 1.
    destruct (safe_request_steady X X_latency (ticker symbol)
                (fun past => ticker_price X past symbol) st)
      as [(_ & _ & Hc) Hr].
    pose proof (safe_request_answer X (ticker symbol)
                  (fun past => ticker_price X past symbol) st)
      as (Hans & _).
    unfold mbind at 1. unfold M_bind, bind at 1.
    destruct (safe_request X (ticker symbol) _ st) as [[p|e] st1];
      simpl in Hc, Hr, Hans.
    + (* the quote arrived *)
      exists (Some p), st1. split; [reflexivity|].
      split; [exists [ticker symbol]; split; [assumption|simpl; lia]|].
      split; [discriminate|].
      intros p' _ Hp'. rewrite Hp' in Hans. injection Hans as <-.
      split; [reflexivity|assumption].
    + (* the attempt failed: fallback on the last attempt, then sleep *)
      match goal with
      | |- context [(if ?c then ?m1 else ?m2) st1] =>
          assert (Hfall : exists a st2,
                     (if c then m1 else m2) st1 = (Ok a, st2) /\
                     clock st1 <= clock st2 /\
                     exists new, requests st2 = new ++ requests st1 /\
                                 (length new
                                  <= if (i =? retries - 1)%Z then 1 else 0)%nat)
      end.
      { destruct (i =? retries - 1)%Z eqn:Ei.
        - unfold try_catch, mbind, M_bind, bind.
          destruct (fetch_klines_effect symbol "1m" 1%Z st1)
            as (df & st2 & -> & Hc2 & new & Hn & Hlen).
          destruct df as [closes|]; eexists _, st2;
            (split; [reflexivity|]); (split; [assumption|]); eauto.
        - exists None, st1. split; [reflexivity|]. split; [lra|].
          exists []. split; [reflexivity|simpl; lia]. }
      destruct Hfall as (a & st2 & -> & Hc2 & new & Hn & Hlen).
      assert (Hlen1 : (length new
                       <= if (i <=? retries - 1)%Z then 1 else 0)%nat).
      { destruct (Z.eqb_spec i (retries - 1)) as [->|Hne];
          [rewrite Z.leb_refl; exact Hlen|].
        destruct (i <=? retries - 1)%Z; lia. }
      destruct a as [p|].
      * exists (Some p), st2. split; [reflexivity|].
        split.
        { exists (new ++ [ticker symbol]). split.
          - rewrite Hn, Hr. now rewrite <- app_assoc.
          - rewrite length_app. simpl. lia. }
        split; [discriminate|].
        intros p' _ Hp'. rewrite Hp' in Hans. discriminate.
      * unfold mbind at 1. unfold M_bind, bind at 1.
        unfold sleep at 1, modify at 1.
        destruct (IH (i + 1)%Z (set_clock (clock st2 + 0.5) st2))
          as (r & st' & -> & (new' & Hn' & Hlen') & Hnone & _).
        exists r, st'. split; [reflexivity|].
        split.
        { exists (new' ++ new ++ [ticker symbol]). split.
          - rewrite Hn'. simpl. rewrite Hn, Hr.
            now rewrite <- !app_assoc.
          - rewrite !length_app. simpl.
            destruct (Z.eqb_spec i (retries - 1)) as [Heq|Hne].
            + rewrite Heq in Hlen' |- *. rewrite Z.leb_refl.
              destruct (Z.leb_spec (retries - 1 + 1) (retries - 1)); lia.
            + destruct (Z.leb_spec i (retries - 1)),
                       (Z.leb_spec (i + 1) (retries - 1)); lia. }
        split.
        { intros Hr0. specialize (Hnone Hr0). simpl in Hnone.
          rewrite Nat2Z.inj_succ, <- Z.add_1_r, inject_Z_plus.
          change (inject_Z 1) with 1. lra. }
        intros p' _ Hp'. rewrite Hp' in Hans. discriminate.
Qed.

(** X2.  [get_current_price] never raises.  It sends at most four requests
    (three tickers and the klines of the fallback), none of which places an
    order; a quote answered at the first attempt is returned after that one
    request; and it returns [None] only after its three pauses, that is no
    sooner than 1.5 s after it was called. *)
Theorem get_current_price_bounded (symbol : string) (st : State) :
  exists r st',
    get_current_price X CONFIG sys symbol st = (Ok r, st') /\
    (exists new, requests st' = new ++ requests st /\
                 (length new <= 4)%nat /\
                 Forall (fun q => places_order q = false) new) /\
    (r = None -> clock st + 1.5 <= clock st') /\
    (forall p, ticker_price X (requests st) symbol = Ok p ->
               r = Some p /\ requests st' = ticker symbol :: requests st).
Proof.
  unfold get_current_price.
  destruct (get_current_price_loop_effect symbol 3 3 0%Z st)
    as (r & st' & Hrun & (new & Hn & Hlen) & Hnone & Hfirst).
  exists r, st'. split; [exact Hrun|].
  pose proof (quiet_get_current_price_loop X CONFIG sys symbol 3 0 3 st)
    as (_ & _ & _ & new' & Hn' & Hq).
  rewrite Hrun in Hn'. simpl in Hn'.
  assert (new' = new) as -> by (rewrite Hn in Hn'; now apply app_inv_tail in Hn').
  split; [exists new; repeat split; [assumption|simpl in Hlen; lia|assumption]|].
  split.
  - intros Hr. specialize (Hnone Hr).
    change (inject_Z (Z.of_nat 3)) with 3 in Hnone. lra.
  - intros p Hp. apply Hfirst; [lia|exact Hp].
Qed.

End PriceExtras.

Section PriceWitness.
Import Py IO Client OrderManager.
Local Open Scope Q_scope.

Lemma get_current_price_bounded_witness :
  exists st',
    get_current_price (Sample.exchange 30000 (Raise ConnectionError))
      (Sample.config 0.02) Sample.calm "BTCUSDT" Sample.empty_state
    = (Ok (Some 30000), st') /\
    requests st' = [futures_symbol_ticker "BTCUSDT"].
Proof.
  assert (Hlat : nonneg_latency (Sample.exchange 30000 (Raise ConnectionError)))
    by (intros past req; discriminate).
  destruct (get_current_price_bounded
              (Sample.exchange 30000 (Raise ConnectionError)) Hlat
              (Sample.config 0.02) Sample.calm "BTCUSDT" Sample.empty_state)
    as (r & st' & Hrun & _ & _ & Hfirst).
  destruct (Hfirst 30000 eq_refl) as [-> Hreq].
  exists st'. split; [exact Hrun|exact Hreq].
Defined.

End PriceWitness.

(** ** Account balance *)

Section BalanceExtras.
Import Py IO Client OrderManager.
Local Open Scope Q_scope.

(** X3.  [_get_account_balance] never raises and sends one request.  It
    returns the amount of the first USDT entry of the account, and falls
    back on [INITIAL_BALANCE] when the exchange fails or the account has no
    USDT entry. *)
Theorem get_account_balance_fallback (X : Exchange) (CONFIG : Config)
    (st : State) :
  exists st',
    _get_account_balance X CONFIG st
    = (Ok (match account_balances X (requests st) with
           | Ok balances =>
               match List.find (fun b => String.eqb (ab_asset b) "USDT")
                       balances with
               | Some entry => ab_amount entry
               | None => INITIAL_BALANCE CONFIG
               end
           | Raise _ => INITIAL_BALANCE CONFIG
           end), st') /\
    requests st'
    = match TRADING_TYPE CONFIG with
      | Futures => futures_account_balance
      | Spot => get_account
      end :: requests st.
Proof.
  unfold _get_account_balance, try_catch, mbind, M_bind, bind.
  destruct (TRADING_TYPE CONFIG).
  - destruct (safe_request_answer X get_account (account_balances X) st)
      as [Ha Hr].
    destruct (safe_request X get_account (account_balances X) st)
      as [[l|e] st1]; simpl in Ha, Hr; rewrite <- Ha; simpl.
    + destruct (List.find _ l); simpl; eexists; split; reflexivity || exact Hr.
    + eexists; split; reflexivity || exact Hr.
  - destruct (safe_request_answer X futures_account_balance
                (account_balances X) st) as [Ha Hr].
    destruct (safe_request X futures_account_balance (account_balances X) st)
      as [[l|e] st1]; simpl in Ha, Hr; rewrite <- Ha; simpl.
    + destruct (List.find _ l); simpl; eexists; split; reflexivity || exact Hr.
    + eexists; split; reflexivity || exact Hr.
Qed.

End BalanceExtras.

(** ** Order submission *)

Section SubmitExtras.
Import Py IO Client OrderManager OrderRequests.
Local Open Scope Q_scope.

Variable X : Exchange.
Variable CONFIG : Config.

Lemma run_bind {A B} (m : M A) (k : A -> M B) (st : State) :
  (m ≫= k) st
  = match m st with
    | (Ok a, st') => k a st'
    | (Raise e, st') => (Raise e, st')
    end.
Proof. reflexivity. Qed.

Lemma run_try_catch {A} (m : M A) (h : exn -> M A) (st : State) :
  try_catch m h st
  = match m st with
    | (Ok a, st') => (Ok a, st')
    | (Raise e, st') => h e st'
    end.
Proof. reflexivity. Qed.

Lemma frame_refl st : frame st st.
Proof. repeat split. Qed.

Lemma frame_trans a b c : frame a b -> frame b c -> frame a c.
Proof.
  intros (H1 & H2 & H3 & H4) (H1' & H2' & H3' & H4').
  repeat split; congruence.
Qed.

Lemma safe_request_frame {A} (req : Request)
    (answer : list Request -> result A) (st : State) :
  frame st (snd (safe_request X req answer st)).
Proof.
  unfold safe_request.
  unfold mbind, M_bind, bind, gets, modify, sleep, ret, raise, send_telegram.
  simpl.
  destruct (Qltb _ _); simpl;
    destruct (answer _) as [a|[| | |code|]]; simpl; repeat split.
Qed.

Lemma place_main_order_spec (signal : Signal) (st : State) :
  exists st',
    _place_main_order X CONFIG signal st
    = (Ok (match create_order X (requests st) (main_request CONFIG signal) with
           | Ok order => Some order
           | Raise _ => None
           end), st') /\
    frame st st' /\
    requests st' = main_request CONFIG signal :: requests st.
Proof.
  unfold _place_main_order, main_request, try_catch, mbind, M_bind, bind.
  destruct (TRADING_TYPE CONFIG).
  - set (req := order_market_buy (sg_symbol signal) (sg_size signal)).
    pose proof (safe_request_frame req (fun past => create_order X past req) st) as Hf.
    destruct (safe_request_answer X req (fun past => create_order X past req) st)
      as [Ha Hr].
    destruct (safe_request X req _ st) as [[o|e] st1]; simpl in Ha, Hr, Hf;
      rewrite <- Ha; simpl; eexists; (split; [reflexivity|]);
      (split; [exact Hf|exact Hr]).
  - set (req := futures_create_order_MARKET (sg_symbol signal) (sg_size signal)).
    pose proof (safe_request_frame req (fun past => create_order X past req) st) as Hf.
    destruct (safe_request_answer X req (fun past => create_order X past req) st)
      as [Ha Hr].
    destruct (safe_request X req _ st) as [[o|e] st1]; simpl in Ha, Hr, Hf;
      rewrite <- Ha; simpl; eexists; (split; [reflexivity|]);
      (split; [exact Hf|exact Hr]).
Qed.

Lemma place_risk_orders_spec (signal : Signal) (main_order : PyVal)
    (st : State) :
  exists st',
    _place_risk_orders X signal main_order st = (Ok tt, st') /\
    frame st st' /\
    requests st'
    = match create_order X (requests st) (stop_request signal) with
      | Ok _ => [take_request signal; stop_request signal]
      | Raise _ => [stop_request signal]
      end ++ requests st.
Proof.
  unfold _place_risk_orders, try_catch, mbind, M_bind, bind.
  fold (stop_request signal). fold (take_request signal).
  pose proof (safe_request_frame (stop_request signal)
                (fun past => create_order X past (stop_request signal)) st) as Hf.
  destruct (safe_request_answer X (stop_request signal)
              (fun past => create_order X past (stop_request signal)) st)
    as [Ha Hr].
  destruct (safe_request X (stop_request signal) _ st) as [[o|e] st1];
    simpl in Ha, Hr, Hf; rewrite <- Ha.
  - pose proof (safe_request_frame (take_request signal)
                  (fun past => create_order X past (take_request signal)) st1) as Hf'.
    destruct (safe_request_answer X (take_request signal)
                (fun past => create_order X past (take_request signal)) st1)
      as [_ Hr'].
    destruct (safe_request X (take_request signal) _ st1) as [[o'|e'] st2];
      simpl in Hr', Hf' |- *; eexists; (split; [reflexivity|]);
      (split; [eapply frame_trans; eassumption|]);
      rewrite Hr', Hr; reflexivity.
  - simpl. eexists. split; [reflexivity|]. split; [exact Hf|].
    rewrite Hr. reflexivity.
Qed.

(** The [try] block of [execute_order], case by case on what the exchange
    answers. *)
Lemma submit_cases (signal : Signal) (st : State) :
  let main := main_request CONFIG signal in
  let risk := match create_order X (main :: requests st) (stop_request signal) with
              | Ok _ => [take_request signal; stop_request signal]
              | Raise _ => [stop_request signal]
              end in
  match create_order X (requests st) main with
  | Raise _ =>
      exists st', submit X CONFIG signal st = (Ok false, st') /\
                  frame st st' /\ requests st' = main :: requests st
  | Ok main_order =>
      if PyJson.truthy main_order then
        match order_id_of main_order with
        | Ok order_id =>
            exists st',
              submit X CONFIG signal st = (Ok true, st') /\
              open_orders st'
              = <[order_id := {| mo_signal := signal; mo_order := main_order;
                                 mo_timestamp := clock st' |}]> (open_orders st) /\
              trade_history st' = trade_history st /\
              monitor_threads st' = (order_id, signal) :: monitor_threads st /\
              requests st' = risk ++ main :: requests st
        | Raise e =>
            exists st',
              submit X CONFIG signal st = (Ok false, st') /\
              frame st st' /\
              requests st' = risk ++ main :: requests st /\
              head (telegrams st') = Some (ExecutionFailed e)
        end
      else
        exists st', submit X CONFIG signal st = (Ok false, st') /\
                    frame st st' /\ requests st' = main :: requests st
  end.
Proof.
  intros main risk. unfold submit.
  rewrite run_try_catch, run_bind.
  destruct (place_main_order_spec signal st) as (st1 & -> & Hf1 & Hr1).
  fold main in Hr1 |- *.
  destruct (create_order X (requests st) main) as [main_order|e].
  2:{ exists st1. split; [reflexivity|]. split; assumption. }
  destruct (PyJson.truthy main_order); cbn [negb].
  2:{ exists st1. split; [reflexivity|]. split; assumption. }
  rewrite run_bind.
  destruct (place_risk_orders_spec signal main_order st1)
    as (st2 & -> & Hf2 & Hr2).
  rewrite Hr1 in Hr2. fold risk in Hr2.
  pose proof (frame_trans _ _ _ Hf1 Hf2) as (Ho & Hh & Hm & Hj).
  rewrite run_bind. unfold lift. fold (order_id_of main_order).
  destruct (order_id_of main_order) as [order_id|e].
  - eexists. split; [reflexivity|]. simpl.
    rewrite Ho, Hh, Hm. repeat split. exact Hr2.
  - eexists. split; [reflexivity|]. simpl.
    split; [repeat split; assumption|]. split; [exact Hr2|reflexivity].
Qed.

End SubmitExtras.

(** ** Order submission, end to end *)

Section ExecuteExtras.
Import Py IO Client OrderManager OrderRequests.
Local Open Scope Q_scope.

Variable X : Exchange.
Variable CONFIG : Config.
Variable sys : SystemStatus.
Variable signal : Signal.
Variables st st1 st2 : State.
Variables p bal : Q.

(** The call goes through the system guard, obtains the price [p] and the
    balance [bal], and passes the three checks. *)
Hypothesis Hguard : SignalSpec.guard_open CONFIG sys.
Hypothesis Hprice :
  get_current_price X CONFIG sys (sg_symbol signal) st = (Ok (Some p), st1).
Hypothesis Hbal : _get_account_balance X CONFIG st1 = (Ok bal, st2).
Hypothesis Hp : ~ p == 0.
Hypothesis Hsp : ~ sg_price signal == 0.
Hypothesis Hlev : ~ LEVERAGE CONFIG == 0.
Hypothesis Hslip :
  Qabs (p - sg_price signal) / sg_price signal <= MAX_SLIPPAGE CONFIG.
Hypothesis Hmargin : sg_size signal * p / LEVERAGE CONFIG <= bal * 0.8.
Hypothesis Hcount :
  (Z.of_nat (size (open_orders st)) < MAX_OPEN_ORDERS CONFIG)%Z.

Lemma pre_execution_check_true :
  _pre_execution_check X CONFIG sys signal st = (Ok true, st2).
Proof.
  pose proof (quiet_get_current_price X CONFIG sys (sg_symbol signal) st) as Hq1.
  pose proof (quiet_get_account_balance X CONFIG st1) as Hq2.
  rewrite Hprice in Hq1. rewrite Hbal in Hq2. simpl in Hq1, Hq2.
  destruct Hq1 as (Ho1 & _). destruct Hq2 as (Ho2 & _).
  unfold _pre_execution_check, mbind, M_bind, bind. rewrite Hprice.
  unfold SignalGenerator.truthy.
  destruct (Qeq_bool p 0) eqn:Ep; [apply Qeq_bool_iff in Ep; contradiction|].
  unfold lift. rewrite (div_Ok _ _ Hsp).
  destruct (Qgtb _ (MAX_SLIPPAGE CONFIG)) eqn:Es;
    [apply Qltb_lt in Es; lra|].
  rewrite Hbal. rewrite (div_Ok _ _ Hlev).
  destruct (Qgtb _ (bal * 0.8)) eqn:Em; [apply Qltb_lt in Em; lra|].
  unfold gets. rewrite Ho2, Ho1.
  destruct (Z.leb_spec (MAX_OPEN_ORDERS CONFIG)
              (Z.of_nat (size (open_orders st)))) as [Hle|Hlt]; [lia|].
  reflexivity.
Qed.

Lemma books_after_check :
  open_orders st2 = open_orders st /\
  trade_history st2 = trade_history st /\
  monitor_threads st2 = monitor_threads st.
Proof.
  pose proof (quiet_pre_execution_check X CONFIG sys signal st) as Hq.
  rewrite pre_execution_check_true in Hq. simpl in Hq.
  destruct Hq as (Ho & Hh & Hm & _). repeat split; assumption.
Qed.

Lemma execute_order_submits :
  execute_order X CONFIG sys signal st
  = (match fst (submit X CONFIG signal st2) with
     | Ok b => Ok (Some b)
     | Raise e => Raise e
     end, snd (submit X CONFIG signal st2)).
Proof.
  destruct Hguard as [Hmem Hthr].
  unfold execute_order, system_guard_io.
  destruct (Qgtb (memory_percent sys) (MEMORY_LIMIT CONFIG)) eqn:Emem;
    [apply Qltb_lt in Emem; lra|].
  destruct (15 <? active_count sys)%Z eqn:Ethr;
    [apply Z.ltb_lt in Ethr; lia|].
  unfold execute_order_locked.
  rewrite run_bind, run_bind, pre_execution_check_true. cbn [negb].
  destruct (submit X CONFIG signal st2) as [[b|e] st']; reflexivity.
Qed.

Lemma order_id_truthy (main_order : PyVal) (order_id : PyKey) :
  order_id_of main_order = Ok order_id -> PyJson.truthy main_order = true.
Proof.
  unfold order_id_of, PyJson.getitem.
  destruct main_order as [| | | | |l|d]; try discriminate.
  destruct d as [|kv d]; [discriminate|reflexivity].
Qed.




End ExecuteExtras.

Section ExecuteWitnesses.
Import Py IO Client OrderManager OrderRequests.
Local Open Scope Q_scope.




End ExecuteWitnesses.

(** ** Order monitoring, round by round *)

Section WatchExtras.
Import Py IO Client OrderManager OrderRequests Watch.
Local Open Scope Q_scope.

Variable X : Exchange.
Variable CONFIG : Config.
Variable order_id : PyKey.
Variable signal : Signal.

Lemma status_request_quiet :
  places_order (status_request CONFIG signal order_id) = false.
Proof. unfold status_request. now destruct (TRADING_TYPE CONFIG). Qed.

Lemma cancel_request_quiet :
  places_order (cancel_request CONFIG signal order_id) = false.
Proof. unfold cancel_request. now destruct (TRADING_TYPE CONFIG). Qed.

(** One round of the loop, by the reading of the answer. *)
Lemma monitor_round_reading (st : State) :
  exists st',
    requests st' = status_request CONFIG signal order_id :: requests st /\
    monitor_threads st' = monitor_threads st /\
    match reading (query_order X (requests st) (sg_symbol signal) order_id) with
    | Filled qty price =>
        monitor_round X CONFIG order_id signal st = (Ok (Some FILLED), st') /\
        open_orders st' = delete order_id (open_orders st) /\
        trade_history st'
        = trade_history st ++ [fill_record signal qty price (clock st')] /\
        head (telegrams st') = Some (OrderFilled (sg_symbol signal) order_id)
    | Canceled =>
        monitor_round X CONFIG order_id signal st = (Ok (Some CANCELED), st') /\
        open_orders st' = delete order_id (open_orders st) /\
        trade_history st' = trade_history st
    | Pending =>
        monitor_round X CONFIG order_id signal st = (Ok None, st') /\
        open_orders st' = open_orders st /\
        trade_history st' = trade_history st
    end.
Proof.
  unfold monitor_round.
  assert (Hreq : (match TRADING_TYPE CONFIG with
                  | Futures =>
                      safe_request X (futures_get_order (sg_symbol signal) order_id)
                        (fun past => query_order X past (sg_symbol signal) order_id)
                  | Spot =>
                      safe_request X (get_order (sg_symbol signal) order_id)
                        (fun past => query_order X past (sg_symbol signal) order_id)
                  end)
                 = safe_request X (status_request CONFIG signal order_id)
                     (fun past => query_order X past (sg_symbol signal) order_id))
    by (unfold status_request; destruct (TRADING_TYPE CONFIG); reflexivity).
  rewrite Hreq. clear Hreq.
  pose proof (safe_request_frame X (status_request CONFIG signal order_id)
                (fun past => query_order X past (sg_symbol signal) order_id) st)
    as (Ho & Hh & Hm & _).
  destruct (safe_request_answer X (status_request CONFIG signal order_id)
              (fun past => query_order X past (sg_symbol signal) order_id) st)
    as [Ha Hr].
  unfold try_catch, mbind, M_bind, bind.
  destruct (safe_request X (status_request CONFIG signal order_id) _ st)
    as [[os|e] sta]; simpl in Ha, Hr, Ho, Hh, Hm; rewrite <- Ha;
    unfold reading.
  2:{ eexists. split; [|split; [|split; [reflexivity|]]]; simpl; auto. }
  destruct (status os) as [s|]; simpl.
  2:{ eexists. split; [|split; [|split; [reflexivity|]]]; simpl; auto. }
  destruct (String.eqb s "FILLED").
  - destruct (executedQty os) as [qty|]; simpl.
    2:{ eexists. split; [|split; [|split; [reflexivity|]]]; simpl; auto. }
    destruct (avgPrice os) as [price|]; simpl.
    2:{ eexists. split; [|split; [|split; [reflexivity|]]]; simpl; auto. }
    eexists. split; [|split; [|split; [reflexivity|]]]; simpl; auto.
    split; [now rewrite Ho|]. split; [now rewrite Hh|reflexivity].
  - destruct (String.eqb s "CANCELED").
    + eexists. split; [|split; [|split; [reflexivity|]]]; simpl; auto.
      split; [now rewrite Ho|assumption].
    + eexists. split; [|split; [|split; [reflexivity|]]]; simpl; auto.
Qed.

(** The code after the loop, whatever the exchange makes of the cancel
    request. *)
Lemma monitor_timeout_effect (st : State) :
  exists st',
    monitor_timeout X CONFIG order_id signal st = (Ok TIMED_OUT, st') /\
    open_orders st' = delete order_id (open_orders st) /\
    trade_history st' = trade_history st /\
    monitor_threads st' = monitor_threads st /\
    requests st' = cancel_request CONFIG signal order_id :: requests st.
Proof.
  unfold monitor_timeout.
  assert (Hreq : (match TRADING_TYPE CONFIG with
                  | Futures =>
                      safe_request X (futures_cancel_order (sg_symbol signal) order_id)
                        (fun past => cancel X past (sg_symbol signal) order_id)
                  | Spot =>
                      safe_request X (cancel_order (sg_symbol signal) order_id)
                        (fun past => cancel X past (sg_symbol signal) order_id)
                  end)
                 = safe_request X (cancel_request CONFIG signal order_id)
                     (fun past => cancel X past (sg_symbol signal) order_id))
    by (unfold cancel_request; destruct (TRADING_TYPE CONFIG); reflexivity).
  rewrite Hreq. clear Hreq.
  pose proof (safe_request_frame X (cancel_request CONFIG signal order_id)
                (fun past => cancel X past (sg_symbol signal) order_id) st)
    as (Ho & Hh & Hm & _).
  destruct (safe_request_answer X (cancel_request CONFIG signal order_id)
              (fun past => cancel X past (sg_symbol signal) order_id) st)
    as [_ Hr].
  unfold try_catch, mbind, M_bind, bind.
  destruct (safe_request X (cancel_request CONFIG signal order_id) _ st)
    as [[v|e] sta]; simpl in Hr, Ho, Hh, Hm;
    (eexists; split; [reflexivity|]; simpl;
     split; [now rewrite Ho|]; repeat split; assumption).
Qed.

Lemma confined_round (st : State) :
  confined order_id signal st
    (let out := monitor_round X CONFIG order_id signal st in
     (match fst out with
      | Ok (Some o) => Ok (Some o)
      | Ok None => Ok None
      | Raise e => Raise e
      end, snd out)).
Proof.
  destruct (monitor_round_reading st) as (st' & Hr & Hm & Hcase).
  assert (Hreqs : exists new, requests st' = new ++ requests st /\
                    Forall (fun r => places_order r = false) new).
  { exists [status_request CONFIG signal order_id]. split; [exact Hr|].
    constructor; [apply status_request_quiet|constructor]. }
  destruct (reading _) as [qty price| |].
  - destruct Hcase as (-> & Ho & Hh & _). unfold confined. cbv zeta. simpl.
    split; [intros k Hk; rewrite Ho; now apply lookup_delete_ne|].
    split; [exact Hm|]. split; [exact Hreqs|].
    eexists. split; [exact Hh|]. repeat split.
  - destruct Hcase as (-> & Ho & Hh). unfold confined. cbv zeta. simpl.
    split; [intros k Hk; rewrite Ho; now apply lookup_delete_ne|].
    split; [exact Hm|]. split; [exact Hreqs|exact Hh].
  - destruct Hcase as (-> & Ho & Hh). unfold confined. cbv zeta. simpl.
    split; [intros k Hk; now rewrite Ho|].
    split; [exact Hm|]. split; [exact Hreqs|exact Hh].
Qed.

(** A round that reads nothing yet followed by a confined run is a
    confined run. *)
Lemma confined_after_quiet (st st1 : State)
    (out : result (option Outcome) * State) :
  quiet st st1 -> confined order_id signal st1 out ->
  confined order_id signal st out.
Proof.
  intros (Ho & Hh & Hm & n1 & Hr & Hf) (Ho' & Hm' & (n2 & Hr' & Hf') & Hh').
  split; [intros k Hk; rewrite (Ho' k Hk); now rewrite Ho|].
  split; [congruence|]. split.
  - exists (n2 ++ n1). split; [rewrite Hr', Hr; now rewrite app_assoc|].
    apply Forall_app. now split.
  - destruct (fst out) as [[[| |]|]|e]; rewrite <- ?Hh; exact Hh'.
Qed.

Lemma confined_loop (fuel : nat) (start : Q) :
  forall st,
    confined order_id signal st
      (monitor_loop fuel X CONFIG order_id signal start st).
Proof.
  induction fuel as [|n IH]; intros st.
  - simpl. repeat split. exists []. split; [reflexivity|constructor].
  - rewrite monitor_loop_S.
    unfold mbind at 1. unfold M_bind, bind at 1. unfold time, gets.
    destruct (Qltb (clock st - start) 120).
    + unfold mbind at 1. unfold bind at 1.
      pose proof (confined_round st) as Hc.
      destruct (monitor_round_reading st) as (st' & Hr & Hm & Hcase).
      destruct (reading _) as [qty price| |].
      * destruct Hcase as (Hrun & _). rewrite Hrun in Hc |- *. exact Hc.
      * destruct Hcase as (Hrun & _). rewrite Hrun in Hc |- *. exact Hc.
      * destruct Hcase as (Hrun & Ho & Hh). rewrite Hrun.
        apply confined_after_quiet with st'; [|apply IH].
        split; [exact Ho|]. split; [exact Hh|]. split; [exact Hm|].
        exists [status_request CONFIG signal order_id]. split; [exact Hr|].
        constructor; [apply status_request_quiet|constructor].
    + unfold mbind at 1. unfold bind at 1.
      destruct (monitor_timeout_effect st) as (st' & -> & Ho & Hh & Hm & Hr).
      unfold confined. simpl.
      split; [intros k Hk; rewrite Ho; now apply lookup_delete_ne|].
      split; [exact Hm|]. split; [|exact Hh].
      exists [cancel_request CONFIG signal order_id]. split; [exact Hr|].
      constructor; [apply cancel_request_quiet|constructor].
Qed.

(** X7.  Whatever the exchange answers and however long it runs, a
    monitor thread touches the entry of no order but its own, starts no
    thread and places no order; it leaves the trade history as it is,
    except when it reports a fill: then it has appended exactly one
    record, a BUY of the signal's symbol that carries no ['pnl']. *)
Theorem monitor_order_confined (fuel : nat) (st : State) :
  confined order_id signal st (_monitor_order fuel X CONFIG order_id signal st).
Proof.
  unfold _monitor_order, mbind, M_bind, bind, time, gets.
  apply confined_loop.
Qed.

End WatchExtras.

Section FillExtras.
Import Py IO Client OrderManager OrderRequests Watch.
Local Open Scope Q_scope.

Variable X : Exchange.
Variable CONFIG : Config.
Variable order_id : PyKey.
Variable signal : Signal.

Lemma reading_Filled (answer : result OrderStatus) (qty price : Q) :
  reading answer = Filled qty price ->
  exists order_status,
    answer = Ok order_status /\
    status order_status = Some "FILLED" /\
    executedQty order_status = Some qty /\
    avgPrice order_status = Some price.
Proof.
  unfold reading. destruct answer as [os|e]; [|discriminate].
  destruct (status os) as [s|] eqn:Es; [|discriminate].
  destruct (String.eqb_spec s "FILLED") as [->|Hne].
  - destruct (executedQty os) as [q|] eqn:Eq; [|discriminate].
    destruct (avgPrice os) as [a|] eqn:Ea; [|discriminate].
    intros [= <- <-]. exists os. repeat split; assumption.
  - destruct (String.eqb s "CANCELED"); discriminate.
Qed.

Lemma filled_loop (fuel : nat) (start : Q) :
  forall st st',
    monitor_loop fuel X CONFIG order_id signal start st
    = (Ok (Some FILLED), st') ->
    exists past qty price,
      reading (query_order X past (sg_symbol signal) order_id)
      = Filled qty price /\
      requests st' = status_request CONFIG signal order_id :: past /\
      open_orders st' = delete order_id (open_orders st) /\
      trade_history st'
      = trade_history st ++ [fill_record signal qty price (clock st')] /\
      head (telegrams st') = Some (OrderFilled (sg_symbol signal) order_id).
Proof.
  induction fuel as [|n IH]; intros st st'; [discriminate|].
  rewrite monitor_loop_S.
  unfold mbind at 1. unfold M_bind, bind at 1. unfold time, gets.
  destruct (Qltb (clock st - start) 120).
  - unfold mbind at 1. unfold bind at 1.
    destruct (monitor_round_reading X CONFIG order_id signal st)
      as (st1 & Hr & Hm & Hcase).
    destruct (reading _) as [qty price| |] eqn:Eread.
    + destruct Hcase as (-> & Ho & Hh & Ht). intros [= <-].
      exists (requests st), qty, price. repeat split; assumption.
    + destruct Hcase as (-> & _). discriminate.
    + destruct Hcase as (-> & Ho & Hh). intros Hrun.
      destruct (IH st1 st' Hrun) as (past & qty & price & H1 & H2 & H3 & H4 & H5).
      exists past, qty, price. rewrite <- Ho, <- Hh. repeat split; assumption.
  - unfold mbind at 1. unfold bind at 1.
    destruct (monitor_timeout_effect X CONFIG order_id signal st)
      as (st1 & -> & _). discriminate.
Qed.

(** Calls to the exchange take no negative time: the clock of a monitor
    thread never goes back. *)
Hypothesis X_latency : nonneg_latency X.

Lemma monitor_timeout_late (st : State) :
  clock st <= clock (snd (monitor_timeout X CONFIG order_id signal st)).
Proof.
  unfold monitor_timeout.
  unfold try_catch, mbind, M_bind, bind.
  destruct (TRADING_TYPE CONFIG).
  - destruct (safe_request_steady X X_latency
                (cancel_order (sg_symbol signal) order_id)
                (fun past => cancel X past (sg_symbol signal) order_id) st)
      as [(_ & _ & Hc) _].
    destruct (safe_request X (cancel_order (sg_symbol signal) order_id) _ st)
      as [[v|e] sta]; simpl in Hc |- *; exact Hc.
  - destruct (safe_request_steady X X_latency
                (futures_cancel_order (sg_symbol signal) order_id)
                (fun past => cancel X past (sg_symbol signal) order_id) st)
      as [(_ & _ & Hc) _].
    destruct (safe_request X (futures_cancel_order (sg_symbol signal) order_id)
                _ st)
      as [[v|e] sta]; simpl in Hc |- *; exact Hc.
Qed.

Lemma monitor_round_late (st : State) :
  clock st <= clock (snd (monitor_round X CONFIG order_id signal st)).
Proof.
  unfold monitor_round, try_catch, mbind, M_bind, bind.
  destruct (TRADING_TYPE CONFIG).
  - destruct (safe_request_steady X X_latency
                (get_order (sg_symbol signal) order_id)
                (fun past => query_order X past (sg_symbol signal) order_id) st)
      as [(_ & _ & Hc) _].
    destruct (safe_request X (get_order (sg_symbol signal) order_id) _ st)
      as [[os|e] sta]; simpl in Hc |- *; [|lra].
    destruct (status os) as [s|]; simpl; [|lra].
    destruct (String.eqb s "FILLED").
    + destruct (executedQty os); simpl; [|lra].
      destruct (avgPrice os); simpl; lra.
    + destruct (String.eqb s "CANCELED"); simpl; lra.
  - destruct (safe_request_steady X X_latency
                (futures_get_order (sg_symbol signal) order_id)
                (fun past => query_order X past (sg_symbol signal) order_id) st)
      as [(_ & _ & Hc) _].
    destruct (safe_request X (futures_get_order (sg_symbol signal) order_id) _ st)
      as [[os|e] sta]; simpl in Hc |- *; [|lra].
    destruct (status os) as [s|]; simpl; [|lra].
    destruct (String.eqb s "FILLED").
    + destruct (executedQty os); simpl; [|lra].
      destruct (avgPrice os); simpl; lra.
    + destruct (String.eqb s "CANCELED"); simpl; lra.
Qed.

Lemma monitor_loop_late (fuel : nat) (start : Q) :
  forall st,
    clock st
    <= clock (snd (monitor_loop fuel X CONFIG order_id signal start st)).
Proof.
  induction fuel as [|n IH]; intros st; [apply Qle_refl|].
  rewrite monitor_loop_S.
  unfold mbind at 1. unfold M_bind, bind at 1. unfold time, gets.
  destruct (Qltb (clock st - start) 120).
  - unfold mbind at 1. unfold bind at 1.
    pose proof (monitor_round_late st) as Hr.
    destruct (monitor_round X CONFIG order_id signal st) as [[[o|]|e] st1];
      simpl in Hr |- *.
    + exact Hr.
    + eapply Qle_trans; [exact Hr|apply IH].
    + exact Hr.
  - unfold mbind at 1. unfold bind at 1.
    pose proof (monitor_timeout_late st) as Ht.
    destruct (monitor_timeout X CONFIG order_id signal st) as [[o|e] st1];
      simpl in Ht |- *; exact Ht.
Qed.

(** X8.  When [_monitor_order] reports a fill, the last thing it asked the
    exchange was the status of the order, the answer said FILLED, and the
    one record it has appended carries the executed quantity and the
    average price of that answer, the signal's symbol and strategy, the
    side BUY, no ['pnl'], and a time stamp taken between the start of
    the monitoring and its return; the order is out of the mapping and
    the operator has been told. *)
Theorem monitor_order_fill_record (fuel : nat) (st st' : State) :
  _monitor_order fuel X CONFIG order_id signal st = (Ok (Some FILLED), st') ->
  exists past order_status qty price stamp,
    requests st' = status_request CONFIG signal order_id :: past /\
    query_order X past (sg_symbol signal) order_id = Ok order_status /\
    status order_status = Some "FILLED" /\
    executedQty order_status = Some qty /\
    avgPrice order_status = Some price /\
    trade_history st'
    = trade_history st ++
        [ {| tr_symbol := sg_symbol signal; tr_side := "BUY";
             tr_size := qty; tr_price := price;
             tr_timestamp := stamp;
             tr_signal_type := sg_type signal; tr_pnl := None |} ] /\
    clock st <= stamp <= clock st' /\
    open_orders st' = delete order_id (open_orders st) /\
    head (telegrams st') = Some (OrderFilled (sg_symbol signal) order_id).
Proof.
  unfold _monitor_order, mbind, M_bind, bind, time, gets. intros Hrun.
  pose proof (monitor_loop_late fuel (clock st) st) as Hlate.
  rewrite Hrun in Hlate. simpl in Hlate.
  destruct (filled_loop fuel (clock st) st st' Hrun)
    as (past & qty & price & Hread & Hr & Ho & Hh & Ht).
  destruct (reading_Filled _ _ _ Hread) as (os & Hos & Hs & Hq & Ha).
  exists past, os, qty, price, (clock st').
  split; [exact Hr|]. split; [exact Hos|]. split; [exact Hs|].
  split; [exact Hq|]. split; [exact Ha|]. split; [exact Hh|].
  split; [split; [exact Hlate|apply Qle_refl]|].
  split; [exact Ho|exact Ht].
Qed.

End FillExtras.

Section PendingExtras.
Import Py IO Client OrderManager OrderRequests Watch.
Local Open Scope Q_scope.

Variable X : Exchange.
Hypothesis X_latency : nonneg_latency X.
Variable CONFIG : Config.
Variable order_id : PyKey.
Variable signal : Signal.

(** No answer of the exchange is ever read as a fill or a cancellation. *)
Hypothesis X_pending :
  forall past,
    reading (query_order X past (sg_symbol signal) order_id) = Pending.

Lemma pending_loop (start : Q) (n : nat) :
  forall st,
    120 - (clock st - start) <= 5 * inject_Z (Z.of_nat n) ->
    exists st',
      monitor_loop (S n) X CONFIG order_id signal start st
      = (Ok (Some TIMED_OUT), st') /\
      open_orders st' = delete order_id (open_orders st) /\
      trade_history st' = trade_history st /\
      head (requests st') = Some (cancel_request CONFIG signal order_id) /\
      start + 120 <= clock st'.
Proof.
  induction n as [|n IH]; intros st Hrem; rewrite monitor_loop_S;
    unfold mbind at 1; unfold M_bind, bind at 1; unfold time, gets.
  - change (inject_Z (Z.of_nat 0)) with 0 in Hrem.
    replace (Qltb (clock st - start) 120) with false
      by (symmetry; apply Qltb_ge; lra).
    unfold mbind at 1. unfold bind at 1.
    pose proof (monitor_timeout_late X CONFIG order_id signal X_latency st)
      as Hlate.
    destruct (monitor_timeout_effect X CONFIG order_id signal st)
      as (st' & Hrun & Ho & Hh & _ & Hr).
    rewrite Hrun in Hlate |- *. simpl in Hlate.
    exists st'. split; [reflexivity|]. split; [exact Ho|].
    split; [exact Hh|]. split; [now rewrite Hr|]. lra.
  - destruct (Qltb (clock st - start) 120) eqn:E.
    + unfold mbind at 1. unfold bind at 1.
      destruct (monitor_round_cases X X_latency CONFIG order_id signal st)
        as (r & st1 & Hrun & Hcases).
      destruct (monitor_round_reading X CONFIG order_id signal st)
        as (st1' & _ & _ & Hread).
      rewrite X_pending in Hread. destruct Hread as (Hrun' & _).
      rewrite Hrun' in Hrun. injection Hrun as <- <-.
      rewrite Hrun'. destruct Hcases as (Ho & Hh & Hc).
      destruct (IH st1') as (st' & Hloop & Ho' & Hh' & Hr' & Hc').
      { rewrite Nat2Z.inj_succ, <- Z.add_1_r, inject_Z_plus in Hrem.
        change (inject_Z 1) with 1 in Hrem. lra. }
      exists st'. split; [exact Hloop|]. rewrite <- Ho, <- Hh.
      repeat split; assumption.
    + apply Qltb_ge in E.
      unfold mbind at 1. unfold bind at 1.
      pose proof (monitor_timeout_late X CONFIG order_id signal X_latency st)
        as Hlate.
      destruct (monitor_timeout_effect X CONFIG order_id signal st)
        as (st' & Hrun & Ho & Hh & _ & Hr).
      rewrite Hrun in Hlate |- *. simpl in Hlate.
      exists st'. split; [reflexivity|]. split; [exact Ho|].
      split; [exact Hh|]. split; [now rewrite Hr|]. lra.
Qed.

(** X9.  If no answer to the status query is ever read as a fill or a
    cancellation (the call fails, a field is missing, as when a FILLED
    answer has no ['avgPrice'], or the status is another one), then
    [_monitor_order] gives up no sooner than 120 s after it started: it
    returns at the time-out exit, its last request is the cancellation of
    the order, the order is out of the mapping and no trade is recorded. *)
Theorem monitor_order_unread_fill (fuel : nat) (st : State) :
  (25 <= fuel)%nat ->
  exists st',
    _monitor_order fuel X CONFIG order_id signal st
    = (Ok (Some TIMED_OUT), st') /\
    clock st + 120 <= clock st' /\
    head (requests st') = Some (cancel_request CONFIG signal order_id) /\
    open_orders st' = delete order_id (open_orders st) /\
    trade_history st' = trade_history st.
Proof.
  intros Hfuel. unfold _monitor_order, mbind, M_bind, bind, time, gets.
  destruct fuel as [|n]; [lia|].
  destruct (pending_loop (clock st) n st) as (st' & Hrun & Ho & Hh & Hr & Hc).
  { assert (Hn : (24 <= Z.of_nat n)%Z) by lia.
    rewrite Zle_Qle in Hn. change (inject_Z 24) with 24 in Hn. lra. }
  exists st'. repeat split; assumption.
Qed.

End PendingExtras.

Section WatchWitnesses.
Import Py IO Client OrderManager OrderRequests Watch.
Local Open Scope Q_scope.

Lemma monitor_order_fill_record_witness :
  let X := Sample.exchange 30000
             (Ok {| status := Some "FILLED"; executedQty := Some 0.003;
                    avgPrice := Some 30010 |}) in
  let out := _monitor_order 1 X (Sample.config 0.02) (KInt 42) Sample.signal
               Sample.tracking_state in
  exists t,
    trade_history (snd out) = [t] /\
    tr_size t = 0.003 /\ tr_price t = 30010 /\ tr_pnl t = None /\
    open_orders (snd out) = delete (KInt 42) (open_orders Sample.tracking_state).
Proof.
  intros X out.
  assert (Hlat : nonneg_latency X) by (intros past req; discriminate).
  destruct (monitor_order_fill_record X (Sample.config 0.02) (KInt 42)
              Sample.signal Hlat 1 Sample.tracking_state (snd out))
    as (past & os & qty & price & stamp & _ & Hq & _ & Hqty & Hprice & Hh
        & _ & Ho & _).
  - vm_compute. reflexivity.
  - injection Hq as <-. injection Hqty as <-. injection Hprice as <-.
    eexists. split; [exact Hh|]. split; [reflexivity|].
    split; [reflexivity|]. split; [reflexivity|exact Ho].
Defined.

(** A spot order reported FILLED without an average price. *)
Lemma monitor_order_unread_fill_witness :
  let X := Sample.exchange 30000
             (Ok {| status := Some "FILLED"; executedQty := Some 0.003;
                    avgPrice := None |}) in
  exists st',
    _monitor_order 25 X (Sample.config 0.02) (KInt 42) Sample.signal
      Sample.tracking_state
    = (Ok (Some TIMED_OUT), st') /\
    trade_history st' = [] /\
    open_orders st' !! KInt 42 = None.
Proof.
  intros X.
  assert (Hlat : nonneg_latency X) by (intros past req; discriminate).
  destruct (monitor_order_unread_fill X Hlat (Sample.config 0.02) (KInt 42)
              Sample.signal (fun past => eq_refl) 25 Sample.tracking_state)
    as (st' & Hrun & _ & _ & Ho & Hh); [lia|].
  exists st'. split; [exact Hrun|]. split; [exact Hh|].
  rewrite Ho. apply lookup_delete_eq.
Defined.

End WatchWitnesses.

(** ** Recovery file *)

Ltac quiet_io :=
  match goal with
  | |- keeps quiet (_ ≫= _) => apply (keeps_bind quiet quiet_trans); [|intros ?]
  | |- keeps quiet (IO.try_catch _ _) =>
      apply (keeps_try_catch quiet quiet_trans); [|intros ?]
  | |- keeps quiet (IO.ret _) => apply (keeps_ret quiet quiet_refl)
  | |- keeps quiet (mret _) => apply (keeps_mret quiet quiet_refl)
  | |- keeps quiet IO.time => apply (keeps_time quiet quiet_refl)
  | |- keeps quiet (IO.modify _) =>
      apply (keeps_modify quiet); intros ?; repeat split;
      exists []; split; [reflexivity|constructor]
  | |- keeps quiet (Client.safe_request _ _ _) =>
      apply quiet_safe_request; reflexivity
  | |- keeps quiet (match ?x with _ => _ end) => destruct x
  end.

Section RecoveryExtras.
Import Py IO Client PyJson Recovery.
Local Open Scope Q_scope.

Lemma quiet_save_recovery_state X CONFIG :
  keeps quiet (save_recovery_state X CONFIG).
Proof. unfold save_recovery_state. repeat quiet_io. Qed.

(** X10.  [save_recovery_state] never raises, whatever the exchange
    answers.  It leaves the managed orders, the trade history and the
    monitor threads alone, and the requests it sends place no order.
    (Nothing is said here of the file it leaves.) *)
Theorem save_recovery_state_safe (X : Exchange) (CONFIG : Config)
    (st : State) :
  exists st1,
    save_recovery_state X CONFIG st = (Ok tt, st1) /\
    open_orders st1 = open_orders st /\
    trade_history st1 = trade_history st /\
    monitor_threads st1 = monitor_threads st /\
    exists new, requests st1 = new ++ requests st /\
                Forall (fun r => places_order r = false) new.
Proof.
  destruct (save_recovery_state_spec X CONFIG st) as (st1 & Hrun & _).
  pose proof (quiet_save_recovery_state X CONFIG st) as Hq.
  rewrite Hrun in Hq. simpl in Hq.
  exists st1. split; [exact Hrun|exact Hq].
Qed.

(** Saving, waiting [d] seconds and loading, when the save wrote the
    file. *)
Lemma save_sleep_load (X : Exchange) (CONFIG : Config) (st : State) (d : Q) :
  recovery_json (snd (save_recovery_state X CONFIG st)) <> recovery_json st ->
  exists pos ord now,
    fst ((save_recovery_state X CONFIG;; sleep d;; load_recovery_state) st)
    = Ok (if Qgtb d 3600 then None
          else Some (load (dump (recovery_data CONFIG pos ord st now)))).
Proof.
  intros Hwritten.
  destruct (save_recovery_state_spec X CONFIG st)
    as (st1 & Hrun & _ & _ & [Hsame|(pos & ord & Hfile)]).
  { rewrite Hrun in Hwritten. simpl in Hwritten. contradiction. }
  exists pos, ord, (clock st1).
  unfold mbind at 1. unfold M_bind, bind at 1. rewrite Hrun.
  unfold mbind at 1. unfold bind at 1. unfold sleep, modify.
  rewrite (load_recovery_state_snapshot CONFIG pos ord st (clock st1)
             (set_clock (clock st1 + d) st1) Hfile).
  cbn [fst clock set_clock]. unfold Qgtb.
  rewrite (Qltb_proper 3600 3600 (Qeq_refl _)
             (clock st1 + d - clock st1) d) by ring.
  reflexivity.
Qed.

Lemma slice_from_short {A} (n : Z) (l : list A) :
  (0 < n)%Z -> (Z.of_nat (length l) <= n)%Z -> slice_from (- n) l = l.
Proof.
  intros Hn Hlen. rewrite slice_from_neg by assumption.
  replace (length l - Z.to_nat n)%nat with 0%nat by lia. reflexivity.
Qed.

(** X11.  A snapshot that [save_recovery_state] has written and that
    [load_recovery_state] reads [d] seconds later comes back when [d] is
    at most 3600 and is discarded when [d] is more; the state that comes
    back holds the last 50 trade records as they were saved, which is the
    whole history when it has at most 50 records. *)
Theorem recovery_file_round_trip (X : Exchange) (CONFIG : Config)
    (st : State) (d : Q) :
  recovery_json (snd (save_recovery_state X CONFIG st)) <> recovery_json st ->
  let run := (save_recovery_state X CONFIG;; sleep d;; load_recovery_state) st in
  (d <= 3600 ->
   exists state,
     fst run = Ok (Some state) /\
     getitem state "trade_history"
     = Ok (PList (map trade_to_py (slice_from (-50) (trade_history st)))) /\
     ((length (trade_history st) <= 50)%nat ->
      getitem state "trade_history"
      = Ok (PList (map trade_to_py (trade_history st))))) /\
  (3600 < d -> fst run = Ok None).
Proof.
  intros Hwritten run.
  destruct (save_sleep_load X CONFIG st d Hwritten) as (pos & ord & now & Hrun).
  fold run in Hrun. split.
  - intros Hfresh. rewrite Hrun.
    replace (Qgtb d 3600) with false by (symmetry; apply Qltb_ge; exact Hfresh).
    eexists. split; [reflexivity|].
    rewrite load_dump_recovery_data.
    split; [reflexivity|]. intros Hlen.
    change (-50)%Z with (- (50))%Z. rewrite slice_from_short by lia.
    reflexivity.
  - intros Hstale. rewrite Hrun.
    replace (Qgtb d 3600) with true by (symmetry; apply Qltb_lt; exact Hstale).
    reflexivity.
Qed.

Lemma dict_set_keeps (k k' : PyKey) (v : PyVal) (d : list (PyKey * PyVal)) :
  is_Some (assoc k d) -> is_Some (assoc k (dict_set k' v d)).
Proof.
  induction d as [|[k0 v0] d IH]; simpl; [intros [x Hx]; discriminate|].
  intros H. destruct (decide (k' = k0)) as [->|Hne]; simpl.
  - destruct (decide (k = k0)); [eauto|exact H].
  - destruct (decide (k = k0)); [eauto|]. apply IH, H.
Qed.

Lemma dict_set_has (k : PyKey) (v : PyVal) (d : list (PyKey * PyVal)) :
  is_Some (assoc k (dict_set k v d)).
Proof.
  induction d as [|[k0 v0] d IH]; simpl.
  - rewrite decide_True by reflexivity. eauto.
  - destruct (decide (k = k0)) as [->|Hne]; simpl.
    + rewrite decide_True by reflexivity. eauto.
    + rewrite decide_False by assumption. exact IH.
Qed.

Lemma loaded_has_key (items : list (string * Json)) (name : string) :
  forall acc : list (PyKey * PyVal),
    is_Some (assoc (KStr name) acc) \/ name ∈ map fst items ->
    is_Some (assoc (KStr name)
               (fold_left (fun acc kv => dict_set (KStr (fst kv)) (load (snd kv)) acc)
                  items acc)).
Proof.
  induction items as [|[n j] items IH]; intros acc H; simpl.
  - destruct H as [H|H]; [exact H|inversion H].
  - apply IH. destruct H as [H|H].
    + left. now apply dict_set_keeps.
    + simpl in H. apply elem_of_cons in H as [->|H]; [|now right].
      left. apply dict_set_has.
Qed.

(** X12.  An order filed under an integer identifier does not survive the
    recovery file: in the state that comes back the managed-order mapping
    has string keys only, so it differs from the mapping that was saved
    and has no entry under the integer identifier; what was filed under
    it is found under the decimal string of the identifier. *)
Theorem recovery_loses_integer_ids (X : Exchange) (CONFIG : Config)
    (st : State) (d : Q) (z : Z) (order : ManagedOrder) :
  recovery_json (snd (save_recovery_state X CONFIG st)) <> recovery_json st ->
  d <= 3600 ->
  open_orders st !! KInt z = Some order ->
  let run := (save_recovery_state X CONFIG;; sleep d;; load_recovery_state) st in
  exists state orders,
    fst run = Ok (Some state) /\
    getitem state "open_orders" = Ok (PDict orders) /\
    eq (open_orders_to_py (open_orders st)) (PDict orders) = false /\
    assoc (KInt z) orders = None /\
    is_Some (assoc (KStr (pretty z)) orders).
Proof.
  intros Hwritten Hfresh Hz run.
  destruct (save_sleep_load X CONFIG st d Hwritten) as (pos & ord & now & Hrun).
  fold run in Hrun. rewrite Hrun.
  replace (Qgtb d 3600) with false by (symmetry; apply Qltb_ge; exact Hfresh).
  eexists _, _. split; [reflexivity|].
  rewrite load_dump_recovery_data.
  split; [reflexivity|].
  split; [exact (open_orders_not_restored _ z order Hz)|].
  split.
  - apply assoc_int_None, loaded_keys_str. reflexivity.
  - apply loaded_has_key. right.
    apply list_elem_of_In, List.in_map_iff.
    exists (pretty z, dump (managed_to_py order)). split; [reflexivity|].
    apply List.in_map_iff.
    exists (KInt z, managed_to_py order). split; [reflexivity|].
    apply List.in_map_iff.
    exists (KInt z, order). split; [reflexivity|].
    apply list_elem_of_In, elem_of_map_to_list. exact Hz.
Qed.

End RecoveryExtras.

Section RecoveryWitnesses.
Import Py IO Client PyJson Recovery.
Local Open Scope Q_scope.

(** Order 42 and one trade on the books, saved and read back ten seconds
    later. *)
Lemma recovery_file_round_trip_witness :
  let X := Sample.exchange 30000 (Raise ConnectionError) in
  let run := (save_recovery_state X (Sample.config 0.02);;
              sleep 10;;
              load_recovery_state) Sample.busy_state in
  exists state,
    fst run = Ok (Some state) /\
    getitem state "trade_history"
    = Ok (PList (map trade_to_py (trade_history Sample.busy_state))).
Proof.
  intros X run.
  assert (Hwritten :
            recovery_json
              (snd (save_recovery_state X (Sample.config 0.02)
                      Sample.busy_state))
            <> recovery_json Sample.busy_state)
    by (vm_compute; discriminate).
  destruct (recovery_file_round_trip X (Sample.config 0.02)
              Sample.busy_state 10 Hwritten) as [Hfresh _].
  destruct Hfresh as (state & Hrun & _ & Hall); [now vm_compute|].
  exists state. split; [exact Hrun|]. apply Hall. simpl. lia.
Defined.

Lemma recovery_loses_integer_ids_witness :
  let X := Sample.exchange 30000 (Raise ConnectionError) in
  let run := (save_recovery_state X (Sample.config 0.02);;
              sleep 10;;
              load_recovery_state) Sample.busy_state in
  exists state orders,
    fst run = Ok (Some state) /\
    getitem state "open_orders" = Ok (PDict orders) /\
    assoc (KInt 42) orders = None /\
    is_Some (assoc (KStr (pretty 42%Z)) orders).
Proof.
  intros X run.
  assert (Hwritten :
            recovery_json
              (snd (save_recovery_state X (Sample.config 0.02)
                      Sample.busy_state))
            <> recovery_json Sample.busy_state)
    by (vm_compute; discriminate).
  destruct (recovery_loses_integer_ids X (Sample.config 0.02)
              Sample.busy_state 10 42
              {| mo_signal := Sample.signal;
                 mo_order := PDict [(KStr "orderId", PInt 42)];
                 mo_timestamp := 1000 |} Hwritten)
    as (state & orders & Hrun & Hget & _ & Hint & Hstr).
  - now vm_compute.
  - reflexivity.
  - exists state, orders. repeat split; assumption.
Defined.

End RecoveryWitnesses.

(** ** Sizing and signals at the edges *)

Section SizerExtras.
Import Py Sizer SizerSpec SignalGenerator.
Local Open Scope Q_scope.

Variable CONFIG : Config.
Variable SYMS : gmap string SymbolConfig.

Lemma unconfigured_unsized (symbol : string) (balance : Q)
    (type : Strategy) (a p : Q) (history : list Trade) :
  SYMS !! symbol = None ->
  calculate_position_size CONFIG SYMS symbol balance type a p history = None.
Proof.
  intros Hnone.
  destruct (calculate_position_size CONFIG SYMS symbol balance type a p history)
    as [q|] eqn:E; [|reflexivity].
  apply calculate_position_size_Some in E
    as (risk & sym & c & _ & Hsym & _). congruence.
Qed.

(** X13.  For a symbol that is not configured, [calculate_position_size]
    answers [None] and raises nothing, whatever the other arguments (the
    lookup of the symbol fails before any division), and
    [generate_signal] emits no signal. *)
Theorem unconfigured_symbol_no_signal (sys : SystemStatus)
    (df : option (list FeatureRow)) (symbol : string) (balance : Q)
    (history : list Trade) :
  SYMS !! symbol = None ->
  (forall type a p,
      calculate_position_size CONFIG SYMS symbol balance type a p history
      = None) /\
  generate_signal CONFIG SYMS sys df symbol balance history = None.
Proof.
  intros Hnone. split; [intros; now apply unconfigured_unsized|].
  unfold generate_signal, system_guard.
  destruct (Qgtb _ _); [reflexivity|].
  destruct (15 <? _)%Z; [reflexivity|].
  destruct df as [frame|]; [|reflexivity].
  destruct (length frame <? 2)%nat; [reflexivity|].
  unfold generate_signal_body, iloc_last.
  destruct (last frame) as [current|]; [|reflexivity].
  destruct (iloc_prev frame) as [prev|]; [|reflexivity].
  destruct (Qgtb (atr current) _); [reflexivity|].
  rewrite unconfigured_unsized by assumption. reflexivity.
Qed.

(** X14.  A quantity that [calculate_position_size] returns is never
    negative when the minimum quantity of the symbol is not, and never
    below that minimum rounded to five decimals. *)
Theorem calculate_position_size_floor (symbol : string) (balance : Q)
    (type : Strategy) (a p : Q) (history : list Trade)
    (sym : SymbolConfig) (q : Q) :
  SYMS !! symbol = Some sym ->
  calculate_position_size CONFIG SYMS symbol balance type a p history
    = Some q ->
  round5 (min_qty sym) <= q /\ (0 <= min_qty sym -> 0 <= q).
Proof.
  intros Hsym E.
  apply calculate_position_size_Some in E
    as (risk & sym' & c & _ & Hsym' & _ & _ & _ & Hc & ->).
  rewrite Hsym in Hsym'. injection Hsym' as <-.
  split; [now apply round5_mono|].
  intros Hmin.
  apply Qle_trans with (round5 0); [now vm_compute|].
  apply round5_mono. lra.
Qed.

End SizerExtras.

Section SizerWitnesses.
Import Py Sizer SizerSpec.
Local Open Scope Q_scope.

Lemma unconfigured_symbol_no_signal_witness :
  calculate_position_size (Sample.config 0.02) Sample.table "DOGEUSDT"
    1000000 MOMENTUM 100 30000 [] = None /\
  SignalGenerator.generate_signal (Sample.config 0.02) Sample.table
    Sample.calm (Some [Sample.trending_row; Sample.trending_row])
    "DOGEUSDT" 1000000 [] = None.
Proof.
  destruct (unconfigured_symbol_no_signal (Sample.config 0.02) Sample.table
              Sample.calm (Some [Sample.trending_row; Sample.trending_row])
              "DOGEUSDT" 1000000 [] eq_refl) as [Hsize Hsignal].
  split; [apply Hsize|exact Hsignal].
Defined.

Lemma calculate_position_size_floor_witness :
  round5 (min_qty Sample.btc) <= 0.00322 /\ 0 <= 0.00322.
Proof.
  destruct (calculate_position_size_floor (Sample.config 0.02) Sample.table
              "BTCUSDT" 1000000 MOMENTUM 100 30000 [] Sample.btc 0.00322)
    as [Hfloor Hpos].
  - reflexivity.
  - reflexivity.
  - split; [exact Hfloor|]. apply Hpos. now vm_compute.
Defined.

End SizerWitnesses.

Section SignalExtras.
Import Py Sizer SignalGenerator SignalSpec.
Local Open Scope Q_scope.

Variable CONFIG : Config.
Variable SYMS : gmap string SymbolConfig.


End SignalExtras.

Section SignalWitnesses.
Import Py Sizer SignalGenerator SignalSpec.
Local Open Scope Q_scope.


End SignalWitnesses.

(** ** Moving averages *)

Section SmoothingFacts.
Import Series Indicators MovingAverages.
Local Open Scope Q_scope.

Lemma ewm_from_length (alpha : Q) (s : list F) :
  forall (w : F) (o : Q), length (ewm_from alpha w o s) = length s.
Proof.
  induction s as [|cur s IH]; intros w o; [reflexivity|].
  destruct (ewm_from_cons alpha w o cur s) as (w' & o' & ->).
  simpl. now rewrite IH.
Qed.

Lemma ewm_mean_length (alpha : Q) (s : list F) :
  length (ewm_mean alpha s) = length s.
Proof.
  destruct s as [|x s]; [reflexivity|]. simpl. now rewrite ewm_from_length.
Qed.

(** One step of the recursion on two numbers. *)
Lemma ewm_from_numbers (alpha w o c : Q) (s : list F) :
  ewm_from alpha (Num w) o (Num c :: s)
  = (if ne (Num w) (Num c)
     then div (add (mul (Num (o * (1 - alpha))) (Num w))
                   (mul (Num alpha) (Num c)))
              (Num (o * (1 - alpha) + alpha))
     else Num w)
    :: ewm_from alpha
         (if ne (Num w) (Num c)
          then div (add (mul (Num (o * (1 - alpha))) (Num w))
                        (mul (Num alpha) (Num c)))
                   (Num (o * (1 - alpha) + alpha))
          else Num w) 1 s.
Proof. reflexivity. Qed.

(** With the weight 1 the step is the convex combination of the running
    mean and the new value. *)
Lemma ewm_step (alpha w c : Q) :
  exists w',
    (if ne (Num w) (Num c)
     then div (add (mul (Num (1 * (1 - alpha))) (Num w))
                   (mul (Num alpha) (Num c)))
              (Num (1 * (1 - alpha) + alpha))
     else Num w) = Num w' /\
    w' == (1 - alpha) * w + alpha * c.
Proof.
  unfold ne. destruct (Qeq_bool w c) eqn:E; cbn [negb].
  - apply Qeq_bool_iff in E. exists w. split; [reflexivity|].
    rewrite <- E. ring.
  - cbn [mul add div].
    destruct (Qeq_bool (1 * (1 - alpha) + alpha) 0) eqn:Ez.
    { apply Qeq_bool_iff in Ez. exfalso. lra. }
    eexists. split; [reflexivity|]. field. lra.
Qed.

Section Convex.
Variable P : Q -> Prop.
Hypothesis P_convex :
  forall a b t x,
    0 <= t <= 1 -> P a -> P b -> x == (1 - t) * a + t * b -> P x.

Lemma ewm_from_number_in (alpha : Q) :
  0 <= alpha <= 1 ->
  forall (s : list F) (w : Q),
    P w -> Forall (number_in P) s ->
    Forall (number_in P) (ewm_from alpha (Num w) 1 s).
Proof.
  intros Ha. induction s as [|cur s IH]; intros w Hw Hs; [constructor|].
  apply Forall_cons in Hs as [(c & -> & Hc) Hs].
  rewrite ewm_from_numbers.
  destruct (ewm_step alpha w c) as (w' & -> & Hw').
  assert (Pw' : P w') by (apply (P_convex w c alpha); assumption).
  apply Forall_cons. split; [exists w'; now split|]. now apply IH.
Qed.

Lemma ewm_mean_number_in (alpha : Q) (s : list F) :
  0 <= alpha <= 1 ->
  Forall (number_in P) s -> Forall (number_in P) (ewm_mean alpha s).
Proof.
  intros Ha Hs. destruct s as [|x s]; [constructor|].
  apply Forall_cons in Hs as [(q & -> & Hq) Hs]. simpl.
  apply Forall_cons. split; [exists q; now split|].
  now apply ewm_from_number_in.
Qed.

End Convex.

Lemma interval_convex (lo hi a b t x : Q) :
  0 <= t <= 1 -> lo <= a <= hi -> lo <= b <= hi ->
  x == (1 - t) * a + t * b -> lo <= x <= hi.
Proof. intros Ht Ha Hb ->. split; nra. Qed.

Lemma nonneg_convex (a b t x : Q) :
  0 <= t <= 1 -> 0 <= a -> 0 <= b -> x == (1 - t) * a + t * b -> 0 <= x.
Proof. intros Ht Ha Hb ->. nra. Qed.

Lemma wilder_alpha (period : positive) : 0 <= 1 # period <= 1.
Proof. unfold Qle. simpl. lia. Qed.

Lemma ema_alpha (period : positive) : 0 <= 2 # (period + 1) <= 1.
Proof. unfold Qle. simpl. lia. Qed.

End SmoothingFacts.

Section SmoothingExtras.
Import Series Indicators MovingAverages.
Local Open Scope Q_scope.

(** X16.  On a series of numbers that all lie between [lo] and [hi], the
    EMA is a series of the same length, of numbers that all lie between
    [lo] and [hi], and it starts at the first value of the series. *)
Theorem calculate_ema_bounded (close : list F) (period : positive)
    (lo hi : Q) :
  Forall (number_in (fun q => lo <= q <= hi)) close ->
  Forall (number_in (fun q => lo <= q <= hi))
    (calculate_ema_accurate close period) /\
  length (calculate_ema_accurate close period) = length close /\
  head (calculate_ema_accurate close period) = head close.
Proof.
  intros Hclose. unfold calculate_ema_accurate. split; [|split].
  - apply ewm_mean_number_in; [|apply ema_alpha|exact Hclose].
    intros a b t x. apply interval_convex.
  - apply ewm_mean_length.
  - destruct close; reflexivity.
Qed.

Lemma calculate_ema_bounded_witness :
  Forall (number_in (fun q => 29000 <= q <= 31000))
    (calculate_ema_accurate [Num 30000; Num 31000; Num 29000] 30).
Proof.
  apply (calculate_ema_bounded [Num 30000; Num 31000; Num 29000] 30
           29000 31000).
  repeat constructor; eexists; (split; [reflexivity|]); split; now vm_compute.
Defined.

End SmoothingExtras.

Section RangeFacts.
Import Series Indicators MovingAverages.
Local Open Scope Q_scope.

Lemma map_lookup_Some {A B} (f : A -> B) (l : list A) (i : nat) (y : B) :
  map f l !! i = Some y -> exists x, l !! i = Some x /\ y = f x.
Proof.
  revert i. induction l as [|a l IH]; intros i; [discriminate|].
  destruct i as [|i]; simpl.
  - intros [= <-]. eauto.
  - apply IH.
Qed.

Lemma Forall_removelast {A} (P : A -> Prop) (l : list A) :
  Forall P l -> Forall P (removelast l).
Proof.
  induction l as [|a l IH]; intros H; [constructor|].
  apply Forall_cons in H as [Ha Hl].
  destruct l as [|b l]; [constructor|].
  change (removelast (a :: b :: l)) with (a :: removelast (b :: l)).
  apply Forall_cons. split; [exact Ha|now apply IH].
Qed.

(** A shifted series of numbers holds numbers and one NaN. *)
Lemma shift_number_or_nan (s : list F) :
  Forall number_or_nan s -> Forall number_or_nan (shift s).
Proof.
  intros H. destruct s as [|x s]; [constructor|].
  unfold shift. apply Forall_cons. split; [now left|].
  now apply Forall_removelast.
Qed.

Lemma closes_number_or_nan (bars : list (Q * Q * Q)) :
  Forall number_or_nan (closes bars).
Proof.
  unfold closes. induction bars as [|bar bars IH]; simpl; constructor;
    [right; eauto|exact IH].
Qed.

(** The distance of a number to a value of the shifted closes. *)
Lemma abs_sub_shifted (a : Q) (y : F) :
  number_or_nan y ->
  abs (sub (Num a) y) = NaN \/
  number_in (fun q => 0 <= q) (abs (sub (Num a) y)).
Proof.
  intros [->|[c ->]]; [now left|]. right.
  exists (Qabs (a + - c)). split; [reflexivity|apply Qabs_nonneg].
Qed.

Lemma max_skipna_nonneg (x y : F) :
  number_in (fun q => 0 <= q) x ->
  y = NaN \/ number_in (fun q => 0 <= q) y ->
  number_in (fun q => 0 <= q) (max_skipna x y).
Proof.
  intros (a & -> & Ha) [->|(b & -> & Hb)].
  - exists a. now split.
  - unfold max_skipna. destruct (gt (Num b) (Num a)).
    + exists b. now split.
    + exists a. now split.
Qed.

Lemma true_range_nonneg (bars : list (Q * Q * Q)) :
  Forall (fun bar => snd (fst bar) <= fst (fst bar)) bars ->
  Forall (number_in (fun q => 0 <= q))
    (true_range (highs bars) (lows bars) (closes bars)).
Proof.
  intros Hbars. apply Forall_lookup. intros i x Hx.
  unfold true_range in Hx.
  apply lookup_zip_with_Some in Hx as (m & t3 & -> & Hm & Ht3).
  apply lookup_zip_with_Some in Hm as (t1 & t2 & -> & Ht1 & Ht2).
  apply lookup_zip_with_Some in Ht1 as (h & l & -> & Hh & Hl).
  apply map_lookup_Some in Ht2 as (d2 & Hd2 & ->).
  apply lookup_zip_with_Some in Hd2 as (h2 & y2 & -> & Hh2 & Hy2).
  apply map_lookup_Some in Ht3 as (d3 & Hd3 & ->).
  apply lookup_zip_with_Some in Hd3 as (l3 & y3 & -> & Hl3 & Hy3).
  unfold highs in Hh, Hh2. unfold lows in Hl, Hl3.
  apply map_lookup_Some in Hh as (bar & Hbar & ->).
  apply map_lookup_Some in Hl as (bar' & Hbar' & ->).
  apply map_lookup_Some in Hh2 as (bar2 & Hbar2 & ->).
  apply map_lookup_Some in Hl3 as (bar3 & Hbar3 & ->).
  rewrite Hbar in Hbar'. injection Hbar' as <-.
  pose proof (shift_number_or_nan _ (closes_number_or_nan bars)) as Hshift.
  rewrite Forall_lookup in Hshift.
  pose proof (Hshift i y2 Hy2) as Hn2. pose proof (Hshift i y3 Hy3) as Hn3.
  rewrite Forall_lookup in Hbars. pose proof (Hbars i bar Hbar) as Hhl.
  simpl in Hhl.
  apply max_skipna_nonneg; [|now apply abs_sub_shifted].
  apply max_skipna_nonneg; [|now apply abs_sub_shifted].
  eexists. split; [reflexivity|]. simpl. lra.
Qed.

End RangeFacts.

Section RangeExtras.
Import Series Indicators MovingAverages.
Local Open Scope Q_scope.

(** X17.  On candles of numbers none of which has its low above its high,
    every value of the ATR is a number and is not negative. *)
Theorem calculate_atr_nonneg (bars : list (Q * Q * Q)) (period : positive) :
  Forall (fun bar => snd (fst bar) <= fst (fst bar)) bars ->
  Forall (number_in (fun q => 0 <= q))
    (calculate_atr_accurate (highs bars) (lows bars) (closes bars) period).
Proof.
  intros Hbars. unfold calculate_atr_accurate.
  apply ewm_mean_number_in; [|apply wilder_alpha|now apply true_range_nonneg].
  intros a b t x. apply nonneg_convex.
Qed.

Lemma calculate_atr_nonneg_witness :
  Forall (number_in (fun q => 0 <= q))
    (calculate_atr_accurate
       (highs [(30100, 29900, 30000); (30400, 30000, 30300)])
       (lows [(30100, 29900, 30000); (30400, 30000, 30300)])
       (closes [(30100, 29900, 30000); (30400, 30000, 30300)]) 14).
Proof.
  apply calculate_atr_nonneg.
  repeat constructor; now vm_compute.
Defined.

End RangeExtras.
